(** * Threaded messaging application: store, routers and client reconciliation

    A shallow embedding of the tRPC routers ([messages], [threads], [users]),
    of the identity-provider webhook handlers, of the first-authentication
    user resolution and of the client-side reconciliation updater, together
    with the properties the specification states about them.

    Conventions of the embedding:
    - the relational store is a record of row lists, one per table, in
      insertion order; a procedure is a function from stores to a store and
      an outcome, so that what a failed procedure has already written stays
      written (the routers open no transaction);
    - a UUID column is a 128-bit value, held as a [Z] and compared the way
      the database compares [uuid] columns;
    - a timestamp column is a [Z] count of microseconds, the resolution of
      the database, and [defaultNow()] fills it to the microsecond; a [Date],
      the value JavaScript holds for a column it has read and for the date
      of a cursor, is a count of milliseconds: [toDate] cuts a column to
      it, and a [Date] handed to a query stands for [ofDate] of it. The
      message views and the cursors carry [Date]s; the views of threads,
      participants and users show the column they were read from;
    - a number of the input is a rational: the schemas bound it and do
      not ask for an integer;
    - values produced by the environment ([new Date()], [defaultNow()],
      [defaultRandom()], [randomUUID()]) are explicit arguments, a
      [new Date()] that is written to a column as the timestamp stored;
    - a publish to the push service sits in a [try]/[catch] that swallows
      the failure and touches neither the store nor the returned value, so
      it does not appear in the procedures below. *)

From Stdlib Require Import ZArith Lia Ascii String.
From Stdlib Require QArith_base.
From stdpp Require Import base option list sorting strings.

Definition uuid := Z.
Definition timestamp := Z.
Definition Date := Z.
Bind Scope Z_scope with uuid timestamp Date.

(** [new Date(column)]: the microseconds of the column are cut. *)
Definition toDate (t : timestamp) : Date := (t / 1000)%Z.

(** A [Date] as a parameter of a query. *)
Definition ofDate (d : Date) : timestamp := (d * 1000)%Z.

(** A JavaScript number of an input, as far as the schemas admit it. A
    natural number stands for itself. *)
Definition number := QArith_base.Q.

Definition inject_nat (n : nat) : number := QArith_base.inject_Z (Z.of_nat n).
Coercion inject_nat : nat >-> number.

(** The integer a number is, if it is one. *)
Definition integral (x : number) : option Z :=
  if (QArith_base.Qnum x mod Zpos (QArith_base.Qden x) =? 0)%Z
  then Some (QArith_base.Qnum x / Zpos (QArith_base.Qden x))%Z
  else None.

(** Text the database takes: PostgreSQL refuses a [text] value that holds
    the character U+0000 (SQLSTATE 22021). *)
Definition holdsNul (s : string) : bool :=
  bool_decide (Ascii.zero ∈ list_ascii_of_string s).

(** ** Schema *)

Module users.
Record row := mk {
  id : uuid;
  clerkUserId : string;
  username : string;
  primaryEmail : option string;
  firstName : option string;
  lastName : option string;
  createdAt : timestamp;
  updatedAt : timestamp }.
End users.

Module threads.
Record row := mk {
  id : uuid;
  name : option string;
  createdAt : timestamp;
  updatedAt : timestamp;
  lastMessageAt : timestamp }.
End threads.

(** The surrogate key of a participant row is never read by the routers and
    is left out; the uniqueness constraint on (threadId, userId) and the two
    foreign keys are enforced by [insertParticipants] below. *)
Module threadParticipants.
Record row := mk {
  threadId : uuid;
  userId : uuid;
  joinedAt : timestamp }.
End threadParticipants.

Module messages.
Record row := mk {
  id : uuid;
  threadId : uuid;
  senderId : uuid;
  content : string;
  createdAt : timestamp;
  updatedAt : timestamp;
  editedAt : option timestamp;
  isDeleted : bool }.
End messages.

Record Db := mkDb {
  tbl_users : list users.row;
  tbl_threads : list threads.row;
  tbl_threadParticipants : list threadParticipants.row;
  tbl_messages : list messages.row }.

(** ** Errors and procedures *)

Inductive TRPCCode :=
  | NOT_FOUND | FORBIDDEN | BAD_REQUEST | UNAUTHORIZED | INTERNAL_SERVER_ERROR.

(** What a procedure can throw: a [TRPCError], or the driver's
    [DatabaseError] with its SQLSTATE ("23505" unique violation, "23503"
    foreign-key violation). *)
Inductive error :=
  | TRPCError (code : TRPCCode)
  | DatabaseError (sqlstate : string).

Inductive outcome (A : Type) :=
  | Ok (a : A)
  | Throw (e : error).
Arguments Ok {A} a.
Arguments Throw {A} e.

Definition Proc (A : Type) : Type := Db → Db * outcome A.

Definition throw {A} (e : error) : Proc A := λ db, (db, Throw e).
Definition query {A} (q : Db → A) : Proc A := λ db, (db, Ok (q db)).
Definition execute (u : Db → Db) : Proc unit := λ db, (u db, Ok tt).

(** [.limit(n)] with a number of the input: the database takes a whole
    number of rows and refuses any other number (SQLSTATE 22P02); the
    schemas keep [n] positive. *)
Definition limited {A} (n : number) (rows : nat → Db → list A)
    : Proc (list A) :=
  match integral n with
  | Some k => query (rows (Z.to_nat k))
  | None => throw (DatabaseError "22P02")
  end.

(** Sequencing: an exception stops the procedure at the store reached so
    far. The notations [x ← m; k] and [m;; k] are the library's. *)
Global Instance proc_ret : MRet Proc := λ A a db, (db, Ok a).
Global Instance proc_bind : MBind Proc := λ A B k m db,
  match m db with
  | (db', Ok a) => k a db'
  | (db', Throw e) => (db', Throw e)
  end.

Definition result {A} (p : Proc A) (db : Db) : outcome A := snd (p db).
Definition store {A} (p : Proc A) (db : Db) : Db := fst (p db).

(** [protectedProcedure]: the authentication middleware runs first, then the
    input schema (a zod failure surfaces as BAD_REQUEST), then the handler
    with the non-null caller id in its context. *)
Definition protectedProcedure {I O} (schema : I → bool)
    (handler : uuid → I → Proc O) (auth : option uuid) (input : I) : Proc O :=
  match auth with
  | None => throw (TRPCError UNAUTHORIZED)
  | Some userId =>
      if schema input then handler userId input
      else throw (TRPCError BAD_REQUEST)
  end.

(** ** Queries shared by the routers *)

Definition selectThread (threadId : uuid) (db : Db) : list threads.row :=
  take 1 (filter (λ t, threads.id t = threadId) (tbl_threads db)).

Definition selectParticipation (threadId userId : uuid) (db : Db)
    : list threadParticipants.row :=
  take 1 (filter (λ p, threadParticipants.threadId p = threadId
                       ∧ threadParticipants.userId p = userId)
                 (tbl_threadParticipants db)).

Definition selectUser (userId : uuid) (db : Db) : list users.row :=
  take 1 (filter (λ u, users.id u = userId) (tbl_users db)).

Definition isEmpty {A} (l : list A) : bool :=
  match l with [] => true | _ => false end.

(** ** The messages router *)

Module Messages.

(** The columns every message query of the router selects: the message
    with its sender, from the inner join on [messages.senderId]. The three
    dates reach JavaScript as [Date]s; their ISO rendering is one-to-one on
    [Date] values and is left implicit. *)
Record MessageView := mkView {
  id : uuid;
  content : string;
  createdAt : Date;
  updatedAt : Date;
  editedAt : option Date;
  isDeleted : bool;
  sender_id : uuid;
  sender_username : string }.

Definition select (r : messages.row * users.row) : MessageView :=
  {| id := messages.id r.1;
     content := messages.content r.1;
     createdAt := toDate (messages.createdAt r.1);
     updatedAt := toDate (messages.updatedAt r.1);
     editedAt := toDate <$> messages.editedAt r.1;
     isDeleted := messages.isDeleted r.1;
     sender_id := users.id r.2;
     sender_username := users.username r.2 |}.

(** [.from(messages).innerJoin(users, eq(messages.senderId, users.id))] *)
Definition messagesJoinUsers (db : Db) : list (messages.row * users.row) :=
  m ← tbl_messages db;
  u ← filter (λ u, users.id u = messages.senderId m) (tbl_users db);
  [(m, u)].

(** The cursor of the input: [z.coerce.date()] makes a [Date] of what the
    client sends back. *)
Record Cursor := mkCursor {
  cursor_id : uuid;
  cursor_createdAt : Date }.

(** [and(eq(messages.threadId, threadId), eq(messages.isDeleted, false))] *)
Definition baseCondition (threadId : uuid) (m : messages.row) : bool :=
  bool_decide (messages.threadId m = threadId)
  && bool_decide (messages.isDeleted m = false).

(** [or(lt(createdAt, c.createdAt),
        and(eq(createdAt, c.createdAt), lt(id, c.id)))] *)
Definition cursorCondition (c : Cursor) (m : messages.row) : bool :=
  bool_decide (messages.createdAt m < ofDate (cursor_createdAt c))%Z
  || (bool_decide (messages.createdAt m = ofDate (cursor_createdAt c))
      && bool_decide (messages.id m < cursor_id c)%Z).

Definition whereClause (threadId : uuid) (cursor : option Cursor)
    (m : messages.row) : bool :=
  match cursor with
  | Some c => baseCondition threadId m && cursorCondition c m
  | None => baseCondition threadId m
  end.

(** [orderBy(desc(messages.createdAt), desc(messages.id))]: the row [x]
    may stand before the row [y]. *)
Definition createdAtIdDesc (x y : messages.row * users.row) : Prop :=
  (messages.createdAt y.1 < messages.createdAt x.1)%Z
  ∨ (messages.createdAt x.1 = messages.createdAt y.1
     ∧ (messages.id y.1 ≤ messages.id x.1)%Z).

Global Instance createdAtIdDesc_dec : RelDecision createdAtIdDesc.
Proof. intros x y. unfold createdAtIdDesc. apply _. Defined.

Definition selectMessages (threadId : uuid) (cursor : option Cursor)
    (limit : nat) (db : Db) : list MessageView :=
  select <$> take limit
    (merge_sort createdAtIdDesc
       (filter (λ r, whereClause threadId cursor r.1) (messagesJoinUsers db))).

(** *** list *)

(** [limit: z.number().min(1).max(100)]: a number, whole or not. *)
Record ListInput := mkListInput {
  list_threadId : uuid;
  list_limit : number;
  list_cursor : option Cursor }.

Record ListOutput := mkListOutput {
  out_messages : list MessageView;
  nextCursor : option Cursor }.

Definition listSchema (input : ListInput) : bool :=
  QArith_base.Qle_bool (inject_nat 1) (list_limit input)
  && QArith_base.Qle_bool (list_limit input) (inject_nat 100).

(** The cursor handed out: the identifier of a row of the page and the ISO
    rendering of its [Date]. *)
Definition cursorOf (v : MessageView) : Cursor :=
  {| cursor_id := id v; cursor_createdAt := createdAt v |}.

(** [length > limit] *)
Definition exceeds (n : nat) (limit : number) : bool :=
  negb (QArith_base.Qle_bool (inject_nat n) limit).

Definition listHandler (caller : uuid) (input : ListInput) : Proc ListOutput :=
  thread ← query (selectThread (list_threadId input));
  if isEmpty thread then throw (TRPCError NOT_FOUND) else
  participation ← query (selectParticipation (list_threadId input) caller);
  if isEmpty participation then throw (TRPCError FORBIDDEN) else
  messageList ← limited (QArith_base.Qplus (list_limit input) (inject_nat 1))
                  (selectMessages (list_threadId input) (list_cursor input));
  let hasMore := exceeds (length messageList) (list_limit input) in
  let trimmedMessages :=
    if hasMore then take (length messageList - 1) messageList
    else messageList in
  let chronologicalMessages := reverse trimmedMessages in
  let nextCursor :=
    if hasMore && bool_decide (0 < length trimmedMessages)
    then cursorOf <$> last trimmedMessages
    else None in
  mret {| out_messages := chronologicalMessages; nextCursor := nextCursor |}.

(** *** getLatest *)

(** [limit: z.number().min(1).max(10)]: a number, whole or not. *)
Record LatestInput := mkLatestInput {
  latest_threadId : uuid;
  latest_limit : number }.

Definition latestSchema (input : LatestInput) : bool :=
  QArith_base.Qle_bool (inject_nat 1) (latest_limit input)
  && QArith_base.Qle_bool (latest_limit input) (inject_nat 10).

Definition getLatestHandler (caller : uuid) (input : LatestInput)
    : Proc (list MessageView) :=
  thread ← query (selectThread (latest_threadId input));
  if isEmpty thread then throw (TRPCError NOT_FOUND) else
  participation ← query (selectParticipation (latest_threadId input) caller);
  if isEmpty participation then throw (TRPCError FORBIDDEN) else
  latestMessages ← limited (latest_limit input)
                      (selectMessages (latest_threadId input) None);
  mret (reverse latestMessages).

(** *** send *)

Record SendInput := mkSendInput {
  send_threadId : uuid;
  send_content : string }.

Definition sendSchema (input : SendInput) : bool :=
  bool_decide (1 ≤ String.length (send_content input) ≤ 1000).

(** [insert(messages).values(...).returning()]: the database refuses a
    content it cannot hold as [text], and checks the primary key and the
    two foreign keys of the table; [newId] and [now] are what
    [defaultRandom()] and [defaultNow()] produce. *)
Definition insertMessage (newId : uuid) (now : timestamp)
    (threadId senderId : uuid) (content : string)
    : Proc (Datatypes.list messages.row) :=
  λ db,
    if holdsNul content
    then (db, Throw (DatabaseError "22021"))
    else if bool_decide (newId ∈ messages.id <$> tbl_messages db)
    then (db, Throw (DatabaseError "23505"))
    else if bool_decide (threadId ∉ threads.id <$> tbl_threads db
                         ∨ senderId ∉ users.id <$> tbl_users db)
    then (db, Throw (DatabaseError "23503"))
    else
      let row := messages.mk newId threadId senderId content now now None false in
      (mkDb (tbl_users db) (tbl_threads db) (tbl_threadParticipants db)
            (tbl_messages db ++ [row]),
       Ok [row]).

Definition touchThread (threadId : uuid) (now : timestamp) (db : Db) : Db :=
  mkDb (tbl_users db)
       ((λ t, if bool_decide (threads.id t = threadId)
              then threads.mk (threads.id t) (threads.name t)
                     (threads.createdAt t) (threads.updatedAt t) now
              else t) <$> tbl_threads db)
       (tbl_threadParticipants db) (tbl_messages db).

Definition selectMessageById (messageId : uuid) (db : Db)
    : Datatypes.list MessageView :=
  select <$> take 1
    (filter (λ r, messages.id r.1 = messageId) (messagesJoinUsers db)).

(** The three statements of [send] after the guards are awaited one after
    the other and outside any transaction: the database may fail the
    update of the thread or the closing select when the insert has gone
    through. A fault is the SQLSTATE of that failure, [None] when the
    statement goes through. *)
Record Faults := mkFaults {
  fault_update : option string;
  fault_select : option string }.

Definition noFaults : Faults := mkFaults None None.

Definition attempt {A} (fault : option string) (p : Proc A) : Proc A :=
  match fault with
  | Some sqlstate => throw (DatabaseError sqlstate)
  | None => p
  end.

(** [newId] and [now] feed the insert, [now'] is the later [new Date()]
    written to the thread. *)
Definition sendHandler (faults : Faults) (newId : uuid) (now now' : timestamp)
    (caller : uuid) (input : SendInput) : Proc (option MessageView) :=
  thread ← query (selectThread (send_threadId input));
  if isEmpty thread then throw (TRPCError NOT_FOUND) else
  participation ← query (selectParticipation (send_threadId input) caller);
  if isEmpty participation then throw (TRPCError FORBIDDEN) else
  newMessage ← insertMessage newId now (send_threadId input) caller
                 (send_content input);
  match head newMessage with
  | None => throw (TRPCError INTERNAL_SERVER_ERROR)
  | Some message =>
      attempt (fault_update faults)
        (execute (touchThread (send_threadId input) now'));;
      fullMessage ← attempt (fault_select faults)
                      (query (selectMessageById (messages.id message)));
      mret (head fullMessage)
  end.

(** *** edit and delete *)

Definition selectMessage (messageId : uuid) (db : Db)
    : Datatypes.list messages.row :=
  take 1 (filter (λ m, messages.id m = messageId) (tbl_messages db)).

Definition updateMessages (messageId : uuid)
    (set : messages.row → messages.row) (db : Db) : Db :=
  mkDb (tbl_users db) (tbl_threads db) (tbl_threadParticipants db)
       ((λ m, if bool_decide (messages.id m = messageId) then set m else m)
          <$> tbl_messages db).

Record EditInput := mkEditInput {
  edit_messageId : uuid;
  edit_content : string }.

Definition editSchema (input : EditInput) : bool :=
  bool_decide (1 ≤ String.length (edit_content input) ≤ 1000).

Definition setEdited (content : string) (now now' : timestamp)
    (m : messages.row) : messages.row :=
  messages.mk (messages.id m) (messages.threadId m) (messages.senderId m)
    content (messages.createdAt m) now' (Some now) (messages.isDeleted m).

(** [update(messages).set({ content, editedAt, updatedAt })
     .where(eq(messages.id, messageId))]: the database refuses a content
    it cannot hold as [text]. *)
Definition updateContent (messageId : uuid) (content : string)
    (now now' : timestamp) : Proc unit :=
  λ db,
    if holdsNul content
    then (db, Throw (DatabaseError "22021"))
    else (updateMessages messageId (setEdited content now now') db, Ok tt).

Definition editHandler (now now' : timestamp) (caller : uuid)
    (input : EditInput) : Proc bool :=
  messageToEdit ← query (selectMessage (edit_messageId input));
  match head messageToEdit with
  | None => throw (TRPCError NOT_FOUND)
  | Some existingMessage =>
      if bool_decide (messages.senderId existingMessage ≠ caller)
      then throw (TRPCError FORBIDDEN)
      else if messages.isDeleted existingMessage
      then throw (TRPCError BAD_REQUEST)
      else
        updateContent (edit_messageId input) (edit_content input) now now';;
        mret true
  end.

Definition setDeleted (now : timestamp) (m : messages.row) : messages.row :=
  messages.mk (messages.id m) (messages.threadId m) (messages.senderId m)
    (messages.content m) (messages.createdAt m) now (messages.editedAt m) true.

Definition deleteHandler (now : timestamp) (caller : uuid)
    (messageId : uuid) : Proc bool :=
  messageToDelete ← query (selectMessage messageId);
  match head messageToDelete with
  | None => throw (TRPCError NOT_FOUND)
  | Some existingMessage =>
      if bool_decide (messages.senderId existingMessage ≠ caller)
      then throw (TRPCError FORBIDDEN)
      else if messages.isDeleted existingMessage
      then throw (TRPCError BAD_REQUEST)
      else
        execute (updateMessages messageId (setDeleted now));;
        mret true
  end.

(** *** The procedures of the router *)

Definition list := protectedProcedure listSchema listHandler.
Definition send (faults : Faults) (newId : uuid) (now now' : timestamp) :=
  protectedProcedure sendSchema (sendHandler faults newId now now').
Definition getLatest := protectedProcedure latestSchema getLatestHandler.
Definition edit (now now' : timestamp) :=
  protectedProcedure editSchema (editHandler now now').
Definition delete (now : timestamp) :=
  protectedProcedure (λ _ : uuid, true) (deleteHandler now).

End Messages.

(** ** The threads router *)

Module Threads.

Record ParticipantView := mkParticipant {
  participant_id : uuid;
  participant_username : string }.

(** [.from(threadParticipants).innerJoin(users, ...)
     .where(eq(threadParticipants.threadId, threadId))] *)
Definition participantsJoinUsers (threadId : uuid) (db : Db)
    : list (threadParticipants.row * users.row) :=
  p ← filter (λ p, threadParticipants.threadId p = threadId)
        (tbl_threadParticipants db);
  u ← filter (λ u, users.id u = threadParticipants.userId p) (tbl_users db);
  [(p, u)].

Definition selectParticipants (threadId : uuid) (db : Db)
    : list ParticipantView :=
  (λ r, mkParticipant (users.id r.2) (users.username r.2))
    <$> participantsJoinUsers threadId db.

(** [[...new Set(ids)]]: the distinct elements in order of first
    occurrence; [seen] holds what the set already contains. *)
Fixpoint uniqueFrom (seen ids : list uuid) : list uuid :=
  match ids with
  | [] => []
  | x :: rest =>
      if bool_decide (x ∈ seen) then uniqueFrom seen rest
      else x :: uniqueFrom (x :: seen) rest
  end.

Definition arrayFromSet (ids : list uuid) : list uuid := uniqueFrom [] ids.

(** [insert(threads).values({ name }).returning()] *)
Definition insertThread (newId : uuid) (now : timestamp)
    (name : option string) : Proc (list threads.row) :=
  λ db,
    if bool_decide (newId ∈ threads.id <$> tbl_threads db)
    then (db, Throw (DatabaseError "23505"))
    else
      let row := threads.mk newId name now now now in
      (mkDb (tbl_users db) (tbl_threads db ++ [row])
            (tbl_threadParticipants db) (tbl_messages db),
       Ok [row]).

Definition participantKey (p : threadParticipants.row) : uuid * uuid :=
  (threadParticipants.threadId p, threadParticipants.userId p).

(** One [insert(threadParticipants).values(rows)] statement: either every
    row is written or, on a violated constraint, none. *)
Definition insertParticipants (now : timestamp) (values : list (uuid * uuid))
    : Proc unit :=
  λ db,
    let existing := participantKey <$> tbl_threadParticipants db in
    if bool_decide (¬ NoDup (existing ++ values))
    then (db, Throw (DatabaseError "23505"))
    else if bool_decide (Exists
              (λ v, v.1 ∉ threads.id <$> tbl_threads db
                    ∨ v.2 ∉ users.id <$> tbl_users db) values)
    then (db, Throw (DatabaseError "23503"))
    else
      (mkDb (tbl_users db) (tbl_threads db)
            (tbl_threadParticipants db
               ++ ((λ v, threadParticipants.mk v.1 v.2 now) <$> values))
            (tbl_messages db),
       Ok ()).

(** *** create *)

Record CreateInput := mkCreateInput {
  create_name : option string;
  participantIds : list uuid }.

Definition createSchema (input : CreateInput) : bool :=
  bool_decide (1 ≤ length (participantIds input)).

(** [.from(users).where(inArray(users.id, participantIds))] *)
Definition selectUsersIn (ids : list uuid) (db : Db) : list uuid :=
  users.id <$> filter (λ u, users.id u ∈ ids) (tbl_users db).

Definition createHandler (newId : uuid) (now : timestamp) (caller : uuid)
    (input : CreateInput) : Proc threads.row :=
  existingUsers ← query (selectUsersIn (participantIds input));
  if bool_decide (length existingUsers ≠ length (participantIds input))
  then throw (TRPCError BAD_REQUEST) else
  newThread ← insertThread newId now (create_name input);
  match head newThread with
  | None => throw (TRPCError INTERNAL_SERVER_ERROR)
  | Some thread =>
      let allParticipantIds := participantIds input ++ [caller] in
      let uniqueParticipantIds := arrayFromSet allParticipantIds in
      insertParticipants now
        ((λ userId, (threads.id thread, userId)) <$> uniqueParticipantIds);;
      participants ← query (selectParticipants (threads.id thread));
      mret thread
  end.

(** *** getById *)

Record ThreadWithParticipants := mkThreadWithParticipants {
  thread : threads.row;
  participants : list (ParticipantView * timestamp) }.

Definition selectParticipantsJoined (threadId : uuid) (db : Db)
    : list (ParticipantView * timestamp) :=
  (λ r, (mkParticipant (users.id r.2) (users.username r.2),
         threadParticipants.joinedAt r.1))
    <$> participantsJoinUsers threadId db.

Definition getByIdHandler (caller : uuid) (input : uuid)
    : Proc ThreadWithParticipants :=
  participation ← query (selectParticipation input caller);
  if isEmpty participation then throw (TRPCError FORBIDDEN) else
  thread ← query (selectThread input);
  match head thread with
  | None => throw (TRPCError NOT_FOUND)
  | Some t =>
      participants ← query (selectParticipantsJoined input);
      mret (mkThreadWithParticipants t participants)
  end.

(** *** addParticipant *)

Record AddParticipantInput := mkAddParticipantInput {
  add_threadId : uuid;
  add_userId : uuid }.

Definition addParticipantHandler (now : timestamp) (caller : uuid)
    (input : AddParticipantInput) : Proc bool :=
  participation ← query (selectParticipation (add_threadId input) caller);
  if isEmpty participation then throw (TRPCError FORBIDDEN) else
  userExists ← query (selectUser (add_userId input));
  if isEmpty userExists then throw (TRPCError NOT_FOUND) else
  existingParticipation ←
    query (selectParticipation (add_threadId input) (add_userId input));
  if negb (isEmpty existingParticipation)
  then throw (TRPCError BAD_REQUEST) else
  insertParticipants now [(add_threadId input, add_userId input)];;
  mret true.

(** *** list *)

Record ThreadSummary := mkThreadSummary {
  summary_id : uuid;
  summary_name : option string;
  summary_createdAt : timestamp;
  summary_lastMessageAt : timestamp;
  summary_participants : list ParticipantView }.

(** [.from(threadParticipants).innerJoin(threads, ...)
     .where(eq(threadParticipants.userId, userId))] *)
Definition participationsJoinThreads (userId : uuid) (db : Db)
    : list (threadParticipants.row * threads.row) :=
  p ← filter (λ p, threadParticipants.userId p = userId)
        (tbl_threadParticipants db);
  t ← filter (λ t, threads.id t = threadParticipants.threadId p)
        (tbl_threads db);
  [(p, t)].

(** [orderBy(desc(threads.lastMessageAt))] *)
Definition lastMessageAtDesc (x y : threadParticipants.row * threads.row)
    : Prop :=
  (threads.lastMessageAt y.2 ≤ threads.lastMessageAt x.2)%Z.

Global Instance lastMessageAtDesc_dec : RelDecision lastMessageAtDesc.
Proof. intros x y. unfold lastMessageAtDesc. apply _. Defined.

Definition listHandler (caller : uuid) (_ : unit) : Proc (list ThreadSummary) :=
  userThreads ← query (λ db, merge_sort lastMessageAtDesc
                               (participationsJoinThreads caller db));
  query (λ db,
    (λ r : threadParticipants.row * threads.row,
       mkThreadSummary (threads.id r.2) (threads.name r.2)
         (threads.createdAt r.2) (threads.lastMessageAt r.2)
         (selectParticipants (threads.id r.2) db)) <$> userThreads).

(** *** The procedures of the router *)

Definition create (newId : uuid) (now : timestamp) :=
  protectedProcedure createSchema (createHandler newId now).
Definition getById :=
  protectedProcedure (λ _ : uuid, true) getByIdHandler.
Definition addParticipant (now : timestamp) :=
  protectedProcedure (λ _ : AddParticipantInput, true)
    (addParticipantHandler now).
Definition list := protectedProcedure (λ _ : unit, true) listHandler.

End Threads.

(** ** JavaScript strings

    A string is its sequence of code units, here the characters of a
    [string]; the functions below are the [String.prototype] methods and the
    regular-expression replacements the handlers use, on that sequence. *)

Module Js.

Definition chars : string → list ascii := list_ascii_of_string.
Definition str : list ascii → string := string_of_list_ascii.

Definition inRange (lo hi c : ascii) : bool :=
  bool_decide (nat_of_ascii lo ≤ nat_of_ascii c ≤ nat_of_ascii hi).

Definition isLower (c : ascii) : bool := inRange "a" "z" c.
Definition isUpper (c : ascii) : bool := inRange "A" "Z" c.
Definition isDigit (c : ascii) : bool := inRange "0" "9" c.

Definition lowerChar (c : ascii) : ascii :=
  if isUpper c then ascii_of_nat (nat_of_ascii c + 32) else c.

(** [s.toLowerCase()] *)
Definition toLowerCase (s : string) : string := str (lowerChar <$> chars s).

(** [s.slice(0, n)] *)
Definition sliceTo (n : nat) (s : string) : string := str (take n (chars s)).

(** [s.slice(-n)] *)
Definition sliceLast (n : nat) (s : string) : string :=
  str (drop (String.length s - n) (chars s)).

(** [s.replace(/[class]/g, c)] for a class of single characters *)
Definition replaceClass (class : ascii → bool) (c : ascii) (s : string)
    : string :=
  str ((λ x, if class x then c else x) <$> chars s).

(** [s.replace(/[class]/g, "")] *)
Definition removeClass (class : ascii → bool) (s : string) : string :=
  str (filter (λ x, class x = false) (chars s)).

(** [s.replace(/-+/g, "-")] *)
Fixpoint collapseDashes (l : list ascii) : list ascii :=
  match l with
  | [] => []
  | c :: rest =>
      match rest with
      | d :: _ =>
          if bool_decide (c = "-"%char ∧ d = "-"%char)
          then collapseDashes rest
          else c :: collapseDashes rest
      | [] => [c]
      end
  end.

(** [s.replace(/^-|-$/g, "")]: one dash at the start and one at the end *)
Definition stripDashStart (l : list ascii) : list ascii :=
  match l with
  | c :: rest => if bool_decide (c = "-"%char) then rest else l
  | [] => []
  end.

Definition stripDashEnd (l : list ascii) : list ascii :=
  match last l with
  | Some c => if bool_decide (c = "-"%char) then take (length l - 1) l else l
  | None => l
  end.

Definition stripDashes (l : list ascii) : list ascii :=
  match l with
  | c :: rest =>
      if bool_decide (c = "-"%char) then stripDashEnd rest
      else stripDashEnd l
  | [] => []
  end.

(** [s.split(sep)[0]] for a one-character separator *)
Fixpoint beforeFirst (sep : ascii) (l : list ascii) : list ascii :=
  match l with
  | [] => []
  | c :: rest => if bool_decide (c = sep) then [] else c :: beforeFirst sep rest
  end.

(** [s.startsWith(p)] *)
Definition startsWith (p s : string) : bool := String.prefix p s.

(** Truthiness of a nullable string: neither [null] nor empty. *)
Definition truthy (s : option string) : bool :=
  match s with
  | Some s => negb (bool_decide (s = ""))
  | None => false
  end.

(** [a ?? b] *)
Definition nullish {A} (a : option A) (b : A) : A := default b a.

End Js.

(** ** The users router *)

Module Users.

(** The SQL fragments built by the query helpers; each is a JavaScript
    object. *)
Inductive SQL :=
  | ilike_username (pattern : string)
  | ne_id (value : uuid)
  | eq_id (value : uuid)
  | and (l r : SQL).

(** An object is truthy whatever it holds. *)
Definition truthy (_ : SQL) : bool := true.

(** The JavaScript operator [l && r]: [r] when [l] is truthy, else [l]. *)
Definition logicalAnd (l r : SQL) : SQL := if truthy l then r else l.

(** [LIKE] matching on characters, compared without case: [%] stands for
    any run of characters and [_] for any single one. *)
Fixpoint likeMatch (pattern subject : list ascii) : bool :=
  match pattern with
  | [] => isEmpty subject
  | p :: pattern' =>
      if bool_decide (p = "%"%char) then
        (fix anySuffix (s : list ascii) : bool :=
           likeMatch pattern' s
           || match s with
              | [] => false
              | _ :: s' => anySuffix s'
              end) subject
      else
        match subject with
        | [] => false
        | c :: subject' =>
            (bool_decide (p = "_"%char)
             || bool_decide (Js.lowerChar p = Js.lowerChar c))
            && likeMatch pattern' subject'
        end
  end.

Fixpoint holds (w : SQL) (u : users.row) : bool :=
  match w with
  | ilike_username pattern =>
      likeMatch (Js.chars pattern) (Js.chars (users.username u))
  | ne_id value => bool_decide (users.id u ≠ value)
  | eq_id value => bool_decide (users.id u = value)
  | and l r => holds l u && holds r u
  end.

Record UserView := mkUserView {
  id : uuid;
  username : string;
  firstName : option string;
  lastName : option string;
  primaryEmail : option string;
  createdAt : timestamp }.

Definition select (u : users.row) : UserView :=
  mkUserView (users.id u) (users.username u) (users.firstName u)
    (users.lastName u) (users.primaryEmail u) (users.createdAt u).

Definition selectWhere (w : SQL) (limit : option nat) (db : Db)
    : list UserView :=
  let rows := filter (λ u, holds w u) (tbl_users db) in
  select <$> match limit with Some n => take n rows | None => rows end.

(** [limit: z.number().min(1).max(20)]: a number, whole or not. *)
Record SearchInput := mkSearchInput {
  search_username : string;
  search_limit : number }.

Definition queryChar (c : ascii) : bool :=
  Js.isLower c || Js.isUpper c || Js.isDigit c
  || bool_decide (c = "."%char ∨ c = "_"%char ∨ c = "-"%char).

Definition searchUsersSchema (input : SearchInput) : bool :=
  bool_decide (1 ≤ String.length (search_username input) ≤ 50)
  && forallb queryChar (Js.chars (search_username input))
  && (QArith_base.Qle_bool (inject_nat 1) (search_limit input)
      && QArith_base.Qle_bool (search_limit input) (inject_nat 20)).

Definition searchByUsernameHandler (caller : uuid) (input : SearchInput)
    : Proc (list UserView) :=
  limited (search_limit input)
    (λ n, selectWhere
            (logicalAnd
               (ilike_username ("%" +:+ search_username input +:+ "%"))
               (ne_id caller))
            (Some n)).

Definition getAllHandler (caller : uuid) (_ : unit) : Proc (list UserView) :=
  query (selectWhere (ne_id caller) None).

Definition searchByUsername :=
  protectedProcedure searchUsersSchema searchByUsernameHandler.
Definition getAll :=
  protectedProcedure (λ _ : unit, true) getAllHandler.

(** *** me and getById *)

Definition meHandler (caller : uuid) (_ : unit) : Proc UserView :=
  user ← query (selectWhere (eq_id caller) (Some 1));
  match head user with
  | None => throw (TRPCError NOT_FOUND)
  | Some u => mret u
  end.

Definition getByIdHandler (caller : uuid) (input : uuid) : Proc UserView :=
  user ← query (selectWhere (eq_id input) (Some 1));
  match head user with
  | None => throw (TRPCError NOT_FOUND)
  | Some u => mret u
  end.

Definition me := protectedProcedure (λ _ : unit, true) meHandler.
Definition getById := protectedProcedure (λ _ : uuid, true) getByIdHandler.

End Users.

(** ** Writes to the users table *)

Module UsersTable.

Record Values := mkValues {
  v_clerkUserId : string;
  v_username : string;
  v_primaryEmail : option string;
  v_firstName : option string;
  v_lastName : option string }.

Definition withUsers (us : list users.row) (db : Db) : Db :=
  mkDb us (tbl_threads db) (tbl_threadParticipants db) (tbl_messages db).

(** [insert(users).values(v)]: the primary key and the two unique columns
    are checked; [newId] and [now] are the column defaults. *)
Definition insert (newId : uuid) (now : timestamp) (v : Values)
    : Proc uuid :=
  λ db,
    if bool_decide (newId ∈ users.id <$> tbl_users db
                    ∨ v_clerkUserId v ∈ users.clerkUserId <$> tbl_users db
                    ∨ v_username v ∈ users.username <$> tbl_users db)
    then (db, Throw (DatabaseError "23505"))
    else
      (withUsers (tbl_users db ++
         [users.mk newId (v_clerkUserId v) (v_username v) (v_primaryEmail v)
            (v_firstName v) (v_lastName v) now now]) db,
       Ok newId).

(** [insert(users).values(v).onConflictDoUpdate({ target: clerkUserId,
    set: { username, primaryEmail, firstName, lastName, updatedAt } })]:
    a row with the same external id is updated in place; the unique
    username is checked against every other row either way. *)
Definition insertOnConflictDoUpdate (newId : uuid) (now now' : timestamp)
    (v : Values) : Proc unit :=
  λ db,
    let others :=
      filter (λ u, users.clerkUserId u ≠ v_clerkUserId v) (tbl_users db) in
    if bool_decide (v_username v ∈ users.username <$> others)
    then (db, Throw (DatabaseError "23505"))
    else if bool_decide (v_clerkUserId v ∈ users.clerkUserId <$> tbl_users db)
    then
      (withUsers
         ((λ u, if bool_decide (users.clerkUserId u = v_clerkUserId v)
                then users.mk (users.id u) (users.clerkUserId u)
                       (v_username v) (v_primaryEmail v) (v_firstName v)
                       (v_lastName v) (users.createdAt u) now'
                else u) <$> tbl_users db) db,
       Ok ())
    else if bool_decide (newId ∈ users.id <$> tbl_users db)
    then (db, Throw (DatabaseError "23505"))
    else
      (withUsers (tbl_users db ++
         [users.mk newId (v_clerkUserId v) (v_username v) (v_primaryEmail v)
            (v_firstName v) (v_lastName v) now now]) db,
       Ok ()).

(** [try { p } catch (error) { if (error instanceof DatabaseError &&
    error.code === "23505") { q } else throw error }] *)
Definition catchUniqueViolation {A} (p q : Proc A) : Proc A :=
  λ db,
    match p db with
    | (db', Throw (DatabaseError code)) =>
        if bool_decide (code = "23505") then q db'
        else (db', Throw (DatabaseError code))
    | r => r
    end.

End UsersTable.

(** ** The identity-provider webhook handlers *)

Module ClerkWebhooks.

Record EmailAddress := mkEmail {
  email_id : string;
  email_address : string }.

Record ClerkUserWebhookEvent := mkEvent {
  id : string;
  username : option string;
  email_addresses : option (list EmailAddress);
  primary_email_address_id : option string;
  first_name : option string;
  last_name : option string }.

Definition extractEmailAddress (user : ClerkUserWebhookEvent)
    : option string :=
  match email_addresses user with
  | None | Some [] => None
  | Some addresses =>
      let primary :=
        if Js.truthy (primary_email_address_id user)
        then head (filter (λ e, Some (email_id e)
                                = primary_email_address_id user) addresses)
        else None in
      match primary with
      | Some p => Some (email_address p)
      | None => email_address <$> head addresses
      end
  end.

Definition usernameChar (c : ascii) : bool :=
  Js.isLower c || Js.isDigit c
  || bool_decide (c = "_"%char ∨ c = "-"%char).

Definition alphanumeric (c : ascii) : bool :=
  Js.isLower c || Js.isUpper c || Js.isDigit c.

Definition normaliseUsername (user : ClerkUserWebhookEvent) : string :=
  let email := extractEmailAddress user in
  let initial :=
    match username user with
    | Some u => u
    | None =>
        match email with
        | Some e => Js.str (Js.beforeFirst "@" (Js.chars e))
        | None => id user
        end
    end in
  let base :=
    Js.str (Js.stripDashes (Js.collapseDashes (Js.chars
      (Js.replaceClass (λ c, negb (usernameChar c)) "-"
         (Js.toLowerCase initial))))) in
  let username :=
    if bool_decide (base = "") then "user-" +:+ Js.sliceLast 6 (id user)
    else base in
  let username :=
    if bool_decide (String.length username < 4)
    then username +:+
         Js.sliceTo 4 (Js.removeClass (λ c, negb (alphanumeric c)) (id user))
    else username in
  if bool_decide (64 < String.length username)
  then Js.sliceTo 64 username
  else username.

(** What the backend client returns for a user, and [None] when the client
    is not configured or the lookup fails. *)
Record ClerkUser := mkClerkUser {
  clerk_id : string;
  clerk_username : option string;
  primaryEmailAddress : option string;
  firstName : option string;
  lastName : option string }.

Definition resolveUserDetails (lookup : string → option ClerkUser)
    (user : ClerkUserWebhookEvent)
    : option string * option string * option string :=
  let primaryEmail := extractEmailAddress user in
  let firstName' := first_name user in
  let lastName' := last_name user in
  if Js.truthy primaryEmail && Js.truthy firstName' && Js.truthy lastName'
  then (primaryEmail, firstName', lastName')
  else
    match lookup (id user) with
    | None => (primaryEmail, firstName', lastName')
    | Some clerkUser =>
        (match primaryEmailAddress clerkUser with
         | Some e => Some e | None => primaryEmail end,
         match firstName clerkUser with
         | Some f => Some f | None => firstName' end,
         match lastName clerkUser with
         | Some l => Some l | None => lastName' end)
    end.

(** [while (username.length < 4) username = `${username}-${randomUUID()
    .slice(0, 4)}`]: every turn adds at least the dash, so the loop is over
    after four turns at most; [turns] counts the turns still allowed and
    [randomUUID i] is the value of the [i]-th call. *)
Fixpoint padUsername (turns : nat) (randomUUID : nat → string) (i : nat)
    (username : string) : string * nat :=
  match turns with
  | 0 => (username, i)
  | S turns' =>
      if bool_decide (String.length username < 4)
      then padUsername turns' randomUUID (S i)
             (username +:+ "-" +:+ Js.sliceTo 4 (randomUUID i))
      else (username, i)
  end.

Definition upsertUser (lookup : string → option ClerkUser)
    (randomUUID : nat → string) (newId newId' : uuid)
    (now now' : timestamp) (user : ClerkUserWebhookEvent) : Proc unit :=
  let baseUsername := normaliseUsername user in
  let '(username, i) := padUsername 4 randomUUID 0 baseUsername in
  let '(primaryEmail, firstName, lastName) := resolveUserDetails lookup user in
  UsersTable.catchUniqueViolation
    (UsersTable.insertOnConflictDoUpdate newId now now'
       (UsersTable.mkValues (id user) username primaryEmail firstName lastName))
    (let fallbackUsername :=
       Js.sliceTo 64 (baseUsername +:+ "-" +:+ Js.sliceTo 6 (randomUUID i)) in
     UsersTable.insertOnConflictDoUpdate newId' now now'
       (UsersTable.mkValues (id user) fallbackUsername primaryEmail
          firstName lastName)).

Definition handleUserCreated := upsertUser.
Definition handleUserUpdated := upsertUser.

(** [delete(users).where(eq(users.clerkUserId, clerkUserId))]: the rows go,
    and with them, by the cascading foreign keys of the schema, the
    participant rows and the messages of the users they held. *)
Definition deleteUsersByClerkUserId (clerkUserId : string) (db : Db) : Db :=
  let gone :=
    users.id <$> filter (λ u, users.clerkUserId u = clerkUserId) (tbl_users db) in
  mkDb (filter (λ u, users.clerkUserId u ≠ clerkUserId) (tbl_users db))
       (tbl_threads db)
       (filter (λ p, threadParticipants.userId p ∉ gone)
          (tbl_threadParticipants db))
       (filter (λ m, messages.senderId m ∉ gone) (tbl_messages db)).

Definition handleUserDeleted (user : ClerkUserWebhookEvent) : Proc unit :=
  execute (deleteUsersByClerkUserId (id user)).

(** *** The webhook route *)

Inductive Response :=
  | TextResponse (body : string) (status : nat)
  | JsonReceived.

(** What the handlers draw from their environment. *)
Record Environment := mkEnvironment {
  env_lookup : string → option ClerkUser;
  env_randomUUID : nat → string;
  env_newId : uuid;
  env_newId' : uuid;
  env_now : timestamp;
  env_now' : timestamp }.

(** [secret] tells whether the signing secret is configured; [verify] is
    the signature check of the library, [None] when it throws, and gives
    the event's type and data. *)
Definition POST (secret : bool)
    (verify : string → string → string → string
              → option (string * ClerkUserWebhookEvent))
    (env : Environment) (body : string)
    (svixId svixTimestamp svixSignature : option string)
    (db : Db) : Db * Response :=
  if negb secret
  then (db, TextResponse "Webhook secret is not configured" 500)
  else
    match svixId, svixTimestamp, svixSignature with
    | Some i, Some t, Some g =>
        if negb (Js.truthy svixId && Js.truthy svixTimestamp
                 && Js.truthy svixSignature)
        then (db, TextResponse "Missing Svix signature headers" 400)
        else
          match verify body i t g with
          | None => (db, TextResponse "Invalid signature" 400)
          | Some (type, data) =>
              let upsert :=
                upsertUser (env_lookup env) (env_randomUUID env) (env_newId env)
                  (env_newId' env) (env_now env) (env_now' env) data in
              let handled :=
                if bool_decide (type = "user.created") then upsert db
                else if bool_decide (type = "user.updated") then upsert db
                else if bool_decide (type = "user.deleted")
                then handleUserDeleted data db
                else (db, Ok ()) in
              match handled with
              | (db', Ok _) => (db', JsonReceived)
              | (db', Throw _) => (db', TextResponse "Internal Server Error" 500)
              end
          end
    | _, _, _ => (db, TextResponse "Missing Svix signature headers" 400)
    end.

End ClerkWebhooks.

(** ** Resolution of the caller on first authentication *)

Module Trpc.

Import ClerkWebhooks.

Definition selectByClerkUserId (clerkUserId : string) (db : Db)
    : list users.row :=
  take 1 (filter (λ u, users.clerkUserId u = clerkUserId) (tbl_users db)).

Definition updateProfile (userId : uuid) (now : timestamp)
    (primaryEmail firstName lastName : option string) (db : Db) : Db :=
  UsersTable.withUsers
    ((λ u, if bool_decide (users.id u = userId)
           then users.mk (users.id u) (users.clerkUserId u)
                  (users.username u) primaryEmail firstName lastName
                  (users.createdAt u) now
           else u) <$> tbl_users db) db.

(** [lookup] is [clerk.users.getUser], [None] when it throws; [randomUUID]
    is the value drawn for the fallback handle. *)
Definition resolveUser (lookup : string → option ClerkUser)
    (randomUUID : string) (newId newId' : uuid) (now : timestamp)
    (clerkUserId : string) : Proc (option uuid) :=
  existing ← query (selectByClerkUserId clerkUserId);
  let existingUser := head existing in
  let needsProfileSync :=
    match existingUser with
    | Some u => negb (Js.truthy (users.primaryEmail u))
                || negb (Js.truthy (users.firstName u))
                || negb (Js.truthy (users.lastName u))
    | None => true
    end in
  if negb needsProfileSync then mret (users.id <$> existingUser) else
  match lookup clerkUserId with
  | None => mret (users.id <$> existingUser)
  | Some clerkUser =>
      let candidateUsername :=
        Js.nullish (clerk_username clerkUser)
          (Js.nullish (primaryEmailAddress clerkUser) (clerk_id clerkUser)) in
      let primaryEmail := primaryEmailAddress clerkUser in
      let firstName := firstName clerkUser in
      let lastName := lastName clerkUser in
      match existingUser with
      | Some u =>
          execute (updateProfile (users.id u) now primaryEmail firstName
                     lastName);;
          mret (Some (users.id u))
      | None =>
          UsersTable.catchUniqueViolation
            (created ← UsersTable.insert newId now
               (UsersTable.mkValues clerkUserId candidateUsername
                  primaryEmail firstName lastName);
             mret (Some created))
            (let fallbackUsername :=
               candidateUsername +:+ "-" +:+ Js.sliceTo 6 randomUUID in
             created ← UsersTable.insert newId' now
               (UsersTable.mkValues clerkUserId fallbackUsername
                  primaryEmail firstName lastName);
             mret (Some created))
      end
  end.

(** The part of the request context the procedures read. [metadata] is the
    organisation the request names, if it names one. *)
Record AuthContext := mkAuthContext {
  auth_userId : option uuid;
  auth_clerkUserId : option string;
  auth_metadata : option string }.

(** [clerkAuth] is [opts.clerkAuth?.userId ?? null] and [customOrgId] the
    header [x-organization-id]; the other fields of the context (headers,
    request id, start time) are the request's and the clock's. *)
Definition createTRPCContext (lookup : string → option ClerkUser)
    (randomUUID : string) (newId newId' : uuid) (now : timestamp)
    (clerkAuth customOrgId : option string) : Proc AuthContext :=
  let clerkUserId := clerkAuth in
  userId ← match clerkUserId with
           | Some c =>
               if Js.truthy clerkUserId
               then resolveUser lookup randomUUID newId newId' now c
               else mret None
           | None => mret None
           end;
  let metadata := if Js.truthy customOrgId then customOrgId else None in
  mret (mkAuthContext userId clerkUserId metadata).

End Trpc.

(** ** Client reconciliation *)

Module Client.

Record Sender := mkSender {
  sender_id : string;
  sender_username : string }.

(** A message of the local list; an absent or null [editedAt] and an absent
    [isDeleted] are [None]. *)
Record Message := mkMessage {
  id : string;
  content : string;
  createdAt : string;
  updatedAt : string;
  editedAt : option string;
  isDeleted : option bool;
  sender : Sender }.

Record MessageEvent := mkMessageEvent {
  ev_id : string;
  ev_content : string;
  ev_createdAt : string;
  ev_updatedAt : string;
  ev_threadId : string;
  ev_sender : Sender }.

Section Reconciliation.

(** [new Date(s).toISOString()] *)
Variable toISOString : string → string.

Definition newMessageOf (messageEvent : MessageEvent) : Message :=
  {| id := ev_id messageEvent;
     content := ev_content messageEvent;
     createdAt := toISOString (ev_createdAt messageEvent);
     updatedAt := toISOString (ev_updatedAt messageEvent);
     editedAt := None;
     isDeleted := None;
     sender := ev_sender messageEvent |}.

(** The predicate of [findIndex]: an unconfirmed entry with the content
    and the sender of the new message. *)
Definition isOptimisticFor (newMessage msg : Message) : bool :=
  Js.startsWith "optimistic-" (id msg)
  && bool_decide (content msg = content newMessage)
  && bool_decide (sender_id (sender msg) = sender_id (sender newMessage)).

(** The updater passed to [setMessages]. *)
Definition handleNewMessage (messageEvent : MessageEvent)
    (prev : list Message) : list Message :=
  let newMessage := newMessageOf messageEvent in
  let exists_ := existsb (λ msg, bool_decide (id msg = id newMessage)) prev in
  if exists_ then prev else
  match list_find (λ msg, isOptimisticFor newMessage msg) prev with
  | Some (optimisticIndex, _) => <[optimisticIndex := newMessage]> prev
  | None => prev ++ [newMessage]
  end.

End Reconciliation.

Record MessageEditedEvent := mkMessageEditedEvent {
  edited_id : string;
  edited_content : string;
  edited_editedAt : string;
  edited_threadId : string }.

Record MessageDeletedEvent := mkMessageDeletedEvent {
  deleted_id : string;
  deleted_threadId : string }.

(** The updater of [handleMessageEdited]. *)
Definition handleMessageEdited (editEvent : MessageEditedEvent)
    (prev : list Message) : list Message :=
  (λ msg,
     if bool_decide (id msg = edited_id editEvent)
     then mkMessage (id msg) (edited_content editEvent) (createdAt msg)
            (updatedAt msg) (Some (edited_editedAt editEvent)) (isDeleted msg)
            (sender msg)
     else msg) <$> prev.

(** The updater of [handleMessageDeleted]. *)
Definition handleMessageDeleted (deleteEvent : MessageDeletedEvent)
    (prev : list Message) : list Message :=
  (λ msg,
     if bool_decide (id msg = deleted_id deleteEvent)
     then mkMessage (id msg) (content msg) (createdAt msg) (updatedAt msg)
            (editedAt msg) (Some true) (sender msg)
     else msg) <$> prev.

(** [handleSubmit]: the entry shown at once, under the identifier
    [`optimistic-${Date.now()}`] ([stamp] is the decimal of [Date.now()],
    [now] and [now'] the two later clock readings), and the two updaters,
    the one that shows it and the one that takes it back when the mutation
    fails. *)
Definition optimisticId (stamp : string) : string := "optimistic-" +:+ stamp.

Definition optimisticMessage (stamp now now' : string) (currentUser : Sender)
    (messageContent : string) : Message :=
  {| id := optimisticId stamp;
     content := messageContent;
     createdAt := now;
     updatedAt := now';
     editedAt := None;
     isDeleted := None;
     sender := mkSender (sender_id currentUser) (sender_username currentUser) |}.

Definition showOptimistic (optimisticMessage : Message) (prev : list Message)
    : list Message :=
  prev ++ [optimisticMessage].

Definition removeOptimistic (optimisticId : string) (prev : list Message)
    : list Message :=
  filter (λ msg, id msg ≠ optimisticId) prev.

End Client.

(** ** The thread list of the client *)

Module ThreadsClient.

Record Participant := mkParticipant {
  participant_id : string;
  participant_username : string }.

(** An entry of the cached thread list; the two dates are [Date] values. *)
Record ThreadData := mkThreadData {
  id : string;
  name : option string;
  createdAt : timestamp;
  lastMessageAt : timestamp;
  participants : list Participant }.

(** [existing.sort((a, b) => b.lastMessageAt.getTime() -
    a.lastMessageAt.getTime())]: the sort of arrays is stable, an entry
    stays before the later entries it ties with. *)
Fixpoint insertByLastMessageAt (a : ThreadData) (l : list ThreadData)
    : list ThreadData :=
  match l with
  | [] => [a]
  | b :: rest =>
      if bool_decide (lastMessageAt b - lastMessageAt a ≤ 0)%Z
      then a :: b :: rest
      else b :: insertByLastMessageAt a rest
  end.

Definition sortByLastMessageAt (l : list ThreadData) : list ThreadData :=
  foldr insertByLastMessageAt [] l.

(** The updater of [handleThreadCreated]; [prev] is [None] while the cache
    holds nothing. *)
Definition handleThreadCreated (normalizedThread : ThreadData)
    (prev : option (list ThreadData)) : list ThreadData :=
  let existing := default [] prev in
  let existing :=
    match list_find (λ thread, id thread = id normalizedThread) existing with
    | None => existing ++ [normalizedThread]
    | Some (existingIndex, _) => <[existingIndex := normalizedThread]> existing
    end in
  sortByLastMessageAt existing.

(** The cache update of the [onSuccess] of the create mutation. *)
Definition addCreatedThread (newThreadEntry : ThreadData)
    (prev : option (list ThreadData)) : list ThreadData :=
  match prev with
  | None => [newThreadEntry]
  | Some prev =>
      if existsb (λ thread, bool_decide (id thread = id newThreadEntry)) prev
      then prev
      else newThreadEntry :: prev
  end.

Inductive CheckedState := Checked | Unchecked | Indeterminate.

(** The updater of [setParticipantSelection]. *)
Definition setParticipantSelection (id : string) (checked : CheckedState)
    (prev : list string) : list string :=
  match checked with
  | Checked =>
      if bool_decide (id ∈ prev) then prev else prev ++ [id]
  | _ => filter (λ existingId, existingId ≠ id) prev
  end.

End ThreadsClient.

(** ** Paging through a thread

    The client starts without a cursor and calls [messages.list] again with
    each cursor it is handed, until it is handed none; pages come newest
    first and are put together oldest page first. [calls] bounds the number
    of calls. *)

Fixpoint fetchPages (calls : nat) (auth : option uuid) (threadId : uuid)
    (limit : nat) (cursor : option Messages.Cursor) (db : Db)
    : option (list (list Messages.MessageView)) :=
  match calls with
  | 0 => None
  | S calls' =>
      match result (Messages.list auth
                      (Messages.mkListInput threadId limit cursor)) db with
      | Ok page =>
          match Messages.nextCursor page with
          | None => Some [Messages.out_messages page]
          | Some c =>
              (Messages.out_messages page ::.)
                <$> fetchPages calls' auth threadId limit (Some c) db
          end
      | Throw _ => None
      end
  end.

Definition oldestFirst (pages : list (list Messages.MessageView))
    : list Messages.MessageView :=
  concat (reverse pages).

(** ** Vocabulary of the statements *)

Definition threadExists (db : Db) (threadId : uuid) : Prop :=
  threadId ∈ threads.id <$> tbl_threads db.

Definition userExists (db : Db) (userId : uuid) : Prop :=
  userId ∈ users.id <$> tbl_users db.

Definition isParticipant (db : Db) (threadId userId : uuid) : Prop :=
  (threadId, userId) ∈ Threads.participantKey <$> tbl_threadParticipants db.

Definition participantsOf (db : Db) (threadId : uuid) : list uuid :=
  threadParticipants.userId
    <$> filter (λ p, threadParticipants.threadId p = threadId)
          (tbl_threadParticipants db).

(** The constraints the schema declares, as far as the statements use them. *)
Definition pk_messages (db : Db) : Prop := NoDup (messages.id <$> tbl_messages db).
Definition pk_users (db : Db) : Prop := NoDup (users.id <$> tbl_users db).
Definition fk_message_sender (db : Db) : Prop :=
  ∀ m, m ∈ tbl_messages db → userExists db (messages.senderId m).
Definition fk_participant_thread (db : Db) : Prop :=
  ∀ p, p ∈ tbl_threadParticipants db →
       threadExists db (threadParticipants.threadId p).

Definition fails {A} (p : Proc A) (db : Db) (code : TRPCCode) : Prop :=
  result p db = Throw (TRPCError code).

Global Instance threadExists_dec db t : Decision (threadExists db t).
Proof. unfold threadExists. apply _. Defined.
Global Instance isParticipant_dec db t u : Decision (isParticipant db t u).
Proof. unfold isParticipant. apply _. Defined.
Global Instance userExists_dec db u : Decision (userExists db u).
Proof. unfold userExists. apply _. Defined.

(** Unfolding of one step of a procedure. *)
Ltac proc_unfold :=
  unfold fails, result, store, protectedProcedure, mbind, proc_bind, mret,
    proc_ret, query, throw, execute in *; simpl in *.

Definition outcome_map {A B} (f : A → B) (o : outcome A) : outcome B :=
  match o with
  | Ok a => Ok (f a)
  | Throw e => Throw e
  end.

(** The property claimed of a procedure [proc] whose input names a thread:
    on a thread that does not exist it fails with NOT_FOUND, whoever
    calls. *)
Definition reportsThreadGone {I O} (valid : I → bool) (threadOf : I → uuid)
    (proc : option uuid → I → Proc O) : Prop :=
  ∀ db caller input,
    valid input = true → ¬ threadExists db (threadOf input) →
    fails (proc (Some caller) input) db NOT_FOUND.

(** *** The order of the listing and the rows of a call *)

Definition key := (timestamp * uuid)%type.

(** [(createdAt, id)], compared on [createdAt] first. *)
Definition keyLt (a b : key) : Prop :=
  (a.1 < b.1)%Z ∨ (a.1 = b.1 ∧ (a.2 < b.2)%Z).

Definition rowKey (r : messages.row * users.row) : key :=
  (messages.createdAt r.1, messages.id r.1).

Definition viewKey (v : Messages.MessageView) : key :=
  (Messages.createdAt v, Messages.id v).

(** The key a cursor stands for in the query. *)
Definition cursorKey (c : Messages.Cursor) : key :=
  (ofDate (Messages.cursor_createdAt c), Messages.cursor_id c).

(** [x] is strictly newer than [y]. *)
Definition newer (x y : messages.row * users.row) : Prop :=
  keyLt (rowKey y) (rowKey x).

(** The joined rows that pass the where clause, in the order of the
    query, before the limit. *)
Definition selection (t : uuid) (cursor : option Messages.Cursor) (db : Db)
    : list (messages.row * users.row) :=
  merge_sort Messages.createdAtIdDesc
    (filter (λ r, Messages.whereClause t cursor r.1)
       (Messages.messagesJoinUsers db)).

(** The messages of a thread that are not deleted. *)
Definition liveMessages (db : Db) (t : uuid) : list messages.row :=
  filter (λ m, messages.threadId m = t ∧ messages.isDeleted m = false)
    (tbl_messages db).

Definition chronological (v w : Messages.MessageView) : Prop :=
  keyLt (viewKey v) (viewKey w).

(** What one call hands out besides the page: a cursor taken from the
    oldest row of the page when rows remain below it, and none when the
    page holds every row the call selects. *)
Definition cursorFaithful (db : Db) (t : uuid)
    (cursor : option Messages.Cursor) (out : Messages.ListOutput) : Prop :=
  match Messages.nextCursor out with
  | Some c =>
      (∃ v, head (Messages.out_messages out) = Some v
            ∧ c = Messages.cursorOf v)
      ∧ ∃ m, m ∈ tbl_messages db ∧ Messages.whereClause t (Some c) m = true
  | None =>
      ∀ m, m ∈ tbl_messages db → Messages.whereClause t cursor m = true →
           messages.id m ∈ Messages.id <$> Messages.out_messages out
  end.

(** The [Date]s tell the messages of the thread apart: a message of the
    thread that is not deleted and falls within one millisecond with
    another one was stored at the whole millisecond, so that its [Date] is
    its column. *)
Definition datesTellApart (db : Db) (t : uuid) : Prop :=
  ∀ m m', m ∈ liveMessages db t → m' ∈ liveMessages db t →
    messages.id m ≠ messages.id m' →
    toDate (messages.createdAt m) = toDate (messages.createdAt m') →
    ofDate (toDate (messages.createdAt m)) = messages.createdAt m.

(** *** Reconciliation *)

(** The placeholders of the list that match the event. *)
Definition placeholders (toISOString : string → string)
    (messageEvent : Client.MessageEvent) (l : list Client.Message)
    : list Client.Message :=
  filter (λ msg, Client.isOptimisticFor
                   (Client.newMessageOf toISOString messageEvent) msg) l.

Definition confirmed (messageEvent : Client.MessageEvent)
    (l : list Client.Message) : Prop :=
  ∃ x, x ∈ l ∧ Client.id x = Client.ev_id messageEvent.

(** The list holds the confirmed entry and a matching placeholder. *)
Definition holdsBoth (toISOString : string → string)
    (messageEvent : Client.MessageEvent) (l : list Client.Message) : Prop :=
  confirmed messageEvent l ∧ placeholders toISOString messageEvent l ≠ [].

(** *** Data of the examples *)

(** A store for the examples: users 1, 2 and 3, thread 10 with participants
    1 and 2, four messages of which one is deleted and two share their
    creation time. *)
Definition demoUser (i : uuid) (handle : string) : users.row :=
  users.mk i ("clerk_" +:+ handle) handle None None None 0 0.

Definition demoDb : Db :=
  {| tbl_users := [demoUser 1 "alice"; demoUser 2 "bobby"; demoUser 3 "charlie"];
     tbl_threads := [threads.mk 10 None 0 0 0];
     tbl_threadParticipants :=
       [threadParticipants.mk 10 1 0; threadParticipants.mk 10 2 0];
     tbl_messages :=
       [messages.mk 100 10 1 "hello" 5 5 None false;
        messages.mk 101 10 2 "hi" 5 5 None false;
        messages.mk 102 10 1 "oops" 6 7 None true;
        messages.mk 103 10 2 "bye" 8 8 None false] |}.

(** The store of the examples with its first two messages stored at one
    whole millisecond and the last one alone in its millisecond, and a
    store with one thread whose two messages were stored within one
    millisecond, 21 and 53 microseconds into it. *)
Definition demoDbMs : Db :=
  {| tbl_users := tbl_users demoDb;
     tbl_threads := tbl_threads demoDb;
     tbl_threadParticipants := tbl_threadParticipants demoDb;
     tbl_messages :=
       [messages.mk 100 10 1 "hello" 5000 5000 None false;
        messages.mk 101 10 2 "hi" 5000 5000 None false;
        messages.mk 102 10 1 "oops" 6000 7000 None true;
        messages.mk 103 10 2 "bye" 8021 8021 None false] |}.

Definition sameMillisecond : Db :=
  {| tbl_users := [demoUser 1 "alice"];
     tbl_threads := [threads.mk 10 None 0 0 0];
     tbl_threadParticipants := [threadParticipants.mk 10 1 0];
     tbl_messages :=
       [messages.mk 200 10 1 "first" 1700000000890021 1700000000890021
          None false;
        messages.mk 201 10 1 "second" 1700000000890053 1700000000890053
          None false] |}.

Definition demoSender : Client.Sender := Client.mkSender "u1" "alice".

Definition demoPlaceholder (n : string) : Client.Message :=
  Client.mkMessage ("optimistic-" +:+ n) "hi" "t0" "t0" None None demoSender.

Definition demoEvent : Client.MessageEvent :=
  Client.mkMessageEvent "m1" "hi" "t1" "t1" "thread" demoSender.

(** Identities for the examples: a provider username of three characters,
    and no provider username with a primary address of seventy characters. *)
Definition clerkBob : ClerkWebhooks.ClerkUser :=
  ClerkWebhooks.mkClerkUser "user_bob" (Some "bob") (Some "bob@example.com")
    (Some "Bob") (Some "Thompson").

Definition longAddress : string :=
  Js.str (replicate 58 "x"%char) +:+ "@example.com".

Definition clerkLong : ClerkWebhooks.ClerkUser :=
  ClerkWebhooks.mkClerkUser "user_long" None (Some longAddress)
    (Some "Long") (Some "Name").

Definition demoUUID : string := "3f2b8c1e-7a4d-4e9b-9c55-0d1e2f3a4b5c".

Definition longHandle : string := Js.str (replicate 64 "a"%char).

Definition longHandleEvent (clerkId : string)
    : ClerkWebhooks.ClerkUserWebhookEvent :=
  ClerkWebhooks.mkEvent clerkId (Some longHandle) None None None None.

(** *** Further vocabulary *)

Definition pk_threads (db : Db) : Prop := NoDup (threads.id <$> tbl_threads db).
Definition pk_participants (db : Db) : Prop :=
  NoDup (Threads.participantKey <$> tbl_threadParticipants db).
Definition fk_participant_user (db : Db) : Prop :=
  ∀ p, p ∈ tbl_threadParticipants db →
       userExists db (threadParticipants.userId p).
Definition unique_clerkUserId (db : Db) : Prop :=
  NoDup (users.clerkUserId <$> tbl_users db).
Definition unique_username (db : Db) : Prop :=
  NoDup (users.username <$> tbl_users db).

(** What no write of the messages router may do to a row: change its
    identifier, thread, sender or creation time, or clear its flag. *)
Definition keepsHistory (old new : messages.row) : Prop :=
  messages.id new = messages.id old
  ∧ messages.threadId new = messages.threadId old
  ∧ messages.senderId new = messages.senderId old
  ∧ messages.createdAt new = messages.createdAt old
  ∧ (messages.isDeleted old = true → messages.isDeleted new = true).

(** The unique constraints of the users table. *)
Definition usersIntegrity (db : Db) : Prop :=
  pk_users db ∧ unique_clerkUserId db ∧ unique_username db.

(** The columns of a user row that only its creation sets. *)
Definition identity (u : users.row) : uuid * string * string * timestamp :=
  (users.id u, users.clerkUserId u, users.username u, users.createdAt u).

(** A caller known to the identity provider and not yet to the store. *)
Definition clerkDora : ClerkWebhooks.ClerkUser :=
  ClerkWebhooks.mkClerkUser "clerk_dora" (Some "dora") (Some "dora@example.com")
    (Some "Dora") (Some "Marsh").

Definition clerkDirectory (clerkUserId : string)
    : option ClerkWebhooks.ClerkUser :=
  if bool_decide (clerkUserId = "clerk_dora") then Some clerkDora
  else if bool_decide (clerkUserId = "clerk_alice")
  then Some (ClerkWebhooks.mkClerkUser "clerk_alice" (Some "alice")
               (Some "alice@example.com") (Some "Alice") None)
  else None.

(** The shapes a call of [resolveUser] can take. *)
Inductive resolved (clerkUserId : string) (db : Db)
    : Db → outcome (option uuid) → Prop :=
  | resolved_known u :
      head (Trpc.selectByClerkUserId clerkUserId db) = Some u →
      resolved clerkUserId db db (Ok (Some (users.id u)))
  | resolved_unknown :
      head (Trpc.selectByClerkUserId clerkUserId db) = None →
      resolved clerkUserId db db (Ok None)
  | resolved_synced u now primaryEmail firstName lastName :
      head (Trpc.selectByClerkUserId clerkUserId db) = Some u →
      resolved clerkUserId db
        (Trpc.updateProfile (users.id u) now primaryEmail firstName lastName db)
        (Ok (Some (users.id u)))
  | resolved_created newId now v :
      head (Trpc.selectByClerkUserId clerkUserId db) = None →
      UsersTable.v_clerkUserId v = clerkUserId →
      newId ∉ users.id <$> tbl_users db →
      clerkUserId ∉ users.clerkUserId <$> tbl_users db →
      UsersTable.v_username v ∉ users.username <$> tbl_users db →
      resolved clerkUserId db
        (UsersTable.withUsers (tbl_users db ++
           [users.mk newId clerkUserId (UsersTable.v_username v)
              (UsersTable.v_primaryEmail v) (UsersTable.v_firstName v)
              (UsersTable.v_lastName v) now now]) db)
        (Ok (Some newId))
  | resolved_conflict e :
      head (Trpc.selectByClerkUserId clerkUserId db) = None →
      resolved clerkUserId db db (Throw e).

(** The columns of a user row that no later write to the row changes:
    references to the user and the age of the account rest on them. *)
Definition stable (u : users.row) : uuid * string * timestamp :=
  (users.id u, users.clerkUserId u, users.createdAt u).

(** What a write for the identity [clerkUserId] may do to the store: only
    the rows of that identity change or appear, no row moves or goes, and
    the unique constraints hold afterwards. *)
Definition upserts (clerkUserId : string) (db db' : Db) : Prop :=
  usersIntegrity db'
  ∧ (stable <$> tbl_users db) `prefix_of` (stable <$> tbl_users db')
  ∧ filter (λ u, users.clerkUserId u ≠ clerkUserId) (tbl_users db')
    = filter (λ u, users.clerkUserId u ≠ clerkUserId) (tbl_users db)
  ∧ tbl_threads db' = tbl_threads db
  ∧ tbl_threadParticipants db' = tbl_threadParticipants db
  ∧ tbl_messages db' = tbl_messages db.

(** An event for the identity of the store's second user that asks for the
    handle of the first. *)
Definition renameEvent : ClerkWebhooks.ClerkUserWebhookEvent :=
  ClerkWebhooks.mkEvent "clerk_bobby" (Some "alice") None None None None.

Definition demoRandomUUID (i : nat) : string := demoUUID.

(** The event that reports the store's first user deleted. *)
Definition aliceGone : ClerkWebhooks.ClerkUserWebhookEvent :=
  ClerkWebhooks.mkEvent "clerk_alice" None None None None None.

(** A signature check that accepts the body [signed] and reads it as a
    deletion of the store's first user, and the environment of the
    examples. *)
Definition demoVerify (body svixId svixTimestamp svixSignature : string)
    : option (string * ClerkWebhooks.ClerkUserWebhookEvent) :=
  if bool_decide (body = "signed") then Some ("user.deleted", aliceGone)
  else None.

Definition demoEnvironment : ClerkWebhooks.Environment :=
  ClerkWebhooks.mkEnvironment clerkDirectory demoRandomUUID 4 5 9 9.

(** A handle as [normaliseUsername] produces them from a username: 4 to 64
    characters of [a-z0-9_-], no dash at either end and no two dashes in a
    row. *)
Definition handle (l : list ascii) : Prop :=
  Forall (λ c, ClerkWebhooks.usernameChar c = true) l
  ∧ head l ≠ Some "-"%char ∧ last l ≠ Some "-"%char
  ∧ (∀ i, l !! i = Some "-"%char → l !! S i ≠ Some "-"%char)
  ∧ 4 ≤ length l ≤ 64.

(** An event with a mixed-case username and an identifier of its own. *)
Definition mixedCaseEvent : ClerkWebhooks.ClerkUserWebhookEvent :=
  ClerkWebhooks.mkEvent "user_2ABC" (Some "Ann--Lee!") None None None None.

Definition handleEvent : ClerkWebhooks.ClerkUserWebhookEvent :=
  ClerkWebhooks.mkEvent "user_2ABC" (Some "ann-lee_7") None None None None.

(** A local list for the examples: two confirmed messages. *)
Definition demoMessages : list Client.Message :=
  [Client.mkMessage "m1" "hi" "t1" "t1" None None demoSender;
   Client.mkMessage "m2" "there" "t2" "t2" None None demoSender].

(** The order of the cached thread list: latest activity first. *)
Definition latestFirst (a b : ThreadsClient.ThreadData) : Prop :=
  (ThreadsClient.lastMessageAt b ≤ ThreadsClient.lastMessageAt a)%Z.

(** A cached list for the examples, and a thread that arrives. *)
Definition demoThreads : list ThreadsClient.ThreadData :=
  [ThreadsClient.mkThreadData "t1" None 0 30 [];
   ThreadsClient.mkThreadData "t2" (Some "team") 0 20 [];
   ThreadsClient.mkThreadData "t3" None 0 10 []].

Definition demoThread : ThreadsClient.ThreadData :=
  ThreadsClient.mkThreadData "t3" None 0 25 [].

(** A request that is turned away: the store is the one it came to. *)
Ltac POST_refused :=
  cbn [fst snd];
  split; [intros [Hchanged|Hreceived];
            [by destruct Hchanged|discriminate Hreceived]
         |split; [by intros|by intros]].

(** ** Guards: thread existence and participation *)

Lemma isEmpty_take_filter {A} (P : A → Prop) `{∀ x, Decision (P x)} (l : list A) :
  isEmpty (take 1 (filter P l)) = true ↔ ∀ x, x ∈ l → ¬ P x.
Proof.
  split.
  - intros He x Hx HP.
    assert (x ∈ filter P l) as Hin by (apply list_elem_of_filter; done).
    destruct (filter P l); [by apply not_elem_of_nil in Hin | done].
  - intros Hall. destruct (filter P l) as [|y l'] eqn:E; [done|].
    assert (y ∈ filter P l) as Hin by (rewrite E; left).
    apply list_elem_of_filter in Hin as [HP Hy]. by destruct (Hall y Hy).
Qed.

Lemma selectThread_empty db t :
  isEmpty (selectThread t db) = true ↔ ¬ threadExists db t.
Proof.
  unfold selectThread, threadExists. rewrite isEmpty_take_filter.
  rewrite list_elem_of_fmap. split.
  - intros Hall (x & Hx & Hin). by apply (Hall x Hin).
  - intros Hno x Hin Hx. apply Hno. by exists x.
Qed.

Lemma selectParticipation_empty db t u :
  isEmpty (selectParticipation t u db) = true ↔ ¬ isParticipant db t u.
Proof.
  unfold selectParticipation, isParticipant. rewrite isEmpty_take_filter.
  rewrite list_elem_of_fmap. unfold Threads.participantKey. split.
  - intros Hall (p & Hp & Hin). apply (Hall p Hin). by simplify_eq.
  - intros Hno p Hin [H1 H2]. apply Hno. exists p. by rewrite H1, H2.
Qed.

Lemma selectThread_nonempty db t :
  threadExists db t → isEmpty (selectThread t db) = false.
Proof.
  intros H. destruct (isEmpty _) eqn:E; [|done].
  by apply selectThread_empty in E.
Qed.

Lemma selectParticipation_nonempty db t u :
  isParticipant db t u → isEmpty (selectParticipation t u db) = false.
Proof.
  intros H. destruct (isEmpty _) eqn:E; [|done].
  by apply selectParticipation_empty in E.
Qed.

Ltac guard_thread_gone H :=
  proc_unfold; apply selectThread_empty in H; rewrite ?H; simpl; try done.

Ltac guard_not_participant Ht Hp :=
  proc_unfold; apply selectThread_nonempty in Ht;
  apply selectParticipation_empty in Hp; rewrite ?Ht, ?Hp; simpl; try done.

(** *** Order of the two guards *)

Lemma list_reportsThreadGone :
  reportsThreadGone Messages.listSchema Messages.list_threadId Messages.list.
Proof.
  intros db caller input Hv Hgone. unfold Messages.list, Messages.listHandler.
  proc_unfold. rewrite Hv. by guard_thread_gone Hgone.
Qed.

Lemma send_reportsThreadGone faults newId now now' :
  reportsThreadGone Messages.sendSchema Messages.send_threadId
    (Messages.send faults newId now now').
Proof.
  intros db caller input Hv Hgone. unfold Messages.send, Messages.sendHandler.
  proc_unfold. rewrite Hv. by guard_thread_gone Hgone.
Qed.

Lemma getLatest_reportsThreadGone :
  reportsThreadGone Messages.latestSchema Messages.latest_threadId
    Messages.getLatest.
Proof.
  intros db caller input Hv Hgone.
  unfold Messages.getLatest, Messages.getLatestHandler.
  proc_unfold. rewrite Hv. by guard_thread_gone Hgone.
Qed.

Lemma selectThread_head db t :
  threadExists db t →
  ∃ th, head (selectThread t db) = Some th ∧ th ∈ tbl_threads db
        ∧ threads.id th = t.
Proof.
  intros Ht. unfold selectThread.
  destruct (filter (λ th, threads.id th = t) (tbl_threads db)) as [|th l] eqn:E.
  - apply selectThread_nonempty in Ht. unfold selectThread in Ht.
    by rewrite E in Ht.
  - exists th. split; [done|].
    assert (th ∈ filter (λ th, threads.id th = t) (tbl_threads db)) as Hin
      by (rewrite E; left).
    apply list_elem_of_filter in Hin as [? ?]. done.
Qed.

(** [threads.getById] asks for the participant row first. *)
Lemma getById_outcome db caller t :
  (¬ isParticipant db t caller →
     fails (Threads.getById (Some caller) t) db FORBIDDEN)
  ∧ (isParticipant db t caller → ¬ threadExists db t →
     fails (Threads.getById (Some caller) t) db NOT_FOUND).
Proof.
  unfold Threads.getById, Threads.getByIdHandler. split.
  - intros Hp. proc_unfold. apply selectParticipation_empty in Hp.
    by rewrite Hp.
  - intros Hp Ht. proc_unfold. apply selectParticipation_nonempty in Hp.
    rewrite Hp. apply selectThread_empty in Ht.
    by destruct (selectThread t db).
Qed.

(** [threads.addParticipant] never looks the thread up. *)
Lemma addParticipant_not_participant db now caller input :
  ¬ isParticipant db (Threads.add_threadId input) caller →
  fails (Threads.addParticipant now (Some caller) input) db FORBIDDEN.
Proof.
  intros Hp. unfold Threads.addParticipant, Threads.addParticipantHandler.
  proc_unfold. apply selectParticipation_empty in Hp. by rewrite Hp.
Qed.

(** With the foreign key of participant rows in force, nobody participates
    in a thread that does not exist. *)
Lemma no_participant_of_missing_thread db t u :
  fk_participant_thread db → ¬ threadExists db t → ¬ isParticipant db t u.
Proof.
  intros Hfk Hgone Hp. apply Hgone. unfold isParticipant in Hp.
  apply list_elem_of_fmap in Hp as (p & Hk & Hin).
  unfold Threads.participantKey in Hk. simplify_eq. by apply Hfk.
Qed.

(** With that foreign key in force the NOT_FOUND of [threads.getById] is
    out of reach: whoever passes its participation check names a thread
    that exists. *)
Lemma getById_not_found_unreachable db auth t :
  fk_participant_thread db → ¬ fails (Threads.getById auth t) db NOT_FOUND.
Proof.
  intros Hfk. destruct auth as [caller|]; [|by intros [=]].
  destruct (decide (isParticipant db t caller)) as [Hp|Hp].
  - assert (threadExists db t) as Ht.
    { destruct (decide (threadExists db t)) as [Ht|Ht]; [done|].
      by destruct (no_participant_of_missing_thread db t caller Hfk Ht). }
    destruct (selectThread_head db t Ht) as (th & Hhead & _).
    unfold fails, Threads.getById, protectedProcedure, Threads.getByIdHandler,
      result, mbind, proc_bind, query, throw, mret, proc_ret.
    rewrite (selectParticipation_nonempty _ _ _ Hp). by rewrite Hhead.
  - unfold fails. rewrite (proj1 (getById_outcome db caller t) Hp).
    by intros [=].
Qed.

(** On a store without any thread, [threads.getById] and
    [threads.addParticipant] answer a caller with FORBIDDEN and not with
    NOT_FOUND. *)
Lemma getById_missing_thread_forbidden :
  ¬ threadExists (mkDb [] [] [] []) 10
  ∧ fails (Threads.getById (Some 1%Z) 10%Z) (mkDb [] [] [] []) FORBIDDEN
  ∧ ¬ fails (Threads.getById (Some 1%Z) 10%Z) (mkDb [] [] [] []) NOT_FOUND
  ∧ fails (Threads.addParticipant 0 (Some 1%Z)
             (Threads.mkAddParticipantInput 10 2)) (mkDb [] [] [] []) FORBIDDEN
  ∧ ¬ fails (Threads.addParticipant 0 (Some 1%Z)
               (Threads.mkAddParticipantInput 10 2)) (mkDb [] [] [] []) NOT_FOUND.
Proof.
  split; [apply not_elem_of_nil|].
  repeat split; try done; by intros [=].
Qed.

(** C2: on a thread that does not exist, [messages.list], [messages.send]
    and [messages.getLatest] fail with NOT_FOUND for every caller, the
    existence check coming before the participation check, as the claim
    states. [threads.getById] and [threads.addParticipant] do not: they
    check participation first, so there a caller without a participant row
    receives FORBIDDEN, and that is every caller when participant rows
    reference existing threads. [threads.getById] does hold the existence
    check and its NOT_FOUND, behind the participation check, where no
    call reaches it; [threads.addParticipant] holds none. *)
Theorem thread_gone_guard_order db caller t
    (Hfk : fk_participant_thread db) (Hgone : ¬ threadExists db t) :
  (∀ limit cursor,
     Messages.listSchema (Messages.mkListInput t limit cursor) = true →
     fails (Messages.list (Some caller) (Messages.mkListInput t limit cursor))
       db NOT_FOUND)
  ∧ (∀ faults newId now now' content,
       Messages.sendSchema (Messages.mkSendInput t content) = true →
       fails (Messages.send faults newId now now' (Some caller)
                (Messages.mkSendInput t content)) db NOT_FOUND)
  ∧ (∀ limit, Messages.latestSchema (Messages.mkLatestInput t limit) = true →
       fails (Messages.getLatest (Some caller) (Messages.mkLatestInput t limit))
         db NOT_FOUND)
  ∧ fails (Threads.getById (Some caller) t) db FORBIDDEN
  ∧ (∀ now userId,
       fails (Threads.addParticipant now (Some caller)
                (Threads.mkAddParticipantInput t userId)) db FORBIDDEN)
  ∧ (∀ auth t', ¬ fails (Threads.getById auth t') db NOT_FOUND).
Proof.
  pose proof (no_participant_of_missing_thread db t caller Hfk Hgone) as Hnp.
  split; [|split; [|split; [|split; [|split]]]].
  - intros limit cursor Hv. by apply list_reportsThreadGone.
  - intros faults newId now now' content Hv. by apply send_reportsThreadGone.
  - intros limit Hv. by apply getLatest_reportsThreadGone.
  - by apply getById_outcome.
  - intros now userId. by apply addParticipant_not_participant.
  - intros auth t'. by apply getById_not_found_unreachable.
Qed.

Lemma thread_gone_guard_order_witness :
  fk_participant_thread demoDb ∧ ¬ threadExists demoDb 11
  ∧ fails (Messages.list (Some 3%Z) (Messages.mkListInput 11 50 None))
      demoDb NOT_FOUND
  ∧ fails (Threads.getById (Some 3%Z) 11%Z) demoDb FORBIDDEN.
Proof.
  assert (fk_participant_thread demoDb) as Hfk.
  { intros p Hp. unfold threadExists.
    repeat (apply elem_of_cons in Hp as [->|Hp]); [by vm_compute; left..|].
    by apply not_elem_of_nil in Hp. }
  assert (¬ threadExists demoDb 11) as Hgone.
  { unfold threadExists. simpl. intros H.
    apply list_elem_of_singleton in H. discriminate H. }
  destruct (thread_gone_guard_order demoDb 3%Z 11%Z Hfk Hgone)
    as (Hl & _ & _ & Hg & _ & _).
  split; [done|]. split; [done|]. split; [|done].
  by apply Hl.
Defined.

(** *** Participation and ownership *)

Lemma filter_unique_key {A K} `{EqDecision K} (f : A → K) (l : list A) x :
  NoDup (f <$> l) → x ∈ l → filter (λ y, f y = f x) l = [x].
Proof.
  induction l as [|a l IH]; intros Hnd Hin; [by apply elem_of_nil in Hin|].
  rewrite fmap_cons in Hnd. apply NoDup_cons in Hnd as [Ha Hnd].
  rewrite filter_cons. apply elem_of_cons in Hin as [->|Hin].
  - rewrite decide_True by done. f_equal.
    destruct (filter (λ y, f y = f a) l) as [|b l'] eqn:E; [done|].
    assert (b ∈ filter (λ y, f y = f a) l) as Hb by (rewrite E; left).
    apply list_elem_of_filter in Hb as [Hfb Hb].
    destruct Ha. rewrite <- Hfb. by apply list_elem_of_fmap_2.
  - rewrite decide_False; [by apply IH|].
    intros Heq. destruct Ha. rewrite Heq. by apply list_elem_of_fmap_2.
Qed.

Lemma selectMessage_pk db m :
  pk_messages db → m ∈ tbl_messages db →
  Messages.selectMessage (messages.id m) db = [m].
Proof.
  intros Hpk Hin. unfold Messages.selectMessage.
  by rewrite (filter_unique_key messages.id _ m Hpk Hin).
Qed.

Lemma edit_not_owner db now now' caller m content :
  pk_messages db → m ∈ tbl_messages db → messages.senderId m ≠ caller →
  Messages.editSchema (Messages.mkEditInput (messages.id m) content) = true →
  let call := Messages.edit now now' (Some caller)
                (Messages.mkEditInput (messages.id m) content) in
  fails call db FORBIDDEN ∧ store call db = db.
Proof.
  intros Hpk Hin Hne Hv. unfold Messages.edit, Messages.editHandler.
  proc_unfold. rewrite Hv. simpl. rewrite (selectMessage_pk db m Hpk Hin).
  simpl. by rewrite bool_decide_eq_true_2.
Qed.

Lemma delete_not_owner db now caller m :
  pk_messages db → m ∈ tbl_messages db → messages.senderId m ≠ caller →
  let call := Messages.delete now (Some caller) (messages.id m) in
  fails call db FORBIDDEN ∧ store call db = db.
Proof.
  intros Hpk Hin Hne. unfold Messages.delete, Messages.deleteHandler.
  proc_unfold. rewrite (selectMessage_pk db m Hpk Hin).
  simpl. by rewrite bool_decide_eq_true_2.
Qed.

Lemma send_not_participant db faults newId now now' caller t content :
  threadExists db t → ¬ isParticipant db t caller →
  Messages.sendSchema (Messages.mkSendInput t content) = true →
  let call := Messages.send faults newId now now' (Some caller)
                (Messages.mkSendInput t content) in
  fails call db FORBIDDEN ∧ store call db = db.
Proof.
  intros Ht Hp Hv. unfold Messages.send, Messages.sendHandler.
  proc_unfold. rewrite Hv. by guard_not_participant Ht Hp.
Qed.

(** C4: on an existing thread a caller without a participant row receives
    FORBIDDEN from [messages.list], [messages.send] and
    [messages.getLatest]; on an existing message that is not deleted, a
    caller who is not its sender receives FORBIDDEN from [messages.edit] and
    [messages.delete], whatever the caller's participation, and the store is
    left as it was. *)
Theorem forbidden_without_participation_or_ownership db caller :
  (∀ t, threadExists db t → ¬ isParticipant db t caller →
     (∀ limit cursor,
        Messages.listSchema (Messages.mkListInput t limit cursor) = true →
        fails (Messages.list (Some caller) (Messages.mkListInput t limit cursor))
          db FORBIDDEN)
     ∧ (∀ faults newId now now' content,
          Messages.sendSchema (Messages.mkSendInput t content) = true →
          let call := Messages.send faults newId now now' (Some caller)
                        (Messages.mkSendInput t content) in
          fails call db FORBIDDEN ∧ store call db = db)
     ∧ (∀ limit,
          Messages.latestSchema (Messages.mkLatestInput t limit) = true →
          fails (Messages.getLatest (Some caller) (Messages.mkLatestInput t limit))
            db FORBIDDEN))
  ∧ (pk_messages db →
     ∀ m, m ∈ tbl_messages db → messages.isDeleted m = false →
          messages.senderId m ≠ caller →
       (∀ now now' content,
          Messages.editSchema (Messages.mkEditInput (messages.id m) content) = true →
          let call := Messages.edit now now' (Some caller)
                        (Messages.mkEditInput (messages.id m) content) in
          fails call db FORBIDDEN ∧ store call db = db)
       ∧ (∀ now,
            let call := Messages.delete now (Some caller) (messages.id m) in
            fails call db FORBIDDEN ∧ store call db = db)).
Proof.
  split.
  - intros t Ht Hp. split; [|split].
    + intros limit cursor Hv. unfold Messages.list, Messages.listHandler.
      proc_unfold. rewrite Hv. by guard_not_participant Ht Hp.
    + intros faults newId now now' content Hv. by apply send_not_participant.
    + intros limit Hv. unfold Messages.getLatest, Messages.getLatestHandler.
      proc_unfold. rewrite Hv. by guard_not_participant Ht Hp.
  - intros Hpk m Hin _ Hne. split.
    + intros now now' content Hv. by apply edit_not_owner.
    + intros now. by apply delete_not_owner.
Qed.

Lemma demoDb_pk_messages : pk_messages demoDb.
Proof.
  apply (bool_decide_unpack (NoDup (messages.id <$> tbl_messages demoDb))).
  by vm_compute.
Qed.

Lemma forbidden_without_participation_or_ownership_witness :
  fails (Messages.list (Some 3%Z) (Messages.mkListInput 10 50 None))
    demoDb FORBIDDEN
  ∧ fails (Messages.delete 9 (Some 2%Z) 100%Z) demoDb FORBIDDEN.
Proof.
  destruct (forbidden_without_participation_or_ownership demoDb 3%Z)
    as [Hthread _].
  destruct (forbidden_without_participation_or_ownership demoDb 2%Z)
    as [_ Hmessage].
  split.
  - refine (proj1 (Hthread 10%Z _ _) 50%nat None eq_refl).
    + unfold threadExists. simpl. by left.
    + apply (bool_decide_unpack (¬ isParticipant demoDb 10 3)). by vm_compute.
  - refine (proj1 (proj2 (Hmessage demoDb_pk_messages
                            (messages.mk 100 10 1 "hello" 5 5 None false)
                            _ eq_refl _) 9%Z)).
    + simpl. by left.
    + simpl. lia.
Defined.

(** *** Soft delete *)

Lemma updateMessages_content db messageId now :
  messages.content <$> tbl_messages
      (Messages.updateMessages messageId (Messages.setDeleted now) db)
  = messages.content <$> tbl_messages db.
Proof.
  simpl. rewrite <- list_fmap_compose. apply list_fmap_ext.
  intros i x _. simpl. by case_bool_decide.
Qed.

Lemma updateMessages_pk db messageId set :
  (∀ m, messages.id (set m) = messages.id m) →
  pk_messages db → pk_messages (Messages.updateMessages messageId set db).
Proof.
  intros Hid Hpk. unfold pk_messages in *. simpl.
  rewrite <- list_fmap_compose.
  erewrite list_fmap_ext; [exact Hpk|].
  intros i x _. simpl. case_bool_decide; [apply Hid|done].
Qed.

Lemma updateMessages_elem db messageId set m :
  m ∈ tbl_messages db → messages.id m = messageId →
  set m ∈ tbl_messages (Messages.updateMessages messageId set db).
Proof.
  intros Hin Hid. simpl. apply list_elem_of_fmap.
  exists m. by rewrite bool_decide_eq_true_2.
Qed.

(** C7: the sender deletes a message twice. The first call succeeds and
    leaves the row flagged, with [updatedAt] set to the time of the call;
    the second fails with BAD_REQUEST and writes nothing; the content of no
    message changes. *)
Theorem delete_twice db caller m now now'
    (Hpk : pk_messages db) (Hin : m ∈ tbl_messages db)
    (Hown : messages.senderId m = caller)
    (Hlive : messages.isDeleted m = false) :
  let first := Messages.delete now (Some caller) (messages.id m) in
  let db1 := store first db in
  let second := Messages.delete now' (Some caller) (messages.id m) in
  result first db = Ok true
  ∧ (∃ m1, Messages.selectMessage (messages.id m) db1 = [m1]
           ∧ messages.isDeleted m1 = true
           ∧ messages.updatedAt m1 = now
           ∧ messages.content m1 = messages.content m)
  ∧ fails second db1 BAD_REQUEST
  ∧ store second db1 = db1
  ∧ messages.content <$> tbl_messages db1 = messages.content <$> tbl_messages db.
Proof.
  intros first db1 second.
  assert (first db = (Messages.updateMessages (messages.id m)
                        (Messages.setDeleted now) db, Ok true)) as Hfirst.
  { unfold first, Messages.delete, Messages.deleteHandler. proc_unfold.
    rewrite (selectMessage_pk db m Hpk Hin). simpl.
    rewrite bool_decide_eq_false_2 by (intros Hne; by apply Hne).
    by rewrite Hlive. }
  assert (db1 = Messages.updateMessages (messages.id m)
                  (Messages.setDeleted now) db) as Hdb1.
  { unfold db1, store. by rewrite Hfirst. }
  assert (Messages.selectMessage (messages.id m) db1
          = [Messages.setDeleted now m]) as Hsel.
  { rewrite Hdb1.
    apply (selectMessage_pk _ (Messages.setDeleted now m)).
    - by apply updateMessages_pk.
    - by apply updateMessages_elem. }
  split; [unfold result; by rewrite Hfirst|].
  split; [by exists (Messages.setDeleted now m)|].
  assert (second db1 = (db1, Throw (TRPCError BAD_REQUEST))) as Hsecond.
  { unfold second, Messages.delete, Messages.deleteHandler. proc_unfold.
    simpl in Hsel. rewrite Hsel. simpl.
    by rewrite bool_decide_eq_false_2 by (intros Hne; by apply Hne). }
  split; [unfold fails, result; by rewrite Hsecond|].
  split; [unfold store; by rewrite Hsecond|].
  rewrite Hdb1. apply updateMessages_content.
Qed.

Lemma delete_twice_witness :
  result (Messages.delete 9 (Some 1%Z) 100%Z) demoDb = Ok true
  ∧ fails (Messages.delete 12 (Some 1%Z) 100%Z)
      (store (Messages.delete 9 (Some 1%Z) 100%Z) demoDb) BAD_REQUEST.
Proof.
  assert (messages.mk 100 10 1 "hello" 5 5 None false ∈ tbl_messages demoDb)
    as Hin by (simpl; left).
  destruct (delete_twice demoDb 1%Z _ 9%Z 12%Z demoDb_pk_messages Hin
              eq_refl eq_refl) as (H1 & _ & H2 & _).
  split; [exact H1 | exact H2].
Defined.

(** *** What the message queries return *)

Lemma messagesJoinUsers_elem db m u :
  (m, u) ∈ Messages.messagesJoinUsers db
  ↔ m ∈ tbl_messages db ∧ u ∈ tbl_users db ∧ users.id u = messages.senderId m.
Proof.
  unfold Messages.messagesJoinUsers. rewrite list_elem_of_bind. split.
  - intros (m' & Hmu & Hm'). apply list_elem_of_bind in Hmu as (u' & Hmu & Hu').
    apply list_elem_of_singleton in Hmu. simplify_eq.
    apply list_elem_of_filter in Hu' as [Hid Hu']. done.
  - intros (Hm & Hu & Hid). exists m. split; [|done].
    apply list_elem_of_bind. exists u. split; [by apply list_elem_of_singleton|].
    by apply list_elem_of_filter.
Qed.

Lemma selectMessages_elem db t cursor n v :
  v ∈ Messages.selectMessages t cursor n db →
  ∃ m u, v = Messages.select (m, u) ∧ m ∈ tbl_messages db
         ∧ Messages.whereClause t cursor m = true.
Proof.
  unfold Messages.selectMessages. intros Hv.
  apply list_elem_of_fmap in Hv as ([m u] & -> & Hin).
  apply elem_of_take in Hin as (i & Hi & _).
  apply list_elem_of_lookup_2 in Hi. rewrite merge_sort_Permutation in Hi.
  apply list_elem_of_filter in Hi as [Hw Hj].
  apply messagesJoinUsers_elem in Hj as (Hm & _ & _).
  exists m, u. split; [done|]. split; [done|]. by apply Is_true_true.
Qed.

Lemma whereClause_base t cursor m :
  Messages.whereClause t cursor m = true →
  messages.threadId m = t ∧ messages.isDeleted m = false.
Proof.
  unfold Messages.whereClause, Messages.baseCondition.
  destruct cursor; intros H; repeat (apply andb_true_iff in H as [H ?]);
    try apply andb_true_iff in H as [H ?];
    repeat match goal with
           | X : bool_decide _ = true |- _ => apply bool_decide_eq_true in X
           end; done.
Qed.

(** The page [messages.list] hands out is the first [limit] rows of the
    ordered selection, oldest first. *)
Lemma trimmed_take {A} (l : list A) limit :
  (if bool_decide (limit < length (take (limit + 1) l))
   then take (length (take (limit + 1) l) - 1) (take (limit + 1) l)
   else take (limit + 1) l) = take limit l.
Proof.
  rewrite length_take. case_bool_decide as Hlt.
  - rewrite take_take. f_equal. lia.
  - rewrite !take_ge; [done|lia..].
Qed.

Lemma selectMessages_take db t cursor n :
  Messages.selectMessages t cursor n db
  = take n (Messages.selectMessages t cursor
              (length (Messages.messagesJoinUsers db)) db).
Proof.
  unfold Messages.selectMessages. rewrite <- fmap_take, take_take.
  destruct (decide (n ≤ length (Messages.messagesJoinUsers db))) as [Hle|Hgt].
  - by rewrite Nat.min_l.
  - rewrite Nat.min_r by lia. f_equal.
    set (S := merge_sort _ _).
    assert (length S ≤ length (Messages.messagesJoinUsers db)) as Hlen.
    { unfold S. rewrite merge_sort_Permutation. apply length_filter. }
    rewrite !take_ge; [done|lia..].
Qed.

(** *** Numbers of the input *)

Lemma Qle_bool_nat (m n : nat) :
  QArith_base.Qle_bool (inject_nat m) (inject_nat n) = bool_decide (m ≤ n).
Proof.
  unfold QArith_base.Qle_bool, inject_nat. cbn.
  rewrite !Z.mul_1_r. case_bool_decide.
  - apply Z.leb_le. lia.
  - apply Z.leb_gt. lia.
Qed.

Lemma integral_nat (n : nat) : integral (inject_nat n) = Some (Z.of_nat n).
Proof.
  unfold integral, inject_nat. cbn. by rewrite Z.mod_1_r, Z.div_1_r.
Qed.

Lemma integral_succ (n : nat) :
  integral (QArith_base.Qplus (inject_nat n) (inject_nat 1))
  = Some (Z.of_nat (n + 1)).
Proof.
  unfold integral, inject_nat. cbn.
  rewrite Z.mod_1_r, Z.div_1_r. cbn. f_equal. lia.
Qed.

Lemma exceeds_nat (m n : nat) :
  Messages.exceeds m (inject_nat n) = bool_decide (n < m).
Proof.
  unfold Messages.exceeds. rewrite Qle_bool_nat.
  do 2 case_bool_decide; try done; lia.
Qed.

Lemma listSchema_nat t (n : nat) cursor :
  Messages.listSchema (Messages.mkListInput t n cursor)
  = bool_decide (1 ≤ n ≤ 100).
Proof.
  unfold Messages.listSchema. cbn [Messages.list_limit].
  rewrite !Qle_bool_nat. repeat case_bool_decide; try done; lia.
Qed.

(** A number of at least 1 whose successor the database takes as a count
    of rows is a natural number. *)
Lemma integral_whole (limit : number) k :
  QArith_base.Qle_bool (inject_nat 1) limit = true →
  integral (QArith_base.Qplus limit (inject_nat 1)) = Some k →
  ∃ n : nat, 1 ≤ n ∧ k = Z.of_nat (n + 1)
    ∧ (∀ m, Messages.exceeds m limit = Messages.exceeds m (inject_nat n))
    ∧ QArith_base.Qle_bool limit (inject_nat 100)
      = QArith_base.Qle_bool (inject_nat n) (inject_nat 100).
Proof.
  destruct limit as [a b].
  unfold integral, Messages.exceeds, QArith_base.Qle_bool, QArith_base.Qplus,
    inject_nat, QArith_base.inject_Z.
  cbn [QArith_base.Qnum QArith_base.Qden].
  change (Z.of_nat 1) with 1%Z. rewrite !Z.mul_1_l, !Z.mul_1_r, Pos.mul_1_r.
  intros Hone%Z.leb_le. destruct (_ =? 0)%Z eqn:Hmod; [|done].
  intros [= <-]. apply Z.eqb_eq in Hmod.
  assert (a `mod` Z.pos b = 0)%Z as Ha.
  { replace (a + Z.pos b)%Z with (a + 1 * Z.pos b)%Z in Hmod by lia.
    by rewrite Z.mod_add in Hmod by lia. }
  assert ((a + Z.pos b) `div` Z.pos b = a `div` Z.pos b + 1)%Z as ->.
  { replace (a + Z.pos b)%Z with (a + 1 * Z.pos b)%Z by lia.
    by rewrite Z.div_add by lia. }
  apply Z.div_exact in Ha; [|lia].
  assert (1 ≤ a `div` Z.pos b)%Z as Hq by nia.
  exists (Z.to_nat (a `div` Z.pos b)).
  split; [lia|]. split; [lia|]. rewrite !Z.mul_1_r, Z2Nat.id by lia. split.
  - intros m. f_equal.
    destruct (Z.leb_spec (Z.of_nat m * Z.pos b) a),
      (Z.leb_spec (Z.of_nat m) (a `div` Z.pos b)); try done; nia.
  - change (Z.of_nat 100) with 100%Z.
    destruct (Z.leb_spec a (100 * Z.pos b)),
      (Z.leb_spec (a `div` Z.pos b) 100); try done; nia.
Qed.




(** *** The page of one call *)

Lemma listHandler_page_whole db caller t (limit : number) (n : nat) cursor :
  threadExists db t → isParticipant db t caller →
  integral (QArith_base.Qplus limit (inject_nat 1)) = Some (Z.of_nat (n + 1)) →
  (∀ m, Messages.exceeds m limit = Messages.exceeds m (inject_nat n)) →
  Messages.listHandler caller (Messages.mkListInput t limit cursor) db
  = (db,
     Ok {| Messages.out_messages :=
             reverse (Messages.selectMessages t cursor n db);
           Messages.nextCursor :=
             if bool_decide (n < length
                   (Messages.selectMessages t cursor (n + 1) db))
                && bool_decide (0 < length
                     (Messages.selectMessages t cursor n db))
             then Messages.cursorOf
                    <$> last (Messages.selectMessages t cursor n db)
             else None |}).
Proof.
  intros Ht Hp Hk Hex.
  unfold Messages.listHandler, limited, mbind, proc_bind, query,
    throw, mret, proc_ret.
  cbn [Messages.list_threadId Messages.list_limit Messages.list_cursor].
  rewrite (selectThread_nonempty _ _ Ht), (selectParticipation_nonempty _ _ _ Hp).
  rewrite Hk, Nat2Z.id, Hex, exceeds_nat.
  assert ((if bool_decide (n < length
                 (Messages.selectMessages t cursor (n + 1) db))
           then take (length (Messages.selectMessages t cursor (n + 1) db) - 1)
                  (Messages.selectMessages t cursor (n + 1) db)
           else Messages.selectMessages t cursor (n + 1) db)
          = Messages.selectMessages t cursor n db) as Htrim.
  { rewrite (selectMessages_take db t cursor (n + 1)).
    rewrite (selectMessages_take db t cursor n).
    apply trimmed_take. }
  rewrite Htrim. done.
Qed.

Lemma listHandler_page db caller t (limit : nat) cursor :
  threadExists db t → isParticipant db t caller →
  Messages.listHandler caller (Messages.mkListInput t limit cursor) db
  = (db,
     Ok {| Messages.out_messages :=
             reverse (Messages.selectMessages t cursor limit db);
           Messages.nextCursor :=
             if bool_decide (limit < length
                   (Messages.selectMessages t cursor (limit + 1) db))
                && bool_decide (0 < length
                     (Messages.selectMessages t cursor limit db))
             then Messages.cursorOf
                    <$> last (Messages.selectMessages t cursor limit db)
             else None |}).
Proof.
  intros Ht Hp. apply listHandler_page_whole; [done..|apply integral_succ|done].
Qed.

(** A call that returns was made by a participant of an existing thread
    with a limit that is a natural number from 1 to 100, and returns what
    the call with that natural number returns. *)
Lemma list_returns db auth t (limit : number) cursor out :
  result (Messages.list auth (Messages.mkListInput t limit cursor)) db = Ok out →
  ∃ caller (n : nat),
    auth = Some caller ∧ threadExists db t ∧ isParticipant db t caller
    ∧ (1 ≤ n ≤ 100)
    ∧ result (Messages.list auth (Messages.mkListInput t n cursor)) db = Ok out
    ∧ Messages.out_messages out
      = reverse (Messages.selectMessages t cursor n db).
Proof.
  unfold Messages.list, protectedProcedure, result.
  destruct auth as [caller|]; [|done].
  destruct (Messages.listSchema _) eqn:Hv; [|done].
  apply andb_true_iff in Hv as [Hlo Hhi].
  cbn [Messages.list_limit] in Hlo, Hhi.
  destruct (decide (threadExists db t)) as [Ht|Ht].
  - destruct (decide (isParticipant db t caller)) as [Hp|Hp].
    + destruct (integral (QArith_base.Qplus limit (inject_nat 1)))
        as [k|] eqn:Hk.
      * destruct (integral_whole limit k Hlo Hk) as (n & Hn & -> & Hex & Hle).
        rewrite Hle, Qle_bool_nat in Hhi. apply bool_decide_eq_true in Hhi.
        rewrite (listHandler_page_whole db caller t limit n cursor Ht Hp Hk Hex).
        cbn [snd]. intros [= <-]. exists caller, n.
        rewrite listSchema_nat, bool_decide_eq_true_2 by lia.
        by rewrite (listHandler_page db caller t n cursor Ht Hp).
      * unfold Messages.listHandler, limited, mbind, proc_bind, query,
          throw. cbn [Messages.list_threadId Messages.list_limit].
        rewrite (selectThread_nonempty _ _ Ht),
          (selectParticipation_nonempty _ _ _ Hp), Hk. done.
    + unfold Messages.listHandler.
      intros H. exfalso. revert H. by guard_not_participant Ht Hp.
  - unfold Messages.listHandler.
    intros H. exfalso. revert H. by guard_thread_gone Ht.
Qed.

Lemma list_returns_nat db auth t (limit : nat) cursor out :
  result (Messages.list auth (Messages.mkListInput t limit cursor)) db = Ok out →
  ∃ caller, auth = Some caller ∧ threadExists db t ∧ isParticipant db t caller
            ∧ (1 ≤ limit ≤ 100)
            ∧ Messages.out_messages out
              = reverse (Messages.selectMessages t cursor limit db).
Proof.
  unfold Messages.list, protectedProcedure. destruct auth as [caller|];
    [|by proc_unfold].
  rewrite listSchema_nat. case_bool_decide as Hv; [|by proc_unfold].
  destruct (decide (threadExists db t)) as [Ht|Ht].
  - destruct (decide (isParticipant db t caller)) as [Hp|Hp].
    + unfold result. rewrite (listHandler_page db caller t limit cursor Ht Hp).
      cbn [snd]. intros [= <-]. by exists caller.
    + unfold Messages.listHandler.
      intros H. exfalso. revert H. by guard_not_participant Ht Hp.
  - unfold Messages.listHandler.
    intros H. exfalso. revert H. by guard_thread_gone Ht.
Qed.

Lemma unique_key_inj {A K} `{EqDecision K} (f : A → K) (l : list A) x y :
  NoDup (f <$> l) → x ∈ l → y ∈ l → f y = f x → y = x.
Proof.
  intros Hnd Hx Hy Heq.
  assert (y ∈ filter (λ z, f z = f x) l) as Hin
    by (by apply list_elem_of_filter).
  rewrite (filter_unique_key f l x Hnd Hx) in Hin.
  by apply list_elem_of_singleton in Hin.
Qed.




(** ** Cursor pagination *)

(** *** The order of the listing *)

Lemma keyLt_irrefl a : ¬ keyLt a a.
Proof. unfold keyLt. lia. Qed.

Lemma keyLt_trans a b c : keyLt a b → keyLt b c → keyLt a c.
Proof. unfold keyLt. lia. Qed.

Lemma keyLt_asym a b : keyLt a b → keyLt b a → False.
Proof. unfold keyLt. lia. Qed.

Lemma createdAtIdDesc_alt x y :
  Messages.createdAtIdDesc x y ↔ newer x y ∨ rowKey x = rowKey y.
Proof.
  unfold Messages.createdAtIdDesc, newer, keyLt, rowKey. simpl. split.
  - intros [H|[H1 H2]]; [by left; left|].
    destruct (decide (messages.id y.1 = messages.id x.1)) as [He|Hne].
    + right. by rewrite H1, He.
    + left. right. split; [done|lia].
  - intros [[H|[H1 H2]]|H]; [by left| right; split; [done|lia] |].
    right. injection H as H1 H2. split; [done|lia].
Qed.

Global Instance createdAtIdDesc_trans : Transitive Messages.createdAtIdDesc.
Proof. intros x y z. unfold Messages.createdAtIdDesc. lia. Qed.

Global Instance createdAtIdDesc_total : Total Messages.createdAtIdDesc.
Proof. intros x y. unfold Messages.createdAtIdDesc. lia. Qed.

Lemma cursorCondition_spec c m :
  Messages.cursorCondition c m = true
  ↔ keyLt (messages.createdAt m, messages.id m) (cursorKey c).
Proof.
  unfold Messages.cursorCondition, keyLt, cursorKey. simpl.
  rewrite orb_true_iff, andb_true_iff, !bool_decide_eq_true. done.
Qed.

Lemma StronglySorted_filter {A} (R : relation A) (P : A → Prop)
    `{∀ x, Decision (P x)} l :
  StronglySorted R l → StronglySorted R (filter P l).
Proof.
  induction 1 as [|x l Hs IH Hall]; [constructor|].
  rewrite filter_cons. destruct (decide (P x)); [|done].
  constructor; [done|].
  apply Forall_forall. intros y Hy. apply list_elem_of_filter in Hy as [_ Hy].
  rewrite Forall_forall in Hall. by apply Hall.
Qed.

(** Rows with pairwise distinct identifiers come out of the sort strictly
    ordered. *)
Lemma StronglySorted_newer l :
  NoDup (rowKey <$> l) →
  StronglySorted Messages.createdAtIdDesc l → StronglySorted newer l.
Proof.
  intros Hnd Hs. induction Hs as [|x l Hs IH Hall]; [constructor|].
  rewrite fmap_cons in Hnd. apply NoDup_cons in Hnd as [Hx Hnd].
  constructor; [by apply IH|].
  apply Forall_forall. intros y Hy. rewrite Forall_forall in Hall.
  destruct (proj1 (createdAtIdDesc_alt x y) (Hall y Hy)) as [Hn|He]; [done|].
  destruct Hx. rewrite He. by apply list_elem_of_fmap_2.
Qed.

(** In a strictly ordered listing the rows below a row of the listing are
    the rows after it. *)
Lemma filter_below_row (l1 l2 : list (messages.row * users.row)) x :
  StronglySorted newer (l1 ++ x :: l2) →
  filter (λ r, keyLt (rowKey r) (rowKey x)) (l1 ++ x :: l2) = l2.
Proof.
  intros Hs. apply StronglySorted_app in Hs as (H12 & Hs1 & Hs2).
  apply StronglySorted_inv in Hs2 as [Hs2 Hx2].
  rewrite filter_app, filter_cons.
  rewrite decide_False by apply keyLt_irrefl.
  assert (filter (λ r, keyLt (rowKey r) (rowKey x)) l1 = []) as ->.
  { clear Hs1. induction l1 as [|a l1 IH]; [done|].
    rewrite filter_cons. rewrite decide_False.
    - apply IH. intros y z Hy Hz. apply H12; [by right|done].
    - intros Hlt. apply (keyLt_asym _ _ Hlt).
      apply (H12 a x); left. }
  simpl. clear Hs1 H12 Hs2. induction l2 as [|a l2 IH]; [done|].
  apply Forall_cons in Hx2 as [Ha Hx2].
  rewrite filter_cons, decide_True by done. f_equal. by apply IH.
Qed.

(** *** The rows a call selects *)

Lemma selectMessages_selection db t cursor n :
  Messages.selectMessages t cursor n db
  = Messages.select <$> take n (selection t cursor db).
Proof. done. Qed.

Lemma selectUser_unique db k :
  pk_users db → userExists db k →
  ∃ u, filter (λ u, users.id u = k) (tbl_users db) = [u] ∧ users.id u = k.
Proof.
  intros Hpk Hex. apply list_elem_of_fmap in Hex as (u & -> & Hu).
  exists u. split; [|done]. by apply (filter_unique_key users.id).
Qed.

(** Under the primary key of users and the foreign key of senders the join
    keeps every message, once, in table order. *)
Lemma join_fst db :
  pk_users db → fk_message_sender db →
  (Messages.messagesJoinUsers db).*1 = tbl_messages db.
Proof.
  intros Hpk Hfk. unfold Messages.messagesJoinUsers, fk_message_sender in *.
  induction (tbl_messages db) as [|m ms IH]; [done|].
  rewrite bind_cons, fmap_app, IH.
  - destruct (selectUser_unique db (messages.senderId m) Hpk) as (u & -> & _).
    + apply Hfk. left.
    + done.
  - intros m' Hm'. apply Hfk. by right.
Qed.

Lemma join_keys_distinct db :
  pk_messages db → pk_users db → fk_message_sender db →
  NoDup (rowKey <$> Messages.messagesJoinUsers db).
Proof.
  intros Hpkm Hpku Hfk. apply (NoDup_fmap_1 snd).
  assert (snd <$> (rowKey <$> Messages.messagesJoinUsers db)
          = messages.id <$> (Messages.messagesJoinUsers db).*1) as ->
    by (by rewrite <- !list_fmap_compose).
  rewrite (join_fst db Hpku Hfk). exact Hpkm.
Qed.

Lemma NoDup_fmap_filter {A K} (f : A → K) (P : A → Prop)
    `{∀ x, Decision (P x)} l :
  NoDup (f <$> l) → NoDup (f <$> filter P l).
Proof.
  induction l as [|a l IH]; [done|]. rewrite fmap_cons.
  intros [Ha Hnd]%NoDup_cons. rewrite filter_cons.
  destruct (decide (P a)); [|by apply IH].
  rewrite fmap_cons. apply NoDup_cons. split; [|by apply IH].
  intros Hin. apply Ha. apply list_elem_of_fmap in Hin as (y & -> & Hy).
  apply list_elem_of_filter in Hy as [_ Hy]. by apply list_elem_of_fmap_2.
Qed.

Lemma selection_elem db t cursor r :
  r ∈ selection t cursor db
  ↔ Messages.whereClause t cursor r.1 = true ∧ r ∈ Messages.messagesJoinUsers db.
Proof.
  unfold selection. rewrite merge_sort_Permutation, list_elem_of_filter.
  by rewrite Is_true_true.
Qed.

Lemma selection_sorted db t cursor :
  NoDup (rowKey <$> Messages.messagesJoinUsers db) →
  StronglySorted newer (selection t cursor db).
Proof.
  intros Hnd. apply StronglySorted_newer.
  - unfold selection. rewrite merge_sort_Permutation.
    by apply NoDup_fmap_filter.
  - apply StronglySorted_merge_sort; apply _.
Qed.

(** The rows a cursor selects are the rows of the whole listing below the
    cursor. *)
Lemma selection_cursor db t c :
  NoDup (rowKey <$> Messages.messagesJoinUsers db) →
  selection t (Some c) db
  = filter (λ r, keyLt (rowKey r) (cursorKey c)) (selection t None db).
Proof.
  intros Hnd.
  apply (StronglySorted_unique_strong Messages.createdAtIdDesc).
  - intros x1 x2 Hx1 Hx2 H12 H21.
    apply selection_elem in Hx1 as [_ Hx1].
    apply list_elem_of_filter in Hx2 as [_ Hx2].
    apply selection_elem in Hx2 as [_ Hx2].
    apply (unique_key_inj rowKey (Messages.messagesJoinUsers db)); try done.
    apply createdAtIdDesc_alt in H12 as [H12|H12]; [|done].
    apply createdAtIdDesc_alt in H21 as [H21|H21]; [|done].
    destruct (keyLt_asym _ _ H12 H21).
  - apply StronglySorted_merge_sort; apply _.
  - apply StronglySorted_filter. apply StronglySorted_merge_sort; apply _.
  - unfold selection. rewrite !merge_sort_Permutation.
    rewrite list_filter_filter.
    erewrite list_filter_iff; [done|].
    intros [m u]. simpl. unfold rowKey. simpl.
    rewrite <- cursorCondition_spec, <- !Is_true_true.
    rewrite andb_True. tauto.
Qed.

(** *** One call *)

Lemma list_page db caller t limit cursor :
  1 ≤ limit ≤ 100 → threadExists db t → isParticipant db t caller →
  result (Messages.list (Some caller) (Messages.mkListInput t limit cursor)) db
  = Ok {| Messages.out_messages :=
            reverse (Messages.select <$> take limit (selection t cursor db));
          Messages.nextCursor :=
            if bool_decide (limit < length (selection t cursor db))
            then Messages.cursorOf ∘ Messages.select
                   <$> last (take limit (selection t cursor db))
            else None |}.
Proof.
  intros Hl Ht Hp. unfold Messages.list, protectedProcedure, result.
  rewrite listSchema_nat, bool_decide_eq_true_2 by done.
  rewrite (listHandler_page db caller t limit cursor Ht Hp). simpl.
  rewrite !selectMessages_selection, !length_fmap, !length_take.
  f_equal. f_equal.
  destruct (decide (limit < length (selection t cursor db))) as [Hlt|Hge].
  - rewrite !bool_decide_eq_true_2 by lia. simpl.
    by rewrite fmap_last, <- option_fmap_compose.
  - by rewrite !(bool_decide_eq_false_2 (limit < _)) by lia.
Qed.

(** When more than [limit] rows are selected, the page is cut after the
    row the next cursor is taken from. *)
Lemma take_last_split {A} (l : list A) limit :
  1 ≤ limit → limit < length l →
  ∃ x, last (take limit l) = Some x
       ∧ l = take (limit - 1) l ++ x :: drop limit l.
Proof.
  intros H1 Hlt.
  destruct (lookup_lt_is_Some_2 l (limit - 1)) as [x Hx]; [lia|].
  exists x. split.
  - replace limit with (S (limit - 1)) at 1 by lia.
    rewrite (take_S_r _ _ x Hx). apply last_snoc.
  - rewrite <- (take_drop_middle l (limit - 1) x Hx) at 1.
    do 3 f_equal. lia.
Qed.

(** *** The whole walk *)

Lemma concat_oldestFirst_cons page pages :
  oldestFirst (page :: pages) = oldestFirst pages ++ page.
Proof.
  unfold oldestFirst. rewrite reverse_cons, concat_app. simpl.
  by rewrite app_nil_r.
Qed.

Lemma filter_iff_elem {A} (P Q : A → Prop) `{∀ x, Decision (P x)}
    `{∀ x, Decision (Q x)} (l : list A) :
  (∀ x, x ∈ l → P x ↔ Q x) → filter P l = filter Q l.
Proof.
  induction l as [|a l IH]; [done|]. intros HPQ.
  rewrite !filter_cons, IH by (intros x Hx; apply HPQ; by right).
  destruct (decide (P a)) as [Hp|Hp], (decide (Q a)) as [Hq|Hq]; try done.
  - destruct Hq. apply HPQ; [left|done].
  - destruct Hp. apply HPQ; [left|done].
Qed.

Lemma selection_live db t cursor r :
  r ∈ selection t cursor db → r.1 ∈ liveMessages db t.
Proof.
  intros [Hw Hj]%selection_elem. destruct r as [m u].
  apply messagesJoinUsers_elem in Hj as (Hm & _).
  apply whereClause_base in Hw as [Ht Hd].
  by apply list_elem_of_filter.
Qed.

(** *** Dates and columns *)

Lemma toDate_floor c :
  (ofDate (toDate c) ≤ c < ofDate (toDate c) + 1000)%Z.
Proof.
  unfold ofDate, toDate.
  pose proof (Z.div_mod c 1000 ltac:(lia)).
  pose proof (Z.mod_pos_bound c 1000 ltac:(lia)). lia.
Qed.

Lemma toDate_mono c c' : (c ≤ c')%Z → (toDate c ≤ toDate c')%Z.
Proof. intros Hle. unfold toDate. apply Z.div_le_mono; lia. Qed.

Lemma toDate_ofDate d : toDate (ofDate d) = d.
Proof. unfold toDate, ofDate. apply Z.div_mul. lia. Qed.

Lemma toDate_lt c c' : (toDate c < toDate c')%Z → (c < ofDate (toDate c'))%Z.
Proof.
  intros Hlt. pose proof (toDate_floor c) as Hc.
  unfold ofDate in *. lia.
Qed.

(** Two different messages of a thread whose dates tell its messages apart
    are stored in the order of their [Date]s, or at the same whole
    millisecond. *)
Lemma datesTellApart_order db t m m' :
  pk_messages db → datesTellApart db t →
  m ∈ liveMessages db t → m' ∈ liveMessages db t →
  (messages.createdAt m < messages.createdAt m')%Z →
  (toDate (messages.createdAt m) < toDate (messages.createdAt m'))%Z.
Proof.
  intros Hpk Hms Hm Hm' Hlt.
  pose proof (toDate_mono _ _ (Z.lt_le_incl _ _ Hlt)) as Hle.
  destruct (decide (toDate (messages.createdAt m)
                    = toDate (messages.createdAt m'))) as [Heq|Hne]; [|lia].
  exfalso.
  assert (messages.id m ≠ messages.id m') as Hid.
  { intros Hid.
    assert (m' = m) as ->; [|lia].
    apply list_elem_of_filter in Hm as [_ Hm].
    apply list_elem_of_filter in Hm' as [_ Hm'].
    by apply (unique_key_inj messages.id (tbl_messages db)). }
  pose proof (Hms m m' Hm Hm' Hid Heq) as Hw.
  pose proof (Hms m' m Hm' Hm (not_eq_sym Hid) (eq_sym Heq)) as Hw'.
  rewrite Heq in Hw. lia.
Qed.

(** The cursor taken from a row has below it, among the messages of the
    thread, the rows that are below the row. *)
Lemma cursorOf_below db t x r :
  pk_messages db → datesTellApart db t →
  x.1 ∈ liveMessages db t → r.1 ∈ liveMessages db t →
  keyLt (rowKey r) (cursorKey (Messages.cursorOf (Messages.select x)))
  ↔ keyLt (rowKey r) (rowKey x).
Proof.
  intros Hpk Hms Hx Hr. unfold keyLt, rowKey, cursorKey. cbn.
  pose proof (toDate_floor (messages.createdAt x.1)) as Hfloor.
  destruct (decide (messages.id r.1 = messages.id x.1)) as [Hid|Hid].
  { assert (r.1 = x.1) as ->; [|lia].
    apply list_elem_of_filter in Hx as [_ Hx].
    apply list_elem_of_filter in Hr as [_ Hr].
    by apply (unique_key_inj messages.id (tbl_messages db)). }
  destruct (decide (toDate (messages.createdAt r.1)
                    = toDate (messages.createdAt x.1))) as [Heq|Hne].
  - pose proof (Hms _ _ Hr Hx Hid Heq) as Hw.
    pose proof (Hms _ _ Hx Hr (not_eq_sym Hid) (eq_sym Heq)) as Hw'.
    rewrite Heq in Hw. lia.
  - split.
    + intros [Hlt|[Heq _]]; [left; lia|].
      destruct Hne. by rewrite Heq, toDate_ofDate.
    + intros [Hlt|[Heq _]]; [|by rewrite Heq in Hne].
      left. apply toDate_lt.
      by apply (datesTellApart_order db t r.1 x.1).
Qed.

Lemma fetchPages_from db caller t (limit : nat) :
  1 ≤ limit ≤ 100 → threadExists db t → isParticipant db t caller →
  NoDup (rowKey <$> Messages.messagesJoinUsers db) →
  pk_messages db → datesTellApart db t →
  ∀ calls cursor pre rest,
    selection t None db = pre ++ rest →
    selection t cursor db = rest →
    length rest < calls →
    ∃ pages,
      fetchPages calls (Some caller) t limit cursor db = Some pages
      ∧ oldestFirst pages = reverse (Messages.select <$> rest).
Proof.
  intros Hl Ht Hp Hnd Hpk Hms calls.
  induction calls as [|calls IH]; intros cursor pre rest Hall Hsel Hlen;
    [lia|].
  cbn [fetchPages].
  rewrite (list_page db caller t limit cursor Hl Ht Hp), Hsel.
  cbn [Messages.nextCursor Messages.out_messages].
  destruct (decide (limit < length rest)) as [Hlt|Hge].
  - rewrite bool_decide_eq_true_2 by done.
    destruct (take_last_split rest limit) as (x & Hlast & Hsplit); [lia..|].
    rewrite Hlast. simpl.
    set (c := Messages.cursorOf (Messages.select x)).
    assert (selection t (Some c) db = drop limit rest) as Hnext.
    { assert (x ∈ selection t cursor db) as Hx
        by (rewrite Hsel, Hsplit; apply elem_of_app; right; left).
      rewrite (selection_cursor db t c Hnd).
      rewrite (filter_iff_elem _ (λ r, keyLt (rowKey r) (rowKey x))).
      2:{ intros r Hr. apply (cursorOf_below db t); try done.
          - by apply (selection_live db t cursor).
          - by apply (selection_live db t None). }
      rewrite Hall. rewrite Hsplit at 1. rewrite app_assoc.
      apply filter_below_row. rewrite <- app_assoc, <- Hsplit, <- Hall.
      by apply selection_sorted. }
    destruct (IH (Some c) (pre ++ take limit rest) (drop limit rest))
      as (pages & Hpages & Hold).
    + by rewrite <- app_assoc, take_drop.
    + done.
    + rewrite length_drop. lia.
    + rewrite Hpages. simpl. eexists. split; [done|].
      rewrite concat_oldestFirst_cons, Hold, <- reverse_app, <- fmap_app.
      by rewrite take_drop.
  - rewrite bool_decide_eq_false_2 by done.
    eexists. split; [done|].
    unfold oldestFirst. simpl. rewrite app_nil_r, take_ge; [done|lia].
Qed.

Lemma StronglySorted_reverse {A} (R : relation A) l :
  StronglySorted R l → StronglySorted (flip R) (reverse l).
Proof.
  induction 1 as [|x l Hs IH Hall]; [constructor|].
  rewrite reverse_cons. apply StronglySorted_app_2.
  - intros y z Hy Hz. apply list_elem_of_singleton in Hz as ->.
    rewrite Forall_forall in Hall. apply Hall. by apply elem_of_reverse.
  - done.
  - repeat constructor.
Qed.

Lemma filter_fmap_fst {A B} (P : A → Prop) (Q : A * B → Prop)
    `{∀ x, Decision (P x)} `{∀ r, Decision (Q r)} (l : list (A * B)) :
  (∀ r, Q r ↔ P r.1) → (filter Q l).*1 = filter P (l.*1).
Proof.
  intros HQP. induction l as [|a l IH]; [done|].
  rewrite fmap_cons, !filter_cons.
  destruct (decide (Q a)) as [Hq|Hq], (decide (P a.1)) as [Hp|Hp];
    rewrite ?fmap_cons, ?IH; try done.
  - by apply HQP in Hq.
  - by apply HQP in Hp.
Qed.

Lemma baseCondition_spec t m :
  Messages.baseCondition t m
  ↔ messages.threadId m = t ∧ messages.isDeleted m = false.
Proof.
  unfold Messages.baseCondition.
  by rewrite andb_True, !bool_decide_spec.
Qed.

Lemma selection_messages db t :
  pk_users db → fk_message_sender db →
  (selection t None db).*1 ≡ₚ liveMessages db t.
Proof.
  intros Hpk Hfk. unfold selection, liveMessages.
  rewrite merge_sort_Permutation.
  assert ((filter (λ r, Messages.whereClause t None r.1)
             (Messages.messagesJoinUsers db)).*1
          = filter (λ m, messages.threadId m = t ∧ messages.isDeleted m = false)
              (Messages.messagesJoinUsers db).*1) as ->.
  { apply filter_fmap_fst. intros r. apply baseCondition_spec. }
  by rewrite (join_fst db Hpk Hfk).
Qed.

Lemma list_cursorFaithful db caller t (limit : nat) cursor out :
  pk_messages db → pk_users db → fk_message_sender db →
  datesTellApart db t →
  result (Messages.list (Some caller) (Messages.mkListInput t limit cursor)) db
    = Ok out →
  cursorFaithful db t cursor out.
Proof.
  intros Hpkm Hpku Hfk Hms Hok.
  destruct (list_returns_nat _ _ _ _ _ _ Hok)
    as (c' & [= <-] & Ht & Hp & Hl & _).
  rewrite (list_page db caller t limit cursor Hl Ht Hp) in Hok.
  injection Hok as <-. unfold cursorFaithful. simpl.
  pose proof (join_keys_distinct db Hpkm Hpku Hfk) as Hnd.
  destruct (decide (limit < length (selection t cursor db))) as [Hlt|Hge].
  - rewrite bool_decide_eq_true_2 by done.
    destruct (take_last_split (selection t cursor db) limit)
      as (x & Hlast & Hsplit); [lia..|].
    rewrite Hlast. simpl. split.
    + exists (Messages.select x). split; [|done].
      by rewrite head_reverse, fmap_last, Hlast.
    + destruct (drop limit (selection t cursor db)) as [|y rest] eqn:Hdrop.
      { apply (f_equal length) in Hdrop. rewrite length_drop in Hdrop.
        simpl in Hdrop. lia. }
      pose proof (selection_sorted db t cursor Hnd) as Hs.
      rewrite Hsplit in Hs.
      apply StronglySorted_app in Hs as (_ & _ & Hs).
      apply StronglySorted_inv in Hs as [_ Hxy].
      apply Forall_cons in Hxy as [Hxy _].
      assert (y ∈ selection t cursor db) as Hy.
      { rewrite Hsplit. apply elem_of_app. right. right. left. }
      assert (x ∈ selection t cursor db) as Hx
        by (rewrite Hsplit; apply elem_of_app; right; left).
      pose proof (selection_live db t cursor y Hy) as Hylive.
      pose proof (selection_live db t cursor x Hx) as Hxlive.
      apply selection_elem in Hy as [Hw Hj].
      destruct y as [m u]. apply messagesJoinUsers_elem in Hj as (Hm & _).
      exists m. split; [done|]. simpl in *.
      apply whereClause_base in Hw as [Hth Hdel].
      apply andb_true_iff. split.
      * unfold Messages.baseCondition.
        by rewrite !bool_decide_eq_true_2.
      * apply cursorCondition_spec.
        by apply (cursorOf_below db t x (m, u) Hpkm Hms Hxlive Hylive).
  - rewrite bool_decide_eq_false_2 by done.
    intros m Hm Hw. rewrite take_ge by lia.
    destruct (selectUser_unique db (messages.senderId m) Hpku (Hfk m Hm))
      as (u & Hu & Hid).
    assert (u ∈ tbl_users db) as Hin.
    { assert (u ∈ filter (λ u, users.id u = messages.senderId m) (tbl_users db))
        as H by (rewrite Hu; left).
      by apply list_elem_of_filter in H as [_ H]. }
    assert ((m, u) ∈ selection t cursor db) as Hsel.
    { apply selection_elem. split; [done|]. by apply messagesJoinUsers_elem. }
    apply list_elem_of_fmap. exists (Messages.select (m, u)). split; [done|].
    apply elem_of_reverse. by apply list_elem_of_fmap_2.
Qed.

Lemma StronglySorted_fmap_elem {A B} (R : relation A) (R' : relation B)
    (f : A → B) (l : list A) :
  (∀ x y, x ∈ l → y ∈ l → R x y → R' (f x) (f y)) →
  StronglySorted R l → StronglySorted R' (f <$> l).
Proof.
  intros Hf Hs. induction Hs as [|x l Hs IH Hall]; [constructor|].
  rewrite fmap_cons. constructor.
  - apply IH. intros y z Hy Hz. apply Hf; by right.
  - apply Forall_fmap, Forall_forall. intros y Hy.
    rewrite Forall_forall in Hall. apply Hf; [left|by right|by apply Hall].
Qed.

(** Rows of a thread whose dates tell its messages apart are shown in the
    order they are stored in. *)
Lemma chronological_apart db t x y :
  pk_messages db → datesTellApart db t →
  x.1 ∈ liveMessages db t → y.1 ∈ liveMessages db t →
  newer y x → chronological (Messages.select x) (Messages.select y).
Proof.
  intros Hpk Hms Hx Hy. unfold newer, chronological, keyLt, viewKey, rowKey.
  cbn. intros [Hlt|[Heq Hid]]; [left|right; by rewrite Heq].
  by apply (datesTellApart_order db t).
Qed.

(** X28: the walk through the pages tiles a thread whose dates tell its
    messages apart, that is, where no message that is not deleted falls
    within one millisecond with another one unless it was stored at the
    whole millisecond, when the limit is a natural number. For a
    participant of such a thread, the walk that starts without a cursor and
    follows every cursor handed out ends; its pages, oldest page first,
    show the identifiers of exactly the thread's messages that are not
    deleted, each once, in strictly increasing order of (createdAt, id);
    and every call hands out a cursor taken from the oldest row of its
    page exactly when rows remain below that row. *)
Theorem pagination_tiles_thread db caller t (limit : nat) calls
    (Hpkm : pk_messages db) (Hpku : pk_users db) (Hfk : fk_message_sender db)
    (Hms : datesTellApart db t)
    (Ht : threadExists db t) (Hp : isParticipant db t caller)
    (Hl : 1 ≤ limit ≤ 100) (Hcalls : length (tbl_messages db) < calls) :
  (∃ pages,
     fetchPages calls (Some caller) t limit None db = Some pages
     ∧ Messages.id <$> oldestFirst pages ≡ₚ messages.id <$> liveMessages db t
     ∧ NoDup (Messages.id <$> oldestFirst pages)
     ∧ StronglySorted chronological (oldestFirst pages))
  ∧ (∀ cursor out,
       result (Messages.list (Some caller)
                 (Messages.mkListInput t limit cursor)) db = Ok out →
       cursorFaithful db t cursor out).
Proof.
  pose proof (join_keys_distinct db Hpkm Hpku Hfk) as Hnd.
  split; [|intros cursor out; by apply list_cursorFaithful].
  destruct (fetchPages_from db caller t limit Hl Ht Hp Hnd Hpkm Hms calls None []
              (selection t None db)) as (pages & Hpages & Hold); [done..| |].
  { assert (length (selection t None db) = length (liveMessages db t)) as ->.
    { rewrite <- (selection_messages db t Hpku Hfk). by rewrite length_fmap. }
    unfold liveMessages.
    pose proof (length_filter
      (λ m, messages.threadId m = t ∧ messages.isDeleted m = false)
      (tbl_messages db)). lia. }
  exists pages. split; [done|]. rewrite Hold.
  assert (Messages.id <$> reverse (Messages.select <$> selection t None db)
          ≡ₚ messages.id <$> liveMessages db t) as Hperm.
  { rewrite reverse_Permutation, <- (selection_messages db t Hpku Hfk).
    by rewrite <- !list_fmap_compose. }
  split; [done|]. split.
  - rewrite Hperm. unfold liveMessages. by apply NoDup_fmap_filter.
  - rewrite <- fmap_reverse.
    apply (StronglySorted_fmap_elem (flip newer)).
    + intros x y Hx Hy Hxy. rewrite elem_of_reverse in Hx, Hy.
      apply (chronological_apart db t); try done.
      * by apply (selection_live db t None).
      * by apply (selection_live db t None).
    + apply StronglySorted_reverse. by apply selection_sorted.
Qed.

Lemma demoDb_pk_users : pk_users demoDb.
Proof.
  apply (bool_decide_unpack (NoDup (users.id <$> tbl_users demoDb))).
  by vm_compute.
Qed.

Lemma demoDb_fk_message_sender : fk_message_sender demoDb.
Proof.
  intros m Hm. unfold userExists.
  apply (bool_decide_unpack (messages.senderId m ∈ users.id <$> tbl_users demoDb)).
  simpl in Hm. repeat (apply elem_of_cons in Hm as [->|Hm]); [by vm_compute..|].
  by apply elem_of_nil in Hm.
Qed.

Lemma demoDb_thread : threadExists demoDb 10.
Proof. unfold threadExists. simpl. left. Qed.

Lemma demoDb_participant_1 : isParticipant demoDb 10 1.
Proof. unfold isParticipant. simpl. left. Qed.

Lemma demoDbMs_datesTellApart : datesTellApart demoDbMs 10.
Proof.
  unfold datesTellApart.
  assert (liveMessages demoDbMs 10
          = [messages.mk 100 10 1 "hello" 5000 5000 None false;
             messages.mk 101 10 2 "hi" 5000 5000 None false;
             messages.mk 103 10 2 "bye" 8021 8021 None false]) as ->
    by (by vm_compute).
  intros m m' Hm Hm' Hid Hdate.
  repeat (apply elem_of_cons in Hm as [->|Hm]);
    [| | |by apply elem_of_nil in Hm];
    repeat (apply elem_of_cons in Hm' as [->|Hm']);
    try (by apply elem_of_nil in Hm');
    first [by vm_compute | by destruct Hid | by vm_compute in Hdate].
Qed.

Lemma demoDbMs_fk_message_sender : fk_message_sender demoDbMs.
Proof.
  intros m Hm. unfold userExists.
  apply (bool_decide_unpack
           (messages.senderId m ∈ users.id <$> tbl_users demoDbMs)).
  cbn in Hm. repeat (apply elem_of_cons in Hm as [->|Hm]); [by vm_compute..|].
  by apply elem_of_nil in Hm.
Qed.

(** Two pages of two rows at most: the tie on [createdAt] between messages
    100 and 101 is cut by the identifier, and the deleted message 102 is on
    neither page. *)
Example fetchPages_demo :
  (λ pages : list (list Messages.MessageView),
     (λ page : list Messages.MessageView, Messages.id <$> page) <$> pages)
    <$> fetchPages 5 (Some 1%Z) 10 2 None demoDbMs
  = Some [[101%Z; 103%Z]; [100%Z]].
Proof. by vm_compute. Qed.

Lemma pagination_tiles_thread_witness :
  (∃ pages,
     fetchPages 5 (Some 1%Z) 10 2 None demoDbMs = Some pages
     ∧ Messages.id <$> oldestFirst pages
       ≡ₚ messages.id <$> liveMessages demoDbMs 10
     ∧ NoDup (Messages.id <$> oldestFirst pages)
     ∧ StronglySorted chronological (oldestFirst pages))
  ∧ (∀ cursor out,
       result (Messages.list (Some 1%Z)
                 (Messages.mkListInput 10 2 cursor)) demoDbMs = Ok out →
       cursorFaithful demoDbMs 10 cursor out).
Proof.
  apply (pagination_tiles_thread demoDbMs 1%Z 10%Z 2 5).
  - apply (bool_decide_unpack (pk_messages demoDbMs)). by vm_compute.
  - apply demoDb_pk_users.
  - apply demoDbMs_fk_message_sender.
  - apply demoDbMs_datesTellApart.
  - apply demoDb_thread.
  - apply demoDb_participant_1.
  - lia.
  - cbn. lia.
Defined.

(** *** Where the walk loses a message *)

(** C1: the claim fails of the code on two counts. The date of a cursor
    is the [Date] of a row, cut to the millisecond, and the query compares
    the column with it to the microsecond: of two messages stored within
    one millisecond the walk with limit 1 shows the later one, takes the
    cursor from it, and finds nothing below that cursor, so the earlier
    message, which is not deleted, is on no page. And the schema takes a
    limit that is no integer, on which the query is refused and
    [messages.list] throws. The store satisfies the constraints of the
    schema and the caller participates in the thread. *)
Theorem pagination_loses_same_millisecond_message :
  (pk_messages sameMillisecond ∧ pk_users sameMillisecond
   ∧ fk_message_sender sameMillisecond
   ∧ threadExists sameMillisecond 10 ∧ isParticipant sameMillisecond 10 1)
  ∧ fetchPages 5 (Some 1%Z) 10 1 None sameMillisecond
    = Some [[Messages.mkView 201 "second" 1700000000890 1700000000890 None
               false 1 "alice"]; []]
  ∧ messages.id <$> liveMessages sameMillisecond 10 = [200; 201]%Z
  ∧ (∀ pages, fetchPages 5 (Some 1%Z) 10 1 None sameMillisecond = Some pages →
              200%Z ∉ Messages.id <$> oldestFirst pages)
  ∧ result (Messages.list (Some 1%Z)
              (Messages.mkListInput 10 1
                 (Some (Messages.mkCursor 201 1700000000890))))
      sameMillisecond
    = Ok (Messages.mkListOutput [] None)
  ∧ Messages.listSchema
      (Messages.mkListInput 10 (QArith_base.Qmake 3 2) None) = true
  ∧ result (Messages.list (Some 1%Z)
              (Messages.mkListInput 10 (QArith_base.Qmake 3 2) None))
      sameMillisecond
    = Throw (DatabaseError "22P02").
Proof.
  split.
  { repeat split.
    - apply (bool_decide_unpack (pk_messages sameMillisecond)). by vm_compute.
    - apply (bool_decide_unpack (pk_users sameMillisecond)). by vm_compute.
    - intros m Hm. unfold userExists. cbn in Hm.
      repeat (apply elem_of_cons in Hm as [->|Hm]); [by left..|].
      by apply elem_of_nil in Hm.
    - by left.
    - by left. }
  assert (fetchPages 5 (Some 1%Z) 10 1 None sameMillisecond
          = Some [[Messages.mkView 201 "second" 1700000000890 1700000000890
                     None false 1 "alice"]; []]) as Hwalk by (by vm_compute).
  split; [exact Hwalk|]. split; [by vm_compute|]. split.
  { intros pages. rewrite Hwalk. intros [= <-]. cbn.
    intros Hin. apply list_elem_of_singleton in Hin. discriminate Hin. }
  split; [by vm_compute|]. split; by vm_compute.
Qed.

(** ** Thread creation *)

Lemma uniqueFrom_elem seen ids x :
  x ∈ Threads.uniqueFrom seen ids ↔ x ∈ ids ∧ x ∉ seen.
Proof.
  revert seen. induction ids as [|a ids IH]; intros seen; simpl.
  - rewrite elem_of_nil. tauto.
  - case_bool_decide as Ha.
    + rewrite IH, elem_of_cons. split; [tauto|].
      intros [[->|Hx] Hs]; [done|tauto].
    + rewrite !elem_of_cons, IH, not_elem_of_cons.
      destruct (decide (x = a)) as [->|Hne]; tauto.
Qed.

Lemma uniqueFrom_NoDup seen ids : NoDup (Threads.uniqueFrom seen ids).
Proof.
  revert seen. induction ids as [|a ids IH]; intros seen; simpl.
  - constructor.
  - case_bool_decide; [apply IH|].
    apply NoDup_cons. split; [|apply IH].
    rewrite uniqueFrom_elem, not_elem_of_cons. tauto.
Qed.

Lemma arrayFromSet_elem ids x : x ∈ Threads.arrayFromSet ids ↔ x ∈ ids.
Proof.
  unfold Threads.arrayFromSet. rewrite uniqueFrom_elem.
  pose proof (not_elem_of_nil x). tauto.
Qed.

Lemma arrayFromSet_NoDup ids : NoDup (Threads.arrayFromSet ids).
Proof. apply uniqueFrom_NoDup. Qed.

(** The count that [threads.create] compares with the number of ids it was
    given is the number of distinct ids among them that name a user. *)
Lemma selectUsersIn_length db ids :
  pk_users db →
  (length (Threads.selectUsersIn ids db) = length ids
   ↔ NoDup ids ∧ Forall (userExists db) ids).
Proof.
  intros Hpk. unfold Threads.selectUsersIn.
  set (found := users.id <$> filter (λ u, users.id u ∈ ids) (tbl_users db)).
  assert (NoDup found) as Hnd by (by apply NoDup_fmap_filter).
  assert (∀ x, x ∈ found ↔ x ∈ ids ∧ userExists db x) as Hfound.
  { intros x. unfold found, userExists. rewrite !list_elem_of_fmap. split.
    - intros (u & -> & Hu). apply list_elem_of_filter in Hu as [Hin Hu].
      split; [done|]. by exists u.
    - intros (Hin & u & -> & Hu). exists u. split; [done|].
      by apply list_elem_of_filter. }
  assert (found ⊆+ ids) as Hsub.
  { apply NoDup_submseteq; [done|]. intros x Hx. by apply Hfound in Hx as [? ?]. }
  split.
  - intros Hlen.
    assert (found ≡ₚ ids) as Hperm
      by (apply submseteq_length_Permutation; [done|lia]).
    split; [by rewrite <- Hperm|].
    apply Forall_forall. intros x Hx. rewrite <- Hperm in Hx.
    by apply Hfound in Hx as [_ ?].
  - intros [Hnd' Hall]. apply Permutation_length.
    apply NoDup_Permutation; [done..|].
    intros x. rewrite Hfound. rewrite Forall_forall in Hall.
    split; [tauto|]. intros Hx. split; [done|by apply Hall].
Qed.

(** A refused creation writes nothing, and the refusal is for an id that
    names no user or for an id given twice. *)
Lemma create_bad_request db newId now caller input :
  pk_users db → Threads.createSchema input = true →
  let call := Threads.create newId now (Some caller) input in
  (fails call db BAD_REQUEST
   ↔ ¬ (NoDup (Threads.participantIds input)
        ∧ Forall (userExists db) (Threads.participantIds input)))
  ∧ (fails call db BAD_REQUEST → store call db = db).
Proof.
  intros Hpk Hv. unfold Threads.create, Threads.createHandler.
  proc_unfold. rewrite Hv.
  rewrite <- (selectUsersIn_length db _ Hpk).
  case_bool_decide as Hlen; simpl.
  - split; [|done]. split; [done|]. by intros _.
  - split.
    + split; [|intros Hne; by destruct Hne].
      intros Hbad. exfalso.
      unfold Threads.insertThread, Threads.insertParticipants in Hbad.
      repeat (case_bool_decide; simpl in Hbad); discriminate Hbad.
    + intros Hbad. exfalso.
      unfold Threads.insertThread, Threads.insertParticipants in Hbad.
      repeat (case_bool_decide; simpl in Hbad); discriminate Hbad.
Qed.

(** C5 fails on the code at a list that names an existing user twice: every
    id of [2; 2] resolves to user 2 of the store, and [threads.create]
    still refuses the list with BAD_REQUEST, the two ids being matched by
    one row. *)
Theorem create_refuses_repeated_valid_id :
  let input := Threads.mkCreateInput None [2%Z; 2%Z] in
  Threads.createSchema input = true
  ∧ Forall (userExists demoDb) (Threads.participantIds input)
  ∧ fails (Threads.create 11 20 (Some 1%Z) input) demoDb BAD_REQUEST.
Proof.
  simpl. split; [done|]. split; [|by vm_compute].
  apply (bool_decide_unpack (Forall (userExists demoDb) [2%Z; 2%Z])).
  by vm_compute.
Qed.

Lemma create_ok db newId now caller input thread :
  result (Threads.create newId now (Some caller) input) db = Ok thread →
  let ids := Threads.arrayFromSet (Threads.participantIds input ++ [caller]) in
  thread = threads.mk newId (Threads.create_name input) now now now
  ∧ ¬ threadExists db newId
  ∧ Forall (userExists db) ids
  ∧ store (Threads.create newId now (Some caller) input) db
    = mkDb (tbl_users db) (tbl_threads db ++ [thread])
        (tbl_threadParticipants db
           ++ ((λ u, threadParticipants.mk newId u now) <$> ids))
        (tbl_messages db).
Proof.
  unfold Threads.create, protectedProcedure.
  destruct (Threads.createSchema input); [|by proc_unfold].
  unfold Threads.createHandler, store, result, mbind, proc_bind, query, throw,
    mret, proc_ret.
  case_bool_decide as Hlen; [done|].
  unfold Threads.insertThread. case_bool_decide as Hfresh; [done|].
  cbn [head threads.id]. unfold Threads.insertParticipants.
  case_bool_decide as Hunique; [done|].
  case_bool_decide as Hforeign; [done|].
  cbn [fst snd tbl_users tbl_threads tbl_threadParticipants tbl_messages].
  intros [= <-]. repeat split.
  - done.
  - apply Forall_forall. intros u Hu.
    destruct (decide (userExists db u)) as [|Hno]; [done|].
    destruct Hforeign. apply Exists_exists. exists (newId, u).
    split; [by apply (list_elem_of_fmap_2 (λ userId, (newId, userId)))|].
    by right.
  - by rewrite <- list_fmap_compose.
Qed.

Lemma join_participants db (rows : list threadParticipants.row) :
  pk_users db →
  Forall (λ p, userExists db (threadParticipants.userId p)) rows →
  (λ r : threadParticipants.row * users.row, users.id r.2)
    <$> (rows ≫= λ p,
           filter (λ u, users.id u = threadParticipants.userId p) (tbl_users db)
             ≫= λ u, [(p, u)])
  = threadParticipants.userId <$> rows.
Proof.
  intros Hpk Hall. induction rows as [|p rows IH]; [done|].
  apply Forall_cons in Hall as [Hp Hall].
  rewrite bind_cons, fmap_app, IH by done.
  destruct (selectUser_unique db _ Hpk Hp) as (row & -> & Hid).
  simpl. by rewrite Hid.
Qed.

(** C6: after a successful [threads.create] the participant rows of the new
    thread name the ids given and the creator, each once, in order of first
    mention; the participants read back through the join with users are the
    same. *)
Theorem create_participant_set db newId now caller input thread
    (Hpk : pk_users db) (Hfk : fk_participant_thread db)
    (Hok : result (Threads.create newId now (Some caller) input) db = Ok thread) :
  let db' := store (Threads.create newId now (Some caller) input) db in
  let members := participantsOf db' (threads.id thread) in
  members = Threads.arrayFromSet (Threads.participantIds input ++ [caller])
  ∧ NoDup members
  ∧ (∀ u, u ∈ members ↔ u ∈ Threads.participantIds input ∨ u = caller)
  ∧ Threads.participant_id <$> Threads.selectParticipants (threads.id thread) db'
    = members.
Proof.
  destruct (create_ok _ _ _ _ _ _ Hok) as (-> & Hfresh & Hall & Hdb').
  cbn zeta. rewrite Hdb'. clear Hdb'.
  set (ids := Threads.arrayFromSet (Threads.participantIds input ++ [caller])) in *.
  assert (filter (λ p, threadParticipants.threadId p = newId)
            (tbl_threadParticipants db
               ++ ((λ u, threadParticipants.mk newId u now) <$> ids))
          = (λ u, threadParticipants.mk newId u now) <$> ids) as Hrows.
  { rewrite filter_app.
    assert (filter (λ p, threadParticipants.threadId p = newId)
              (tbl_threadParticipants db) = []) as ->.
    { apply elem_of_nil_inv. intros p Hp.
      apply list_elem_of_filter in Hp as [Hid Hp].
      apply Hfresh. rewrite <- Hid. by apply Hfk. }
    simpl. clear. induction ids as [|u ids IH]; [done|].
    rewrite fmap_cons, filter_cons. simpl.
    by rewrite decide_True, IH by done. }
  assert (participantsOf
            (mkDb (tbl_users db)
               (tbl_threads db
                  ++ [threads.mk newId (Threads.create_name input) now now now])
               (tbl_threadParticipants db
                  ++ ((λ u, threadParticipants.mk newId u now) <$> ids))
               (tbl_messages db)) newId = ids) as Hmembers.
  { unfold participantsOf. simpl. rewrite Hrows, <- list_fmap_compose.
    apply list_fmap_id. }
  simpl threads.id. rewrite Hmembers.
  split; [done|]. split; [apply arrayFromSet_NoDup|]. split.
  - intros u. unfold ids. rewrite arrayFromSet_elem, elem_of_app.
    by rewrite list_elem_of_singleton.
  - unfold Threads.selectParticipants, Threads.participantsJoinUsers.
    cbn [tbl_threadParticipants tbl_users]. rewrite Hrows.
    rewrite <- list_fmap_compose.
    etrans; [apply (join_participants db _ Hpk)|].
    + apply Forall_fmap. by apply (Forall_impl _ _ _ Hall).
    + rewrite <- list_fmap_compose. apply list_fmap_id.
Qed.

(** A names B and C: the thread has A, B and C; naming A as well changes
    nothing but the order. *)
Example create_demo :
  participantsOf
    (store (Threads.create 11 20 (Some 1%Z)
              (Threads.mkCreateInput None [2%Z; 3%Z])) demoDb) 11
  = [2%Z; 3%Z; 1%Z]
  ∧ participantsOf
      (store (Threads.create 11 20 (Some 1%Z)
                (Threads.mkCreateInput None [1%Z; 2%Z; 3%Z])) demoDb) 11
    = [1%Z; 2%Z; 3%Z].
Proof. by vm_compute. Qed.

Lemma demoDb_fk_participant_thread : fk_participant_thread demoDb.
Proof.
  intros p Hp. unfold threadExists.
  simpl in Hp. repeat (apply elem_of_cons in Hp as [->|Hp]); [by left..|].
  by apply elem_of_nil in Hp.
Qed.

Lemma create_participant_set_witness :
  participantsOf
    (store (Threads.create 11 20 (Some 1%Z)
              (Threads.mkCreateInput None [1%Z; 2%Z; 3%Z])) demoDb) 11
  = Threads.arrayFromSet ([1%Z; 2%Z; 3%Z] ++ [1%Z]).
Proof.
  refine (proj1 (create_participant_set demoDb 11%Z 20%Z 1%Z
                   (Threads.mkCreateInput None [1%Z; 2%Z; 3%Z])
                   (threads.mk 11 None 20 20 20)
                   demoDb_pk_users demoDb_fk_participant_thread _)).
  by vm_compute.
Defined.

(** ** User search *)

Lemma logicalAnd_right l r : Users.logicalAnd l r = r.
Proof. done. Qed.

(** C10: the where clause of [users.searchByUsername] is the right operand
    of [&&] alone, the user id differing from the caller's; two valid
    queries by the same caller with the same limit return the same rows,
    the first [limit] users other than the caller, whatever the usernames
    in the store; on a limit that is no integer both are refused by the
    database. *)
Theorem searchByUsername_ignores_username db caller q1 q2 limit
    (Hq1 : Users.searchUsersSchema (Users.mkSearchInput q1 limit) = true)
    (Hq2 : Users.searchUsersSchema (Users.mkSearchInput q2 limit) = true) :
  Users.logicalAnd (Users.ilike_username ("%" +:+ q1 +:+ "%"))
                   (Users.ne_id caller) = Users.ne_id caller
  ∧ result (Users.searchByUsername (Some caller)
              (Users.mkSearchInput q1 limit)) db
    = result (Users.searchByUsername (Some caller)
                (Users.mkSearchInput q2 limit)) db
  ∧ result (Users.searchByUsername (Some caller)
              (Users.mkSearchInput q1 limit)) db
    = match integral limit with
      | Some n =>
          Ok (Users.select
                <$> take (Z.to_nat n)
                      (filter (λ u, users.id u ≠ caller) (tbl_users db)))
      | None => Throw (DatabaseError "22P02")
      end.
Proof.
  split; [done|].
  unfold Users.searchByUsername, protectedProcedure. rewrite Hq1, Hq2.
  unfold Users.searchByUsernameHandler, limited, result, query, throw,
    Users.selectWhere.
  cbn [Users.search_limit Users.search_username].
  rewrite !logicalAnd_right.
  destruct (integral limit) as [n|]; [|done]. simpl. split; [done|].
  do 3 f_equal. apply list_filter_iff. intros u.
  by rewrite bool_decide_spec.
Qed.

(** The search is [users.getAll] cut at [limit]. *)
Lemma searchByUsername_getAll db caller q (limit : nat) :
  result (Users.searchByUsernameHandler caller (Users.mkSearchInput q limit)) db
  = outcome_map (take limit) (result (Users.getAllHandler caller ()) db).
Proof.
  unfold Users.searchByUsernameHandler, Users.getAllHandler, limited, result,
    query, Users.selectWhere.
  cbn [Users.search_limit Users.search_username].
  rewrite integral_nat, logicalAnd_right, Nat2Z.id. simpl.
  by rewrite fmap_take.
Qed.

(** No username of the store contains "zzz", and the search still returns
    the two users other than the caller; with the conjunction of the two
    conditions it would return none. *)
Example searchByUsername_demo :
  Users.id <$> Users.selectWhere
                 (Users.logicalAnd (Users.ilike_username "%zzz%")
                    (Users.ne_id 1)) (Some 10) demoDb
  = [2%Z; 3%Z]
  ∧ Users.selectWhere
      (Users.and (Users.ilike_username "%zzz%") (Users.ne_id 1))
      (Some 10) demoDb = []
  ∧ Users.id <$> Users.selectWhere
                   (Users.and (Users.ilike_username "%LI%") (Users.ne_id 1))
                   (Some 10) demoDb
    = [3%Z].
Proof. by vm_compute. Qed.

Lemma searchByUsername_ignores_username_witness :
  result (Users.searchByUsername (Some 1%Z) (Users.mkSearchInput "zzz" 10))
    demoDb
  = result (Users.searchByUsername (Some 1%Z) (Users.mkSearchInput "bob" 10))
      demoDb.
Proof.
  exact (proj1 (proj2 (searchByUsername_ignores_username demoDb 1%Z
                         "zzz" "bob" 10 eq_refl eq_refl))).
Defined.

(** ** Reconciliation of a new-message event *)

Section ReconciliationFacts.

Variable toISOString : string → string.

Lemma exists_confirmed messageEvent prev :
  existsb
    (λ msg, bool_decide
              (Client.id msg
               = Client.id (Client.newMessageOf toISOString messageEvent)))
    prev = true
  ↔ confirmed messageEvent prev.
Proof.
  rewrite existsb_exists. unfold confirmed. simpl. split.
  - intros (x & Hx & Hid). exists x. apply bool_decide_eq_true in Hid.
    by rewrite list_elem_of_In.
  - intros (x & Hx & Hid). exists x. rewrite <- list_elem_of_In.
    by rewrite bool_decide_eq_true.
Qed.

Lemma handleNewMessage_known messageEvent prev :
  confirmed messageEvent prev →
  Client.handleNewMessage toISOString messageEvent prev = prev.
Proof.
  intros Hc. unfold Client.handleNewMessage.
  by rewrite (proj2 (exists_confirmed messageEvent prev) Hc).
Qed.

Lemma handleNewMessage_unknown messageEvent prev :
  ¬ confirmed messageEvent prev →
  Client.handleNewMessage toISOString messageEvent prev
  = match list_find
            (λ msg, Client.isOptimisticFor
                      (Client.newMessageOf toISOString messageEvent) msg)
            prev with
    | Some (i, _) => <[i := Client.newMessageOf toISOString messageEvent]> prev
    | None => prev ++ [Client.newMessageOf toISOString messageEvent]
    end.
Proof.
  intros Hc. unfold Client.handleNewMessage.
  destruct (existsb _ prev) eqn:E; [|done].
  by apply exists_confirmed in E.
Qed.

Lemma placeholders_insert messageEvent prev i p :
  prev !! i = Some p →
  Client.isOptimisticFor (Client.newMessageOf toISOString messageEvent) p
  = true →
  Js.startsWith "optimistic-" (Client.ev_id messageEvent) = false →
  S (length (placeholders toISOString messageEvent
               (<[i := Client.newMessageOf toISOString messageEvent]> prev)))
  = length (placeholders toISOString messageEvent prev).
Proof.
  intros Hi Hp Hreal. unfold placeholders.
  set (P := λ msg,
         Is_true (Client.isOptimisticFor
                    (Client.newMessageOf toISOString messageEvent) msg)).
  assert (length (filter P prev)
          = length (filter P (take i prev ++ p :: drop (S i) prev))) as ->
    by (by rewrite take_drop_middle).
  rewrite insert_take_drop by (by apply lookup_lt_Some in Hi).
  rewrite !filter_app, !length_app.
  rewrite (filter_cons_True P p) by (by apply Is_true_true).
  rewrite (filter_cons_False P); [simpl; lia|].
  unfold P, Client.isOptimisticFor. simpl. rewrite Hreal. by intros [].
Qed.

(** C9, amended: the updater returns the list unchanged when an entry with
    the event's identifier is there; otherwise it puts the confirmed
    entry in the place of the first placeholder with the event's content
    and sender and keeps the length, or appends it when there is no such
    placeholder. Exactly the replaced placeholder goes: for an event whose
    identifier is not itself a placeholder identifier the list has one
    matching placeholder fewer, and none at all when it had one. *)
Theorem handleNewMessage_reconciles messageEvent prev :
  let newMessage := Client.newMessageOf toISOString messageEvent in
  let next := Client.handleNewMessage toISOString messageEvent prev in
  (confirmed messageEvent prev → next = prev)
  ∧ (¬ confirmed messageEvent prev →
     (∀ i p,
        prev !! i = Some p →
        Client.isOptimisticFor newMessage p = true →
        (∀ j q, prev !! j = Some q → j < i →
                Client.isOptimisticFor newMessage q = false) →
        next = <[i := newMessage]> prev
        ∧ length next = length prev
        ∧ (Js.startsWith "optimistic-" (Client.ev_id messageEvent) = false →
           S (length (placeholders toISOString messageEvent next))
           = length (placeholders toISOString messageEvent prev)
           ∧ (length (placeholders toISOString messageEvent prev) = 1 →
              ¬ holdsBoth toISOString messageEvent next)))
     ∧ (placeholders toISOString messageEvent prev = [] →
        next = prev ++ [newMessage])).
Proof.
  cbn zeta. split; [apply handleNewMessage_known|].
  intros Hc. rewrite (handleNewMessage_unknown _ _ Hc). split.
  - intros i p Hi Hp Hfirst.
    assert (list_find
              (λ msg, Client.isOptimisticFor
                        (Client.newMessageOf toISOString messageEvent) msg)
              prev = Some (i, p)) as ->.
    { apply list_find_Some. split; [done|]. split; [by apply Is_true_true|].
      intros j q Hj Hlt Hq. apply Is_true_true in Hq.
      by rewrite (Hfirst j q Hj Hlt) in Hq. }
    split; [done|]. split; [apply length_insert|].
    intros Hreal.
    pose proof (placeholders_insert messageEvent prev i p Hi Hp Hreal) as Hn.
    split; [done|]. intros Hone [_ Hsome]. apply Hsome.
    rewrite Hone in Hn.
    destruct (placeholders toISOString messageEvent _); [done|simpl in Hn; lia].
  - intros Hnone.
    assert (list_find
              (λ msg, Client.isOptimisticFor
                        (Client.newMessageOf toISOString messageEvent) msg)
              prev = None) as ->; [|done].
    apply list_find_None, Forall_forall. intros x Hx Hopt.
    assert (x ∈ placeholders toISOString messageEvent prev) as Hin
      by (by apply list_elem_of_filter).
    rewrite Hnone in Hin. by apply elem_of_nil in Hin.
Qed.

End ReconciliationFacts.

(** C9, as stated, fails: the sender typed "hi" twice, the list holds two
    placeholders for it, and after the first event the list holds the
    confirmed entry and the second placeholder. *)
Lemma handleNewMessage_keeps_second_placeholder :
  Client.handleNewMessage (λ s, s) demoEvent
    [demoPlaceholder "1"; demoPlaceholder "2"]
  = [Client.newMessageOf (λ s, s) demoEvent; demoPlaceholder "2"]
  ∧ holdsBoth (λ s, s) demoEvent
      (Client.handleNewMessage (λ s, s) demoEvent
         [demoPlaceholder "1"; demoPlaceholder "2"]).
Proof.
  split; [by vm_compute|]. split.
  - exists (Client.newMessageOf (λ s, s) demoEvent). split; [|done].
    by left.
  - by vm_compute.
Qed.

Lemma handleNewMessage_reconciles_witness :
  Client.handleNewMessage (λ s, s) demoEvent
    [demoPlaceholder "1"; demoPlaceholder "2"]
  = <[0 := Client.newMessageOf (λ s, s) demoEvent]>
      [demoPlaceholder "1"; demoPlaceholder "2"].
Proof.
  destruct (handleNewMessage_reconciles (λ s, s) demoEvent
              [demoPlaceholder "1"; demoPlaceholder "2"]) as [_ Hnew].
  refine (proj1 (proj1 (Hnew _) 0 (demoPlaceholder "1") eq_refl eq_refl _)).
  - intros (x & Hx & Hid).
    repeat (apply elem_of_cons in Hx as [->|Hx]); [discriminate Hid..|].
    by apply elem_of_nil in Hx.
  - intros j q _ Hj. lia.
Defined.

(** ** Usernames *)

Lemma length_str l : String.length (Js.str l) = length l.
Proof. induction l as [|c l IH]; [done|]. simpl. by rewrite IH. Qed.

Lemma length_chars s : length (Js.chars s) = String.length s.
Proof. induction s as [|c s IH]; [done|]. simpl. by rewrite IH. Qed.

Lemma length_string_app s1 s2 :
  String.length (s1 +:+ s2) = String.length s1 + String.length s2.
Proof. induction s1 as [|c s1 IH]; [done|]. simpl. by rewrite IH. Qed.

Lemma length_sliceTo n s :
  String.length (Js.sliceTo n s) = n `min` String.length s.
Proof. unfold Js.sliceTo. by rewrite length_str, length_take, length_chars. Qed.

Lemma normaliseUsername_length user :
  String.length (ClerkWebhooks.normaliseUsername user) ≤ 64.
Proof.
  unfold ClerkWebhooks.normaliseUsername. cbn zeta.
  case_bool_decide as Hlong; [|lia].
  rewrite length_sliceTo. lia.
Qed.

(** The padding loop is over within the turns it is given, with a handle of
    four characters at least. *)
Lemma padUsername_length turns randomUUID i username :
  4 ≤ turns + String.length username → String.length username ≤ 64 →
  4 ≤ String.length (ClerkWebhooks.padUsername turns randomUUID i username).1 ≤ 64.
Proof.
  revert i username. induction turns as [|turns IH]; intros i username Hm Hle.
  - simpl. lia.
  - simpl. case_bool_decide as Hshort; [|simpl; lia].
    apply IH; rewrite !length_string_app, length_sliceTo;
      change (String.length "-") with 1; lia.
Qed.

Lemma fallbackUsername_length base uuid :
  String.length uuid = 36 →
  7 ≤ String.length (Js.sliceTo 64 (base +:+ "-" +:+ Js.sliceTo 6 uuid)) ≤ 64.
Proof.
  intros Hu. rewrite length_sliceTo, !length_string_app, length_sliceTo, Hu.
  change (String.length "-") with 1. lia.
Qed.

(** What an upsert leaves in the users table: the rows that were there, or
    a row of the upserted identity with the username of the statement. *)
Lemma insertOnConflictDoUpdate_rows newId now now' v db u :
  u ∈ tbl_users (store (UsersTable.insertOnConflictDoUpdate newId now now' v) db) →
  u ∈ tbl_users db
  ∨ (users.clerkUserId u = UsersTable.v_clerkUserId v
     ∧ users.username u = UsersTable.v_username v).
Proof.
  unfold store, UsersTable.insertOnConflictDoUpdate.
  case_bool_decide; [by left|].
  case_bool_decide; [|case_bool_decide; [by left|]]; simpl.
  - intros Hu. apply list_elem_of_fmap in Hu as (u0 & -> & Hu0).
    case_bool_decide; [by right|by left].
  - intros Hu. apply elem_of_app in Hu as [Hu|Hu]; [by left|].
    apply list_elem_of_singleton in Hu as ->. by right.
Qed.

Lemma insertOnConflictDoUpdate_throws newId now now' v db e :
  result (UsersTable.insertOnConflictDoUpdate newId now now' v) db = Throw e →
  store (UsersTable.insertOnConflictDoUpdate newId now now' v) db = db.
Proof.
  unfold store, result, UsersTable.insertOnConflictDoUpdate.
  repeat case_bool_decide; simpl; done.
Qed.

(** The webhook path keeps the bounds: every row [upsertUser] writes has a
    username of 4 to 64 characters. *)
Lemma upsertUser_username_length lookup randomUUID newId newId' now now' user db u :
  (∀ i, String.length (randomUUID i) = 36) →
  u ∈ tbl_users (store (ClerkWebhooks.upsertUser lookup randomUUID newId newId'
                          now now' user) db) →
  u ∈ tbl_users db ∨ 4 ≤ String.length (users.username u) ≤ 64.
Proof.
  intros Hrnd. unfold ClerkWebhooks.upsertUser.
  pose proof (padUsername_length 4 randomUUID 0
                (ClerkWebhooks.normaliseUsername user)) as Hpad.
  destruct (ClerkWebhooks.padUsername 4 randomUUID 0 _) as [username i].
  destruct (ClerkWebhooks.resolveUserDetails lookup user) as [[e f] l].
  cbn [fst] in Hpad.
  specialize (Hpad ltac:(lia) (normaliseUsername_length user)).
  unfold UsersTable.catchUniqueViolation, store at 1.
  destruct (UsersTable.insertOnConflictDoUpdate newId now now' _ db)
    as [db1 [[]|err]] eqn:Hfirst.
  - intros Hu.
    assert (db1 = store (UsersTable.insertOnConflictDoUpdate newId now now'
                  (UsersTable.mkValues (ClerkWebhooks.id user) username e f l)) db)
      as Hdb1 by (unfold store; by rewrite Hfirst).
    simpl in Hu. rewrite Hdb1 in Hu.
    apply insertOnConflictDoUpdate_rows in Hu as [Hu|[_ Hname]]; [by left|].
    right. by rewrite Hname.
  - assert (db1 = db) as ->.
    { pose proof (insertOnConflictDoUpdate_throws newId now now'
        (UsersTable.mkValues (ClerkWebhooks.id user) username e f l) db err) as Hs.
      unfold store, result in Hs. rewrite Hfirst in Hs. by apply Hs. }
    destruct err as [code|code]; [by left|].
    case_bool_decide; [|by left].
    intros Hu. fold (store (UsersTable.insertOnConflictDoUpdate newId' now now'
      (UsersTable.mkValues (ClerkWebhooks.id user)
         (Js.sliceTo 64 (ClerkWebhooks.normaliseUsername user +:+ "-"
                           +:+ Js.sliceTo 6 (randomUUID i))) e f l)) db) in Hu.
    apply insertOnConflictDoUpdate_rows in Hu as [Hu|[_ Hname]]; [by left|].
    right. rewrite Hname. cbn [UsersTable.v_username].
    pose proof (fallbackUsername_length (ClerkWebhooks.normaliseUsername user)
                  (randomUUID i) (Hrnd i)). lia.
Qed.

(** C3 fails on the code in the first-authentication path: [resolveUser]
    stores the candidate handle as it comes, so a provider username of
    three characters is stored with three characters and a primary address
    of seventy characters is stored with seventy. *)
Theorem resolveUser_username_out_of_bounds :
  users.username
    <$> tbl_users (store (Trpc.resolveUser (λ _, Some clerkBob) demoUUID 4 5 1
                            "user_bob") demoDb)
  = ["alice"; "bobby"; "charlie"; "bob"]
  ∧ String.length
      <$> (users.username
             <$> tbl_users (store (Trpc.resolveUser (λ _, Some clerkLong)
                                     demoUUID 4 5 1 "user_long") demoDb))
    = [5; 5; 7; 70].
Proof. split; by vm_compute. Qed.

(** The fallback of the same path appends to the candidate without cutting:
    a second identity with the provider username "bobby" is stored under a
    handle of twelve characters, and under seventy-one when the candidate
    has sixty-four. *)
Example resolveUser_fallback_demo :
  users.username
    <$> tbl_users (store (Trpc.resolveUser
                            (λ _, Some (ClerkWebhooks.mkClerkUser "user_b2"
                                          (Some "bobby") None None None))
                            demoUUID 4 5 1 "user_b2") demoDb)
  = ["alice"; "bobby"; "charlie"; "bobby-3f2b8c"].
Proof. by vm_compute. Qed.

(** In the webhook path a collision on a handle of sixty-four characters is
    not resolved: the suffix falls to the cut, the fallback handle is the
    base again, and the second identity is not stored. *)
Example upsertUser_long_handle_collision :
  let first := ClerkWebhooks.upsertUser (λ _, None) (λ _, demoUUID) 4 5 1 1
                 (longHandleEvent "user_a") in
  let second := ClerkWebhooks.upsertUser (λ _, None) (λ _, demoUUID) 6 7 2 2
                  (longHandleEvent "user_b") in
  result first demoDb = Ok ()
  ∧ result second (store first demoDb) = Throw (DatabaseError "23505")
  ∧ store second (store first demoDb) = store first demoDb.
Proof. by vm_compute. Qed.

(** Two identities whose handles normalise to the same short base end up
    with distinct handles within the bounds in the webhook path. *)
Example upsertUser_collision_demo :
  let first := ClerkWebhooks.upsertUser (λ _, None) (λ _, demoUUID) 4 5 1 1
                 (ClerkWebhooks.mkEvent "user_a" (Some "Dave") None None None None) in
  let second := ClerkWebhooks.upsertUser (λ _, None) (λ _, demoUUID) 6 7 2 2
                  (ClerkWebhooks.mkEvent "user_b" (Some "dave!") None None None None) in
  users.username <$> tbl_users (store second (store first demoDb))
  = ["alice"; "bobby"; "charlie"; "dave"; "dave-3f2b8c"].
Proof. by vm_compute. Qed.

Example normaliseUsername_demo :
  ClerkWebhooks.normaliseUsername
    (ClerkWebhooks.mkEvent "user_2xYz" None
       (Some [ClerkWebhooks.mkEmail "e1" "John.Doe+x@Example.com"])
       None None None)
  = "john-doe-x"
  ∧ ClerkWebhooks.normaliseUsername
      (ClerkWebhooks.mkEvent "user_2xYz" (Some "ab") None None None None)
    = "abuser"
  ∧ ClerkWebhooks.normaliseUsername
      (ClerkWebhooks.mkEvent "user_2xYz" (Some "--!!--") None None None None)
    = "user-r_2xYz"
  ∧ ClerkWebhooks.normaliseUsername
      (ClerkWebhooks.mkEvent "user_2xYz" None None None None None)
    = "user_2xyz".
Proof. by vm_compute. Qed.

(** ** Sending, editing and deleting *)

Lemma messagesJoinUsers_snoc db row u :
  filter (λ u, users.id u = messages.senderId row) (tbl_users db) = [u] →
  Messages.messagesJoinUsers
    (mkDb (tbl_users db) (tbl_threads db) (tbl_threadParticipants db)
       (tbl_messages db ++ [row]))
  = Messages.messagesJoinUsers db ++ [(row, u)].
Proof.
  intros Hu. unfold Messages.messagesJoinUsers. simpl.
  rewrite bind_app. f_equal. rewrite bind_cons. simpl. rewrite Hu. done.
Qed.

Lemma touchThread_join db t now :
  Messages.messagesJoinUsers (Messages.touchThread t now db)
  = Messages.messagesJoinUsers db.
Proof. done. Qed.

Lemma filter_fresh_id db newId :
  newId ∉ messages.id <$> tbl_messages db →
  filter (λ r : messages.row * users.row, messages.id r.1 = newId)
    (Messages.messagesJoinUsers db) = [].
Proof.
  intros Hfresh. apply elem_of_nil_inv. intros [m u] Hin.
  apply list_elem_of_filter in Hin as [Hid Hin]. simpl in Hid.
  apply messagesJoinUsers_elem in Hin as (Hm & _).
  apply Hfresh. rewrite <- Hid. by apply list_elem_of_fmap_2.
Qed.

(** What a send that passes the guards and the insert does, statement by
    statement, whatever fails afterwards. *)
Lemma send_step db faults newId now now' caller t content :
  userExists db caller → threadExists db t → isParticipant db t caller →
  Messages.sendSchema (Messages.mkSendInput t content) = true →
  holdsNul content = false →
  newId ∉ messages.id <$> tbl_messages db →
  let row := messages.mk newId t caller content now now None false in
  let written :=
    mkDb (tbl_users db) (tbl_threads db) (tbl_threadParticipants db)
      (tbl_messages db ++ [row]) in
  Messages.send faults newId now now' (Some caller)
    (Messages.mkSendInput t content) db
  = match Messages.fault_update faults with
    | Some sqlstate => (written, Throw (DatabaseError sqlstate))
    | None =>
        match Messages.fault_select faults with
        | Some sqlstate =>
            (Messages.touchThread t now' written,
             Throw (DatabaseError sqlstate))
        | None =>
            (Messages.touchThread t now' written,
             Ok (head (Messages.selectMessageById newId
                         (Messages.touchThread t now' written))))
        end
    end.
Proof.
  intros Hcaller Ht Hp Hv Htext Hfresh row written.
  unfold Messages.send, protectedProcedure. rewrite Hv.
  unfold Messages.sendHandler, Messages.attempt, mbind, proc_bind, query,
    throw, mret, proc_ret, execute.
  cbn [Messages.send_threadId Messages.send_content].
  rewrite (selectThread_nonempty _ _ Ht),
    (selectParticipation_nonempty _ _ _ Hp).
  unfold Messages.insertMessage. rewrite Htext.
  rewrite bool_decide_eq_false_2 by done.
  rewrite bool_decide_eq_false_2 by (intros [H|H]; by apply H).
  cbn [head messages.id]. fold row. fold written.
  by destruct (Messages.fault_update faults), (Messages.fault_select faults).
Qed.

(** X1: a participant sends a message to an existing thread, the content
    holds no character U+0000 and no statement fails. The row is appended
    with the content, the caller as sender, both timestamps at the insert
    time, no edit time and the flag off; the thread's [lastMessageAt] is
    set to the later clock reading; the procedure returns the row joined
    with its sender. *)
Theorem send_appends_message db newId now now' caller t content
    (Hpk : pk_users db) (Hcaller : userExists db caller)
    (Ht : threadExists db t) (Hp : isParticipant db t caller)
    (Hv : Messages.sendSchema (Messages.mkSendInput t content) = true)
    (Htext : holdsNul content = false)
    (Hfresh : newId ∉ messages.id <$> tbl_messages db) :
  let call := Messages.send Messages.noFaults newId now now' (Some caller)
                (Messages.mkSendInput t content) in
  let row := messages.mk newId t caller content now now None false in
  (∃ u, u ∈ tbl_users db ∧ users.id u = caller
        ∧ result call db = Ok (Some (Messages.select (row, u))))
  ∧ tbl_messages (store call db) = tbl_messages db ++ [row]
  ∧ tbl_threads (store call db)
    = (λ th, if bool_decide (threads.id th = t)
             then threads.mk (threads.id th) (threads.name th)
                    (threads.createdAt th) (threads.updatedAt th) now'
             else th) <$> tbl_threads db
  ∧ tbl_users (store call db) = tbl_users db
  ∧ tbl_threadParticipants (store call db) = tbl_threadParticipants db.
Proof.
  intros call row.
  destruct (selectUser_unique db caller Hpk Hcaller) as (u & Hu & Hid).
  assert (u ∈ tbl_users db) as Hin.
  { assert (u ∈ filter (λ u, users.id u = caller) (tbl_users db)) as H
      by (rewrite Hu; left).
    by apply list_elem_of_filter in H as [_ H]. }
  assert (call db
          = (Messages.touchThread t now'
               (mkDb (tbl_users db) (tbl_threads db) (tbl_threadParticipants db)
                  (tbl_messages db ++ [row])),
             Ok (Some (Messages.select (row, u))))) as Hcall.
  { unfold call.
    rewrite (send_step db Messages.noFaults newId now now' caller t content)
      by done.
    cbn [Messages.noFaults Messages.fault_update Messages.fault_select].
    fold row. unfold Messages.selectMessageById.
    rewrite touchThread_join, (messagesJoinUsers_snoc db row u Hu).
    rewrite filter_app, (filter_fresh_id db newId Hfresh).
    rewrite filter_cons_True by done. done. }
  unfold result, store. rewrite Hcall. simpl.
  split; [by exists u|]. done.
Qed.

Lemma send_appends_message_witness :
  tbl_messages
    (store (Messages.send Messages.noFaults 104 9 10 (Some 1%Z)
              (Messages.mkSendInput 10 "hey"))
       demoDb)
  = tbl_messages demoDb ++ [messages.mk 104 10 1 "hey" 9 9 None false].
Proof.
  refine (proj1 (proj2 (send_appends_message demoDb 104%Z 9%Z 10%Z 1%Z 10%Z
                          "hey" demoDb_pk_users _ demoDb_thread
                          demoDb_participant_1 eq_refl eq_refl _))).
  - unfold userExists. simpl. left.
  - apply (bool_decide_unpack
             (104%Z ∉ messages.id <$> tbl_messages demoDb)).
    by vm_compute.
Defined.

(** X2: what [messages.send] has written when it throws. An error of the
    procedure's own (a [TRPCError]) leaves the store as it was. Any error
    leaves the store as it was, or is the error of the update of the
    thread or of the closing select, and then the message row is written.
    The send is not one transaction: when the update of the thread fails
    after the guards and the insert have gone through, the caller gets
    the error, the message row stays and the threads are as they were.
    The procedure throws BAD_REQUEST on an empty content and on a content
    of more than 1000 characters. *)
Theorem send_partial_failure db faults newId now now' auth input :
  let call := Messages.send faults newId now now' auth input in
  (∀ code, result call db = Throw (TRPCError code) → store call db = db)
  ∧ (∀ e, result call db = Throw e →
       store call db = db
       ∨ ∃ caller sqlstate,
           auth = Some caller ∧ e = DatabaseError sqlstate
           ∧ (Messages.fault_update faults = Some sqlstate
              ∨ Messages.fault_select faults = Some sqlstate)
           ∧ tbl_messages (store call db)
             = tbl_messages db
               ++ [messages.mk newId (Messages.send_threadId input) caller
                     (Messages.send_content input) now now None false])
  ∧ (∀ caller sqlstate,
       auth = Some caller → userExists db caller →
       threadExists db (Messages.send_threadId input) →
       isParticipant db (Messages.send_threadId input) caller →
       Messages.sendSchema input = true →
       holdsNul (Messages.send_content input) = false →
       newId ∉ messages.id <$> tbl_messages db →
       Messages.fault_update faults = Some sqlstate →
       result call db = Throw (DatabaseError sqlstate)
       ∧ tbl_messages (store call db)
         = tbl_messages db
           ++ [messages.mk newId (Messages.send_threadId input) caller
                 (Messages.send_content input) now now None false]
       ∧ tbl_threads (store call db) = tbl_threads db)
  ∧ (∀ caller, auth = Some caller →
       String.length (Messages.send_content input) = 0
       ∨ 1000 < String.length (Messages.send_content input) →
       fails call db BAD_REQUEST).
Proof.
  cbn zeta.
  assert (∀ e,
    result (Messages.send faults newId now now' auth input) db = Throw e →
    store (Messages.send faults newId now now' auth input) db = db
    ∨ ∃ caller sqlstate,
        auth = Some caller ∧ e = DatabaseError sqlstate
        ∧ (Messages.fault_update faults = Some sqlstate
           ∨ Messages.fault_select faults = Some sqlstate)
        ∧ tbl_messages
            (store (Messages.send faults newId now now' auth input) db)
          = tbl_messages db
            ++ [messages.mk newId (Messages.send_threadId input) caller
                  (Messages.send_content input) now now None false])
    as Hthrows.
  { intros e. unfold Messages.send, protectedProcedure.
    destruct auth as [caller|]; [|by left].
    destruct (Messages.sendSchema input); [|by left].
    unfold Messages.sendHandler, Messages.attempt, result, store, mbind,
      proc_bind, query, throw, mret, proc_ret, execute.
    destruct (isEmpty (selectThread _ db)); [by left|].
    destruct (isEmpty (selectParticipation _ _ db)); [by left|].
    unfold Messages.insertMessage.
    destruct (holdsNul _); [by left|].
    case_bool_decide; [by left|]. case_bool_decide; [by left|].
    cbn [head fst snd].
    destruct (Messages.fault_update faults) as [c|] eqn:Hu.
    - intros [= <-]. right. exists caller, c.
      split; [done|]. split; [done|]. split; [by left|done].
    - destruct (Messages.fault_select faults) as [c|] eqn:Hs; [|done].
      intros [= <-]. right. exists caller, c.
      split; [done|]. split; [done|]. split; [by right|done]. }
  split; [|split; [exact Hthrows|split]].
  - intros code Hcode. destruct (Hthrows _ Hcode) as [?|(? & ? & _ & ? & _)];
      done.
  - intros caller sqlstate -> Hcaller Ht Hp Hv Htext Hfresh Hfault.
    destruct input as [t content]. cbn [Messages.send_threadId
      Messages.send_content] in *.
    unfold result, store.
    rewrite (send_step db faults newId now now' caller t content) by done.
    by rewrite Hfault.
  - intros caller -> Hlen. unfold Messages.send, protectedProcedure, fails.
    unfold Messages.sendSchema. rewrite bool_decide_eq_false_2; [done|lia].
Qed.

Lemma send_partial_failure_witness :
  result (Messages.send (Messages.mkFaults (Some "08006") None) 104 9 10
            (Some 1%Z) (Messages.mkSendInput 10 "hey")) demoDb
  = Throw (DatabaseError "08006")
  ∧ tbl_messages
      (store (Messages.send (Messages.mkFaults (Some "08006") None) 104 9 10
                (Some 1%Z) (Messages.mkSendInput 10 "hey")) demoDb)
    = tbl_messages demoDb ++ [messages.mk 104 10 1 "hey" 9 9 None false]
  ∧ tbl_threads
      (store (Messages.send (Messages.mkFaults (Some "08006") None) 104 9 10
                (Some 1%Z) (Messages.mkSendInput 10 "hey")) demoDb)
    = tbl_threads demoDb.
Proof.
  refine (proj1 (proj2 (proj2
            (send_partial_failure demoDb (Messages.mkFaults (Some "08006") None)
               104%Z 9%Z 10%Z (Some 1%Z) (Messages.mkSendInput 10 "hey"))))
            1%Z "08006" eq_refl _ demoDb_thread demoDb_participant_1
            eq_refl eq_refl _ eq_refl).
  - unfold userExists. simpl. left.
  - apply (bool_decide_unpack
             (104%Z ∉ messages.id <$> tbl_messages demoDb)).
    by vm_compute.
Defined.

Lemma updateMessages_other db messageId set x :
  x ∈ tbl_messages db → messages.id x ≠ messageId →
  x ∈ tbl_messages (Messages.updateMessages messageId set db).
Proof.
  intros Hin Hne. simpl. apply list_elem_of_fmap.
  exists x. by rewrite bool_decide_eq_false_2.
Qed.

Lemma edit_owner_step db now now' caller m content :
  pk_messages db → m ∈ tbl_messages db → messages.senderId m = caller →
  messages.isDeleted m = false →
  Messages.editSchema (Messages.mkEditInput (messages.id m) content) = true →
  holdsNul content = false →
  Messages.edit now now' (Some caller)
    (Messages.mkEditInput (messages.id m) content) db
  = (Messages.updateMessages (messages.id m)
       (Messages.setEdited content now now') db, Ok true).
Proof.
  intros Hpk Hin Hown Hlive Hv Htext. unfold Messages.edit, protectedProcedure.
  rewrite Hv. unfold Messages.editHandler, Messages.updateContent, mbind,
    proc_bind, query, throw, mret, proc_ret, execute.
  cbn [Messages.edit_messageId Messages.edit_content].
  rewrite (selectMessage_pk db m Hpk Hin). cbn [head].
  rewrite bool_decide_eq_false_2 by (intros Hne; by apply Hne).
  by rewrite Hlive, Htext.
Qed.

(** X3: the sender edits a message that is not deleted, with a content
    that holds no character U+0000, which the database would refuse. The
    call succeeds; the row gets the new content, the edit time and the
    update time and keeps its other columns; every other message is left
    as it was; and a page of [messages.list] that shows the message
    afterwards shows the new content with the [Date] of the edit time. *)
Theorem edit_then_list db now now' caller m content
    (Hpk : pk_messages db) (Hin : m ∈ tbl_messages db)
    (Hown : messages.senderId m = caller)
    (Hlive : messages.isDeleted m = false)
    (Hv : Messages.editSchema (Messages.mkEditInput (messages.id m) content)
          = true)
    (Htext : holdsNul content = false) :
  let call := Messages.edit now now' (Some caller)
                (Messages.mkEditInput (messages.id m) content) in
  let db' := store call db in
  result call db = Ok true
  ∧ Messages.selectMessage (messages.id m) db'
    = [messages.mk (messages.id m) (messages.threadId m) (messages.senderId m)
         content (messages.createdAt m) now' (Some now) false]
  ∧ (∀ x, x ∈ tbl_messages db → messages.id x ≠ messages.id m →
          x ∈ tbl_messages db')
  ∧ (∀ auth limit cursor out v,
       result (Messages.list auth
                 (Messages.mkListInput (messages.threadId m) limit cursor)) db'
         = Ok out →
       v ∈ Messages.out_messages out → Messages.id v = messages.id m →
       Messages.content v = content
       ∧ Messages.editedAt v = Some (toDate now)).
Proof.
  intros call db'.
  pose proof (edit_owner_step db now now' caller m content Hpk Hin Hown Hlive
                Hv Htext) as Hstep.
  assert (db' = Messages.updateMessages (messages.id m)
                  (Messages.setEdited content now now') db) as Hdb'
    by (unfold db', store, call; by rewrite Hstep).
  assert (pk_messages db') as Hpk'
    by (rewrite Hdb'; by apply updateMessages_pk).
  assert (Messages.setEdited content now now' m ∈ tbl_messages db') as Hin'
    by (rewrite Hdb'; by apply updateMessages_elem).
  split; [unfold result, call; by rewrite Hstep|]. split; [|split].
  - rewrite <- Hlive.
    exact (selectMessage_pk db' (Messages.setEdited content now now' m) Hpk' Hin').
  - intros x Hx Hne. rewrite Hdb'. by apply updateMessages_other.
  - intros auth limit cursor out v Hok Hv' Hid.
    apply list_returns in Hok as (c & n & _ & _ & _ & _ & _ & Hout).
    rewrite Hout, elem_of_reverse in Hv'.
    apply selectMessages_elem in Hv' as (m' & u & -> & Hm' & _).
    simpl in Hid.
    assert (m' = Messages.setEdited content now now' m) as ->; [|done].
    by apply (unique_key_inj messages.id (tbl_messages db')).
Qed.

Lemma edit_then_list_witness :
  result (Messages.edit 9 10 (Some 1%Z) (Messages.mkEditInput 100 "hello!"))
    demoDb = Ok true.
Proof.
  assert (messages.mk 100 10 1 "hello" 5 5 None false ∈ tbl_messages demoDb)
    as Hin by (simpl; left).
  exact (proj1 (edit_then_list demoDb 9%Z 10%Z 1%Z _ "hello!"
                  demoDb_pk_messages Hin eq_refl eq_refl eq_refl eq_refl)).
Defined.

(** X4: once its sender has deleted a message, an edit of it by the sender
    fails with BAD_REQUEST and writes nothing, so the content stays what it
    was before the delete. *)
Theorem edit_after_delete db caller m now now1 now2 content
    (Hpk : pk_messages db) (Hin : m ∈ tbl_messages db)
    (Hown : messages.senderId m = caller)
    (Hlive : messages.isDeleted m = false)
    (Hv : Messages.editSchema (Messages.mkEditInput (messages.id m) content)
          = true) :
  let db1 := store (Messages.delete now (Some caller) (messages.id m)) db in
  let call := Messages.edit now1 now2 (Some caller)
                (Messages.mkEditInput (messages.id m) content) in
  fails call db1 BAD_REQUEST
  ∧ store call db1 = db1
  ∧ messages.content <$> tbl_messages db1 = messages.content <$> tbl_messages db.
Proof.
  intros db1 call.
  assert (db1 = Messages.updateMessages (messages.id m)
                  (Messages.setDeleted now) db) as Hdb1.
  { unfold db1, store, Messages.delete, protectedProcedure,
      Messages.deleteHandler, mbind, proc_bind, query, throw, mret, proc_ret,
      execute.
    rewrite (selectMessage_pk db m Hpk Hin). cbn [head].
    rewrite bool_decide_eq_false_2 by (intros Hne; by apply Hne).
    by rewrite Hlive. }
  assert (Messages.selectMessage (messages.id m) db1
          = [Messages.setDeleted now m]) as Hsel.
  { rewrite Hdb1. apply (selectMessage_pk _ (Messages.setDeleted now m)).
    - by apply updateMessages_pk.
    - by apply updateMessages_elem. }
  assert (call db1 = (db1, Throw (TRPCError BAD_REQUEST))) as Hcall.
  { unfold call, Messages.edit, protectedProcedure. rewrite Hv.
    unfold Messages.editHandler, mbind, proc_bind, query, throw.
    cbn [Messages.edit_messageId]. rewrite Hsel. cbn [head].
    by rewrite bool_decide_eq_false_2 by (intros Hne; by apply Hne). }
  unfold fails, result, store. rewrite Hcall. simpl.
  split; [done|]. split; [done|].
  rewrite Hdb1. apply updateMessages_content.
Qed.

Lemma edit_after_delete_witness :
  fails (Messages.edit 12 13 (Some 1%Z) (Messages.mkEditInput 100 "again"))
    (store (Messages.delete 9 (Some 1%Z) 100%Z) demoDb) BAD_REQUEST.
Proof.
  assert (messages.mk 100 10 1 "hello" 5 5 None false ∈ tbl_messages demoDb)
    as Hin by (simpl; left).
  exact (proj1 (edit_after_delete demoDb 1%Z _ 9%Z 12%Z 13%Z "again"
                  demoDb_pk_messages Hin eq_refl eq_refl eq_refl)).
Defined.

Lemma Forall2_fmap_self {A} (R : A → A → Prop) (f : A → A) (l : list A) :
  (∀ x, R x (f x)) → Forall2 R l (f <$> l).
Proof. intros H. induction l; constructor; auto. Qed.

Lemma keepsHistory_refl l : Forall2 keepsHistory l l.
Proof. induction l; constructor; [by repeat split|done]. Qed.

(** X5: no call of [messages.edit] or [messages.delete], by anyone and with
    any outcome, changes the identifier, the thread, the sender or the
    creation time of a message, clears a delete flag, or adds or removes a
    row; [messages.send] leaves every row that was there as it was and
    adds one row at most. *)
Theorem messages_router_keeps_history db auth :
  (∀ now now' input,
     Forall2 keepsHistory (tbl_messages db)
       (tbl_messages (store (Messages.edit now now' auth input) db)))
  ∧ (∀ now messageId,
       Forall2 keepsHistory (tbl_messages db)
         (tbl_messages (store (Messages.delete now auth messageId) db)))
  ∧ (∀ faults newId now now' input,
       ∃ added,
         tbl_messages (store (Messages.send faults newId now now' auth input) db)
         = tbl_messages db ++ added
         ∧ length added ≤ 1).
Proof.
  split; [|split].
  - intros now now' input. unfold Messages.edit, protectedProcedure, store.
    destruct auth as [caller|]; [|apply keepsHistory_refl].
    destruct (Messages.editSchema input); [|apply keepsHistory_refl].
    unfold Messages.editHandler, Messages.updateContent, mbind, proc_bind,
      query, throw, mret, proc_ret, execute.
    destruct (head _) as [existing|]; [|apply keepsHistory_refl].
    case_bool_decide; [apply keepsHistory_refl|].
    destruct (messages.isDeleted existing); [apply keepsHistory_refl|].
    destruct (holdsNul _); [apply keepsHistory_refl|].
    simpl. apply Forall2_fmap_self. intros x.
    case_bool_decide; by repeat split.
  - intros now messageId. unfold Messages.delete, protectedProcedure, store.
    destruct auth as [caller|]; [|apply keepsHistory_refl].
    unfold Messages.deleteHandler, mbind, proc_bind, query, throw, mret,
      proc_ret, execute.
    destruct (head _) as [existing|]; [|apply keepsHistory_refl].
    case_bool_decide; [apply keepsHistory_refl|].
    destruct (messages.isDeleted existing); [apply keepsHistory_refl|].
    simpl. apply Forall2_fmap_self. intros x.
    case_bool_decide; by repeat split.
  - intros faults newId now now' input.
    unfold Messages.send, protectedProcedure, store.
    assert (∃ added, tbl_messages db = tbl_messages db ++ added
                     ∧ length added ≤ 1) as Hsame
      by (exists []; rewrite app_nil_r; simpl; split; [done|lia]).
    destruct auth as [caller|]; [|done].
    destruct (Messages.sendSchema input); [|done].
    unfold Messages.sendHandler, Messages.attempt, mbind, proc_bind, query,
      throw, mret, proc_ret, execute.
    destruct (isEmpty (selectThread _ db)); [done|].
    destruct (isEmpty (selectParticipation _ _ db)); [done|].
    unfold Messages.insertMessage.
    destruct (holdsNul _); [done|].
    case_bool_decide; [done|]. case_bool_decide; [done|].
    cbn [head].
    destruct (Messages.fault_update faults), (Messages.fault_select faults);
      cbn [fst tbl_messages Messages.touchThread];
      (eexists; split; [done|]; simpl; lia).
Qed.

(** ** Threads: participants, lookup and listing *)

Lemma addParticipant_step db now caller t target :
  isParticipant db t caller →
  Threads.addParticipant now (Some caller)
    (Threads.mkAddParticipantInput t target) db
  = if isEmpty (selectUser target db)
    then (db, Throw (TRPCError NOT_FOUND))
    else if negb (isEmpty (selectParticipation t target db))
    then (db, Throw (TRPCError BAD_REQUEST))
    else match Threads.insertParticipants now [(t, target)] db with
         | (db', Ok _) => (db', Ok true)
         | (db', Throw e) => (db', Throw e)
         end.
Proof.
  intros Hp. unfold Threads.addParticipant, protectedProcedure,
    Threads.addParticipantHandler, mbind, proc_bind, query, throw, mret,
    proc_ret.
  cbn [Threads.add_threadId Threads.add_userId].
  rewrite (selectParticipation_nonempty _ _ _ Hp).
  destruct (isEmpty (selectUser target db)); [done|].
  destruct (isEmpty (selectParticipation t target db)); [|done].
  simpl. by destruct (Threads.insertParticipants now [(t, target)] db) as [? []].
Qed.

Lemma selectUser_empty db u :
  isEmpty (selectUser u db) = true ↔ ¬ userExists db u.
Proof.
  unfold selectUser, userExists. rewrite isEmpty_take_filter.
  rewrite list_elem_of_fmap. split.
  - intros Hall (x & Hx & Hin). by apply (Hall x Hin).
  - intros Hno x Hin Hx. apply Hno. by exists x.
Qed.

(** X6: a participant adds a user to a thread. An unknown user is refused
    with NOT_FOUND and a user who already participates with BAD_REQUEST,
    both without a write; otherwise the call succeeds and adds exactly the
    one participant row, after which the same call is refused with
    BAD_REQUEST. *)
Theorem addParticipant_outcomes db now caller t target
    (Hpk : pk_participants db) (Hfk : fk_participant_thread db)
    (Hp : isParticipant db t caller) :
  let call := Threads.addParticipant now (Some caller)
                (Threads.mkAddParticipantInput t target) in
  (¬ userExists db target →
     fails call db NOT_FOUND ∧ store call db = db)
  ∧ (userExists db target → isParticipant db t target →
     fails call db BAD_REQUEST ∧ store call db = db)
  ∧ (userExists db target → ¬ isParticipant db t target →
     result call db = Ok true
     ∧ tbl_threadParticipants (store call db)
       = tbl_threadParticipants db ++ [threadParticipants.mk t target now]
     ∧ participantsOf (store call db) t = participantsOf db t ++ [target]
     ∧ ∀ now', fails (Threads.addParticipant now' (Some caller)
                        (Threads.mkAddParticipantInput t target))
                 (store call db) BAD_REQUEST).
Proof.
  intros call. unfold call, fails, result, store.
  rewrite (addParticipant_step db now caller t target Hp).
  split; [|split].
  - intros Hno. apply selectUser_empty in Hno. by rewrite Hno.
  - intros Hu Ht.
    destruct (isEmpty (selectUser target db)) eqn:E;
      [by apply selectUser_empty in E|].
    by rewrite (selectParticipation_nonempty _ _ _ Ht).
  - intros Hu Hnt.
    destruct (isEmpty (selectUser target db)) eqn:E;
      [by apply selectUser_empty in E|].
    rewrite (proj2 (selectParticipation_empty db t target) Hnt). simpl.
    unfold Threads.insertParticipants.
    rewrite bool_decide_eq_false_2.
    2:{ intros Hdup. apply Hdup. apply NoDup_app. split; [exact Hpk|].
        split; [|apply NoDup_singleton].
        intros x Hx Hx'. apply list_elem_of_singleton in Hx' as ->. done. }
    rewrite bool_decide_eq_false_2.
    2:{ intros Hex. apply Exists_cons in Hex as [[H|H]|Hex].
        - apply H. simpl. unfold isParticipant in Hp.
          apply list_elem_of_fmap in Hp as (p & Hk & Hin).
          unfold Threads.participantKey in Hk. simplify_eq. by apply Hfk.
        - by apply H.
        - by apply Exists_nil in Hex. }
    cbn [fst snd fmap list_fmap]. split; [done|]. split; [done|]. split.
    + unfold participantsOf. simpl.
      rewrite filter_app, fmap_app, filter_cons_True by done. done.
    + intros now'.
      set (db' := mkDb _ _ _ _).
      assert (isParticipant db' t caller) as Hp'.
      { unfold isParticipant, db'. simpl. rewrite fmap_app.
        apply elem_of_app. by left. }
      assert (isParticipant db' t target) as Ht'.
      { unfold isParticipant, db'. simpl. rewrite fmap_app.
        apply elem_of_app. right. left. }
      change (Threads.addParticipantHandler now' caller
                (Threads.mkAddParticipantInput t target) db')
        with (Threads.addParticipant now' (Some caller)
                (Threads.mkAddParticipantInput t target) db').
      rewrite (addParticipant_step db' now' caller t target Hp').
      assert (isEmpty (selectUser target db') = false) as ->.
      { destruct (isEmpty (selectUser target db')) eqn:E'; [|done].
        by apply selectUser_empty in E'. }
      by rewrite (selectParticipation_nonempty _ _ _ Ht').
Qed.

Lemma demoDb_pk_participants : pk_participants demoDb.
Proof.
  apply (bool_decide_unpack
           (NoDup (Threads.participantKey <$> tbl_threadParticipants demoDb))).
  by vm_compute.
Qed.

Lemma addParticipant_outcomes_witness :
  result (Threads.addParticipant 9 (Some 1%Z)
            (Threads.mkAddParticipantInput 10 3)) demoDb = Ok true
  ∧ fails (Threads.addParticipant 9 (Some 1%Z)
             (Threads.mkAddParticipantInput 10 2)) demoDb BAD_REQUEST
  ∧ fails (Threads.addParticipant 9 (Some 1%Z)
             (Threads.mkAddParticipantInput 10 4)) demoDb NOT_FOUND.
Proof.
  pose proof (λ target, addParticipant_outcomes demoDb 9%Z 1%Z 10%Z target
                          demoDb_pk_participants demoDb_fk_participant_thread
                          demoDb_participant_1) as H.
  split; [|split].
  - refine (proj1 (proj2 (proj2 (H 3%Z)) _ _)).
    + unfold userExists. simpl. do 2 right. left.
    + apply (bool_decide_unpack (¬ isParticipant demoDb 10 3)). by vm_compute.
  - refine (proj1 (proj1 (proj2 (H 2%Z)) _ _)).
    + unfold userExists. simpl. right. left.
    + unfold isParticipant. simpl. right. left.
  - refine (proj1 (proj1 (H 4%Z) _)).
    apply (bool_decide_unpack (¬ userExists demoDb 4)). by vm_compute.
Defined.

Lemma participantsJoinUsers_pairs db t :
  pk_users db → fk_participant_user db →
  (λ r : threadParticipants.row * users.row,
     (users.id r.2, threadParticipants.joinedAt r.1))
    <$> Threads.participantsJoinUsers t db
  = (λ p, (threadParticipants.userId p, threadParticipants.joinedAt p))
      <$> filter (λ p, threadParticipants.threadId p = t)
            (tbl_threadParticipants db).
Proof.
  intros Hpk Hfk. unfold Threads.participantsJoinUsers.
  assert (∀ p, p ∈ filter (λ p, threadParticipants.threadId p = t)
                     (tbl_threadParticipants db) →
               userExists db (threadParticipants.userId p)) as Hall.
  { intros p Hp. apply list_elem_of_filter in Hp as [_ Hp]. by apply Hfk. }
  induction (filter _ (tbl_threadParticipants db)) as [|p rows IH]; [done|].
  rewrite bind_cons, fmap_app, IH.
  - destruct (selectUser_unique db _ Hpk (Hall p ltac:(left))) as (u & -> & Hid).
    simpl. by rewrite Hid.
  - intros q Hq. apply Hall. by right.
Qed.

Lemma participantsJoinUsers_elem db t r :
  r ∈ Threads.participantsJoinUsers t db →
  r.2 ∈ tbl_users db ∧ users.id r.2 = threadParticipants.userId r.1.
Proof.
  unfold Threads.participantsJoinUsers. intros Hr.
  apply list_elem_of_bind in Hr as (p & Hr & _).
  apply list_elem_of_bind in Hr as (u & Hr & Hu).
  apply list_elem_of_singleton in Hr as ->.
  by apply list_elem_of_filter in Hu as [? ?].
Qed.

(** X7: a participant reads a thread that exists. [threads.getById] returns
    a row of that thread together with the thread's participants: up to
    the order of the list, which the query leaves open, they are the users
    of the thread's participant rows, one per row and each with the join
    time of its row; each is shown under the username of its user row; the
    caller is among them. *)
Theorem getById_returns db caller t
    (Hpk : pk_users db) (Hfk : fk_participant_user db)
    (Ht : threadExists db t) (Hp : isParticipant db t caller) :
  ∃ out,
    result (Threads.getById (Some caller) t) db = Ok out
    ∧ Threads.thread out ∈ tbl_threads db
    ∧ threads.id (Threads.thread out) = t
    ∧ ((λ r, (Threads.participant_id r.1, r.2)) <$> Threads.participants out
       ≡ₚ (λ p, (threadParticipants.userId p, threadParticipants.joinedAt p))
            <$> filter (λ p, threadParticipants.threadId p = t)
                  (tbl_threadParticipants db))
    ∧ (∀ r, r ∈ Threads.participants out →
         ∃ u, u ∈ tbl_users db
              ∧ users.id u = Threads.participant_id r.1
              ∧ users.username u = Threads.participant_username r.1)
    ∧ caller ∈ participantsOf db t.
Proof.
  destruct (selectThread_head db t Ht) as (th & Hhead & Hin & Hid).
  exists (Threads.mkThreadWithParticipants th
            (Threads.selectParticipantsJoined t db)).
  split.
  { unfold Threads.getById, protectedProcedure, Threads.getByIdHandler, result,
      mbind, proc_bind, query, throw, mret, proc_ret.
    rewrite (selectParticipation_nonempty _ _ _ Hp). by rewrite Hhead. }
  cbn [Threads.thread Threads.participants].
  split; [done|]. split; [done|].
  unfold Threads.selectParticipantsJoined, participantsOf.
  split; [|split].
  - rewrite <- list_fmap_compose.
    by rewrite <- (participantsJoinUsers_pairs db t Hpk Hfk).
  - intros r Hr. apply list_elem_of_fmap in Hr as (r' & -> & Hr').
    apply participantsJoinUsers_elem in Hr' as [Hu _].
    by exists r'.2.
  - unfold isParticipant in Hp.
    apply list_elem_of_fmap in Hp as (p & Hk & Hp).
    unfold Threads.participantKey in Hk. simplify_eq.
    apply list_elem_of_fmap. exists p. split; [done|].
    by apply list_elem_of_filter.
Qed.

Lemma demoDb_fk_participant_user : fk_participant_user demoDb.
Proof.
  intros p Hp. unfold userExists.
  simpl in Hp. repeat (apply elem_of_cons in Hp as [->|Hp]).
  - simpl. left.
  - simpl. right. left.
  - by apply elem_of_nil in Hp.
Qed.

Lemma getById_returns_witness :
  ∃ out,
    result (Threads.getById (Some 2%Z) 10%Z) demoDb = Ok out
    ∧ Threads.thread out ∈ tbl_threads demoDb
    ∧ threads.id (Threads.thread out) = 10%Z
    ∧ ((λ r, (Threads.participant_id r.1, r.2)) <$> Threads.participants out
       ≡ₚ (λ p, (threadParticipants.userId p, threadParticipants.joinedAt p))
            <$> filter (λ p, threadParticipants.threadId p = 10%Z)
                  (tbl_threadParticipants demoDb))
    ∧ (∀ r, r ∈ Threads.participants out →
         ∃ u, u ∈ tbl_users demoDb
              ∧ users.id u = Threads.participant_id r.1
              ∧ users.username u = Threads.participant_username r.1)
    ∧ 2%Z ∈ participantsOf demoDb 10.
Proof.
  apply (getById_returns demoDb 2%Z 10%Z demoDb_pk_users
           demoDb_fk_participant_user demoDb_thread).
  unfold isParticipant. simpl. right. left.
Defined.

(** X8: after a successful [threads.create], the creator and every user
    named in the call can read the new thread: [threads.getById] on the
    returned identifier succeeds for each of them and returns the thread
    that [threads.create] returned. *)
Theorem create_then_getById db newId now caller input thread u
    (Hok : result (Threads.create newId now (Some caller) input) db = Ok thread)
    (Hu : u ∈ Threads.participantIds input ∨ u = caller) :
  let db' := store (Threads.create newId now (Some caller) input) db in
  ∃ out, result (Threads.getById (Some u) (threads.id thread)) db' = Ok out
         ∧ Threads.thread out = thread.
Proof.
  destruct (create_ok _ _ _ _ _ _ Hok) as (-> & Hfresh & _ & Hdb').
  cbn zeta. rewrite Hdb'. clear Hdb'. cbn [threads.id].
  set (thread := threads.mk newId (Threads.create_name input) now now now).
  set (db' := mkDb _ _ _ _).
  assert (isParticipant db' newId u) as Hp.
  { unfold isParticipant, db'. cbn [tbl_threadParticipants].
    rewrite fmap_app. apply elem_of_app. right.
    rewrite <- list_fmap_compose.
    apply list_elem_of_fmap. exists u. split; [done|].
    apply arrayFromSet_elem. rewrite elem_of_app, list_elem_of_singleton.
    done. }
  assert (selectThread newId db' = [thread]) as Hsel.
  { unfold selectThread, db'. cbn [tbl_threads].
    rewrite filter_app.
    assert (filter (λ t, threads.id t = newId) (tbl_threads db) = []) as ->.
    { apply elem_of_nil_inv. intros th Hth.
      apply list_elem_of_filter in Hth as [Hid Hth].
      apply Hfresh. unfold threadExists. rewrite <- Hid.
      by apply list_elem_of_fmap_2. }
    by rewrite filter_cons_True. }
  exists (Threads.mkThreadWithParticipants thread
            (Threads.selectParticipantsJoined newId db')).
  split; [|done].
  unfold Threads.getById, protectedProcedure, Threads.getByIdHandler, result,
    mbind, proc_bind, query, throw, mret, proc_ret.
  rewrite (selectParticipation_nonempty _ _ _ Hp), Hsel. done.
Qed.

Lemma create_then_getById_witness :
  ∃ out,
    result (Threads.getById (Some 3%Z) 11%Z)
      (store (Threads.create 11 20 (Some 1%Z)
                (Threads.mkCreateInput None [2%Z; 3%Z])) demoDb) = Ok out
    ∧ Threads.thread out = threads.mk 11 None 20 20 20.
Proof.
  refine (create_then_getById demoDb 11%Z 20%Z 1%Z
            (Threads.mkCreateInput None [2%Z; 3%Z])
            (threads.mk 11 None 20 20 20) 3%Z _ _).
  - by vm_compute.
  - left. simpl. right. left.
Defined.

Global Instance lastMessageAtDesc_trans : Transitive Threads.lastMessageAtDesc.
Proof. intros x y z. unfold Threads.lastMessageAtDesc. lia. Qed.

Global Instance lastMessageAtDesc_total : Total Threads.lastMessageAtDesc.
Proof. intros x y. unfold Threads.lastMessageAtDesc. lia. Qed.

Lemma participationsJoinThreads_elem db u p th :
  (p, th) ∈ Threads.participationsJoinThreads u db
  ↔ p ∈ tbl_threadParticipants db ∧ threadParticipants.userId p = u
    ∧ th ∈ tbl_threads db ∧ threads.id th = threadParticipants.threadId p.
Proof.
  unfold Threads.participationsJoinThreads. rewrite list_elem_of_bind. split.
  - intros (p' & Hin & Hp'). apply list_elem_of_bind in Hin as (t' & Hin & Ht').
    apply list_elem_of_singleton in Hin. simplify_eq.
    apply list_elem_of_filter in Hp' as [? ?].
    apply list_elem_of_filter in Ht' as [? ?]. done.
  - intros (Hp & Hu & Ht & Hid). exists p. split; [|by apply list_elem_of_filter].
    apply list_elem_of_bind. exists th.
    split; [by apply list_elem_of_singleton|]. by apply list_elem_of_filter.
Qed.

Lemma participationsJoinThreads_fst db u :
  pk_threads db → fk_participant_thread db →
  (Threads.participationsJoinThreads u db).*1
  = filter (λ p, threadParticipants.userId p = u) (tbl_threadParticipants db).
Proof.
  intros Hpk Hfk. unfold Threads.participationsJoinThreads.
  assert (∀ p, p ∈ filter (λ p, threadParticipants.userId p = u)
                     (tbl_threadParticipants db) →
               threadExists db (threadParticipants.threadId p)) as Hall.
  { intros p Hp. apply list_elem_of_filter in Hp as [_ Hp]. by apply Hfk. }
  induction (filter _ (tbl_threadParticipants db)) as [|p rows IH]; [done|].
  rewrite bind_cons, fmap_app, IH.
  - pose proof (Hall p ltac:(left)) as Hex.
    apply list_elem_of_fmap in Hex as (th & Hid & Hth).
    rewrite Hid, (filter_unique_key threads.id _ th Hpk Hth). done.
  - intros q Hq. apply Hall. by right.
Qed.

(** X9: [threads.list] returns the threads the caller participates in, one
    entry per participant row of the caller, ordered by [lastMessageAt]
    from the latest on; every entry carries the columns of its thread and
    the participants of that thread; the store is not written. *)
Theorem threads_list_returns db caller
    (Hpk : pk_threads db) (Hfk : fk_participant_thread db) :
  ∃ items,
    Threads.list (Some caller) () db = (db, Ok items)
    ∧ Threads.summary_id <$> items
      ≡ₚ threadParticipants.threadId
           <$> filter (λ p, threadParticipants.userId p = caller)
                 (tbl_threadParticipants db)
    ∧ StronglySorted
        (λ a b, (Threads.summary_lastMessageAt b
                 ≤ Threads.summary_lastMessageAt a)%Z) items
    ∧ ∀ item, item ∈ items →
        isParticipant db (Threads.summary_id item) caller
        ∧ Threads.summary_participants item
          = Threads.selectParticipants (Threads.summary_id item) db
        ∧ ∃ th, th ∈ tbl_threads db
                ∧ threads.id th = Threads.summary_id item
                ∧ threads.name th = Threads.summary_name item
                ∧ threads.createdAt th = Threads.summary_createdAt item
                ∧ threads.lastMessageAt th = Threads.summary_lastMessageAt item.
Proof.
  eexists. split; [reflexivity|]. split; [|split].
  - rewrite <- list_fmap_compose, merge_sort_Permutation.
    rewrite <- (participationsJoinThreads_fst db caller Hpk Hfk).
    rewrite <- list_fmap_compose.
    erewrite list_fmap_ext; [done|].
    intros i [p th] Hi. apply list_elem_of_lookup_2 in Hi.
    by apply participationsJoinThreads_elem in Hi as (_ & _ & _ & Hid).
  - apply (StronglySorted_fmap _ Threads.lastMessageAtDesc); [by intros x y|].
    apply StronglySorted_merge_sort; apply _.
  - intros item Hitem.
    apply list_elem_of_fmap in Hitem as ([p th] & -> & Hin).
    rewrite merge_sort_Permutation in Hin.
    apply participationsJoinThreads_elem in Hin as (Hp & Hu & Hth & Hid).
    cbn. split; [|split; [done|]].
    + unfold isParticipant. apply list_elem_of_fmap. exists p.
      split; [|done]. unfold Threads.participantKey. by rewrite <- Hid, Hu.
    + by exists th.
Qed.

Example threads_list_demo :
  Threads.summary_id <$>
    match result (Threads.list (Some 1%Z) ())
            (store (Messages.send Messages.noFaults 104 30 31 (Some 1%Z)
                      (Messages.mkSendInput 10 "hey"))
               (store (Threads.create 11 20 (Some 1%Z)
                         (Threads.mkCreateInput None [2%Z])) demoDb)) with
    | Ok items => items
    | Throw _ => []
    end
  = [10%Z; 11%Z].
Proof. by vm_compute. Qed.

Lemma demoDb_pk_threads : pk_threads demoDb.
Proof.
  apply (bool_decide_unpack (NoDup (threads.id <$> tbl_threads demoDb))).
  by vm_compute.
Qed.

Lemma threads_list_returns_witness :
  ∃ items, Threads.list (Some 1%Z) () demoDb = (demoDb, Ok items)
           ∧ Threads.summary_id <$> items = [10%Z].
Proof.
  destruct (threads_list_returns demoDb 1%Z demoDb_pk_threads
              demoDb_fk_participant_thread) as (items & Hlist & _).
  exists items. split; [exact Hlist|].
  vm_compute in Hlist. by injection Hlist as <-.
Defined.

(** ** Users: lookups *)

Lemma selectWhere_eq_id db i :
  Users.selectWhere (Users.eq_id i) (Some 1) db
  = Users.select <$> selectUser i db.
Proof.
  unfold Users.selectWhere, selectUser. do 2 f_equal.
  apply list_filter_iff. intros u. simpl. by rewrite bool_decide_spec.
Qed.

(** X10: [users.getById] answers NOT_FOUND exactly for an identifier that
    names no user, and otherwise returns the columns of a user row with
    that identifier; [users.me] is the same lookup on the caller's own
    identifier. Neither writes. *)
Theorem users_lookup db caller i :
  (¬ userExists db i → Users.getById (Some caller) i db
                       = (db, Throw (TRPCError NOT_FOUND)))
  ∧ (userExists db i →
     ∃ u, u ∈ tbl_users db ∧ users.id u = i
          ∧ Users.getById (Some caller) i db = (db, Ok (Users.select u)))
  ∧ Users.me (Some caller) () db = Users.getById (Some caller) caller db.
Proof.
  unfold Users.getById, Users.me, protectedProcedure, Users.getByIdHandler,
    Users.meHandler, mbind, proc_bind, query, throw, mret, proc_ret.
  rewrite !selectWhere_eq_id. split; [|split; [|done]].
  - intros Hno. apply selectUser_empty in Hno.
    by destruct (selectUser i db).
  - intros Hex. unfold selectUser.
    destruct (filter (λ u, users.id u = i) (tbl_users db)) as [|u l] eqn:E.
    + exfalso. apply (proj1 (selectUser_empty db i)); [|done].
      unfold selectUser. by rewrite E.
    + exists u.
      assert (u ∈ filter (λ u, users.id u = i) (tbl_users db)) as Hin
        by (rewrite E; left).
      apply list_elem_of_filter in Hin as [? ?]. done.
Qed.

Lemma users_lookup_witness :
  Users.getById (Some 1%Z) 7%Z demoDb = (demoDb, Throw (TRPCError NOT_FOUND))
  ∧ ∃ u, u ∈ tbl_users demoDb ∧ users.id u = 2%Z
         ∧ Users.getById (Some 1%Z) 2%Z demoDb = (demoDb, Ok (Users.select u)).
Proof.
  split.
  - refine (proj1 (users_lookup demoDb 1%Z 7%Z) _).
    apply (bool_decide_unpack (¬ userExists demoDb 7)). by vm_compute.
  - refine (proj1 (proj2 (users_lookup demoDb 1%Z 2%Z)) _).
    unfold userExists. simpl. right. left.
Defined.

(** X11: [users.me] and [users.getAll] split the users table: for a caller
    with a row, [me] returns the caller, [getAll] returns everyone else
    and never the caller, and the two together name every user once. *)
Theorem me_and_getAll db caller
    (Hpk : pk_users db) (Hcaller : userExists db caller) :
  ∃ u others,
    result (Users.me (Some caller) ()) db = Ok u
    ∧ result (Users.getAll (Some caller) ()) db = Ok others
    ∧ Users.id u = caller
    ∧ (caller ∉ Users.id <$> others)
    ∧ (Users.id <$> u :: others) ≡ₚ (users.id <$> tbl_users db).
Proof.
  destruct (selectUser_unique db caller Hpk Hcaller) as (row & Hrow & Hid).
  exists (Users.select row),
    (Users.select <$> filter (λ u, users.id u ≠ caller) (tbl_users db)).
  split; [|split; [|split; [done|split]]].
  - unfold Users.me, protectedProcedure, Users.meHandler, result, mbind,
      proc_bind, query, throw, mret, proc_ret.
    rewrite selectWhere_eq_id. unfold selectUser. by rewrite Hrow.
  - unfold Users.getAll, protectedProcedure, Users.getAllHandler, result, query,
      Users.selectWhere. simpl. do 2 f_equal.
    apply list_filter_iff. intros u. by rewrite bool_decide_spec.
  - rewrite <- list_fmap_compose. intros Hin.
    apply list_elem_of_fmap in Hin as (u & Hu & Hin).
    apply list_elem_of_filter in Hin as [Hne _]. by apply Hne.
  - rewrite fmap_cons, <- list_fmap_compose.
    change (Users.id (Users.select row)) with (users.id row).
    change (Users.id ∘ Users.select) with users.id.
    rewrite <- (filter_app_complement (λ u, users.id u = caller) (tbl_users db))
      at 2.
    by rewrite Hrow.
Qed.

Lemma me_and_getAll_witness :
  ∃ u others,
    result (Users.me (Some 2%Z) ()) demoDb = Ok u
    ∧ result (Users.getAll (Some 2%Z) ()) demoDb = Ok others
    ∧ Users.id u = 2%Z
    ∧ (2%Z ∉ Users.id <$> others)
    ∧ (Users.id <$> u :: others) ≡ₚ (users.id <$> tbl_users demoDb).
Proof.
  apply (me_and_getAll demoDb 2%Z demoDb_pk_users).
  unfold userExists. simpl. right. left.
Defined.

(** ** Resolution of the caller: what it writes and what it returns *)

Lemma insert_cases newId now v db :
  (UsersTable.insert newId now v db = (db, Throw (DatabaseError "23505")))
  ∨ (UsersTable.insert newId now v db
     = (UsersTable.withUsers (tbl_users db ++
          [users.mk newId (UsersTable.v_clerkUserId v) (UsersTable.v_username v)
             (UsersTable.v_primaryEmail v) (UsersTable.v_firstName v)
             (UsersTable.v_lastName v) now now]) db, Ok newId)
     ∧ (newId ∉ users.id <$> tbl_users db)
     ∧ (UsersTable.v_clerkUserId v ∉ users.clerkUserId <$> tbl_users db)
     ∧ (UsersTable.v_username v ∉ users.username <$> tbl_users db)).
Proof.
  unfold UsersTable.insert. case_bool_decide as H; [by left|right].
  split; [done|]. repeat split; intros ?; apply H; tauto.
Qed.

Lemma resolveUser_resolved lookup randomUUID newId newId' now clerkUserId db :
  resolved clerkUserId db
    (store (Trpc.resolveUser lookup randomUUID newId newId' now clerkUserId) db)
    (result (Trpc.resolveUser lookup randomUUID newId newId' now clerkUserId) db).
Proof.
  unfold Trpc.resolveUser, store, result, mbind, proc_bind, query.
  cbn [fst snd].
  destruct (head (Trpc.selectByClerkUserId clerkUserId db)) as [u|] eqn:Hhead.
  - destruct (negb _); [by apply resolved_known|].
    destruct (lookup clerkUserId) as [c|]; [|by apply resolved_known].
    by apply resolved_synced.
  - cbn [negb]. destruct (lookup clerkUserId) as [c|];
      [|by apply resolved_unknown].
    unfold UsersTable.catchUniqueViolation, mbind, proc_bind, mret, proc_ret.
    match goal with
    | |- context [UsersTable.insert newId now ?v db] =>
        destruct (insert_cases newId now v db) as [-> | (-> & ? & ? & ?)]
    end.
    + rewrite bool_decide_eq_true_2 by done.
      match goal with
      | |- context [UsersTable.insert newId' now ?v db] =>
          destruct (insert_cases newId' now v db) as [-> | (-> & ? & ? & ?)]
      end.
      * by apply resolved_conflict.
      * cbn [fst snd].
        match goal with
        | |- context [UsersTable.mkValues ?a ?b ?c ?d ?e] =>
            by apply (resolved_created clerkUserId db newId' now
                        (UsersTable.mkValues a b c d e))
        end.
    + cbn [fst snd].
      match goal with
      | |- context [UsersTable.mkValues ?a ?b ?c ?d ?e] =>
          by apply (resolved_created clerkUserId db newId now
                      (UsersTable.mkValues a b c d e))
      end.
Qed.

Lemma updateProfile_column {B} (f : users.row → B) i now e fn ln db :
  (∀ u, f (users.mk (users.id u) (users.clerkUserId u) (users.username u)
             e fn ln (users.createdAt u) now) = f u) →
  f <$> tbl_users (Trpc.updateProfile i now e fn ln db) = f <$> tbl_users db.
Proof.
  intros Hf. unfold Trpc.updateProfile. cbn [UsersTable.withUsers tbl_users].
  rewrite <- list_fmap_compose. apply list_fmap_ext. intros ? u _.
  cbn [compose]. by case_bool_decide.
Qed.

Lemma selectByClerkUserId_head clerkUserId db u :
  head (Trpc.selectByClerkUserId clerkUserId db) = Some u →
  u ∈ tbl_users db ∧ users.clerkUserId u = clerkUserId.
Proof.
  unfold Trpc.selectByClerkUserId. intros Hhead.
  destruct (filter _ (tbl_users db)) as [|x l] eqn:E; [done|].
  injection Hhead as ->.
  assert (u ∈ filter (λ u, users.clerkUserId u = clerkUserId) (tbl_users db))
    as Hin by (rewrite E; left).
  by apply list_elem_of_filter in Hin as [? ?].
Qed.

Lemma selectByClerkUserId_none clerkUserId db :
  head (Trpc.selectByClerkUserId clerkUserId db) = None ↔
  clerkUserId ∉ users.clerkUserId <$> tbl_users db.
Proof.
  unfold Trpc.selectByClerkUserId. split.
  - intros Hhead Hin. apply list_elem_of_fmap in Hin as (u & Hu & Hin).
    assert (u ∈ filter (λ u, users.clerkUserId u = clerkUserId) (tbl_users db))
      as Hf by (by apply list_elem_of_filter).
    destruct (filter _ (tbl_users db)); [by apply not_elem_of_nil in Hf|done].
  - intros Hno.
    destruct (filter _ (tbl_users db)) as [|x l] eqn:E; [done|].
    exfalso. apply Hno.
    assert (x ∈ filter (λ u, users.clerkUserId u = clerkUserId) (tbl_users db))
      as Hin by (rewrite E; left).
    apply list_elem_of_filter in Hin as [? ?].
    apply list_elem_of_fmap. by exists x.
Qed.

(** X12: whatever the identity provider answers, [resolveUser] leaves the
    identifier, the external identifier, the username and the creation time
    of every user row as they were, adds at most one row, after them, and
    touches no other table. *)
Theorem resolveUser_keeps_identities
    lookup randomUUID newId newId' now clerkUserId db :
  let db' :=
    store (Trpc.resolveUser lookup randomUUID newId newId' now clerkUserId) db in
  (identity <$> tbl_users db) `prefix_of` (identity <$> tbl_users db')
  ∧ length (tbl_users db') ≤ S (length (tbl_users db))
  ∧ tbl_threads db' = tbl_threads db
  ∧ tbl_threadParticipants db' = tbl_threadParticipants db
  ∧ tbl_messages db' = tbl_messages db.
Proof.
  intros db'. subst db'.
  destruct (resolveUser_resolved lookup randomUUID newId newId' now
              clerkUserId db); try (repeat split; [done|lia]).
  - split; [|split; [|done]].
    + by rewrite updateProfile_column.
    + unfold Trpc.updateProfile. cbn [UsersTable.withUsers tbl_users].
      rewrite length_fmap. lia.
  - cbn [UsersTable.withUsers tbl_users tbl_threads tbl_threadParticipants
           tbl_messages].
    split; [|split; [|done]].
    + rewrite fmap_app. by apply prefix_app_r.
    + rewrite length_app. simpl. lia.
Qed.

Lemma resolveUser_some_owner
    lookup randomUUID newId newId' now clerkUserId db userId :
  result (Trpc.resolveUser lookup randomUUID newId newId' now clerkUserId) db
  = Ok (Some userId) →
  ∃ u, u ∈ tbl_users
             (store (Trpc.resolveUser lookup randomUUID newId newId' now
                       clerkUserId) db)
       ∧ users.id u = userId ∧ users.clerkUserId u = clerkUserId.
Proof.
  destruct (resolveUser_resolved lookup randomUUID newId newId' now
              clerkUserId db) as [u Hu| |u now0 e fn ln Hu|i now0 v|];
    intros [= <-].
  - exists u. by apply selectByClerkUserId_head in Hu as [? ?].
  - apply selectByClerkUserId_head in Hu as [Hu ?].
    exists (users.mk (users.id u) (users.clerkUserId u) (users.username u)
              e fn ln (users.createdAt u) now0).
    split; [|by cbn].
    unfold Trpc.updateProfile. cbn [UsersTable.withUsers tbl_users].
    apply list_elem_of_fmap. exists u. split; [|done].
    by rewrite bool_decide_eq_true_2.
  - eexists. split.
    + cbn [UsersTable.withUsers tbl_users]. apply elem_of_app. right.
      by apply list_elem_of_singleton.
    + by cbn.
Qed.

(** X13: [resolveUser] answers [null] exactly when the store has no row for
    the external identifier and the identity provider cannot be reached;
    an identifier it returns is that of a row of the resulting store that
    carries the external identifier. *)
Theorem resolveUser_returns_owner
    lookup randomUUID newId newId' now clerkUserId db :
  let call := Trpc.resolveUser lookup randomUUID newId newId' now clerkUserId in
  (result call db = Ok None ↔
     (clerkUserId ∉ users.clerkUserId <$> tbl_users db)
     ∧ lookup clerkUserId = None)
  ∧ ∀ userId, result call db = Ok (Some userId) →
      ∃ u, u ∈ tbl_users (store call db)
           ∧ users.id u = userId ∧ users.clerkUserId u = clerkUserId.
Proof.
  intros call. split.
  - subst call. unfold Trpc.resolveUser, result, mbind, proc_bind, query.
    cbn [fst snd]. rewrite <- selectByClerkUserId_none.
    destruct (head (Trpc.selectByClerkUserId clerkUserId db)) as [u|].
    + split; [|by intros [? _]].
      destruct (negb _); [done|]. by destruct (lookup clerkUserId).
    + cbn [negb]. destruct (lookup clerkUserId) as [c|]; [|done].
      split; [|by intros [_ ?]].
      unfold UsersTable.catchUniqueViolation, mbind, proc_bind, mret, proc_ret.
      match goal with
      | |- context [UsersTable.insert newId now ?v db] =>
          destruct (insert_cases newId now v db) as [-> | (-> & _)]
      end; [|done].
      rewrite bool_decide_eq_true_2 by done.
      match goal with
      | |- context [UsersTable.insert newId' now ?v db] =>
          by destruct (insert_cases newId' now v db) as [-> | (-> & _)]
      end.
  - intros userId. subst call. apply resolveUser_some_owner.
Qed.

(** X14: [resolveUser] preserves the unique constraints of the users table:
    identifiers, external identifiers and usernames stay free of
    repetition. *)
Theorem resolveUser_keeps_constraints
    lookup randomUUID newId newId' now clerkUserId db
    (Hok : usersIntegrity db) :
  usersIntegrity
    (store (Trpc.resolveUser lookup randomUUID newId newId' now clerkUserId) db).
Proof.
  destruct Hok as (Hpk & Hclerk & Hname).
  destruct (resolveUser_resolved lookup randomUUID newId newId' now
              clerkUserId db); try done.
  - unfold usersIntegrity, pk_users, unique_clerkUserId, unique_username.
    by rewrite !updateProfile_column.
  - unfold usersIntegrity, pk_users, unique_clerkUserId, unique_username.
    cbn [UsersTable.withUsers tbl_users]. rewrite !fmap_app.
    repeat split; apply NoDup_app; (split; [done|]);
      (split; [|apply NoDup_singleton]);
      intros x Hx Hin%list_elem_of_singleton; cbn in Hin; by subst.
Qed.

Lemma demoDb_usersIntegrity : usersIntegrity demoDb.
Proof.
  apply (bool_decide_unpack (usersIntegrity demoDb)). by vm_compute.
Qed.

Lemma resolveUser_keeps_constraints_witness :
  usersIntegrity
    (store (Trpc.resolveUser clerkDirectory demoUUID 4%Z 5%Z 9%Z "clerk_dora")
       demoDb)
  ∧ length (tbl_users
      (store (Trpc.resolveUser clerkDirectory demoUUID 4%Z 5%Z 9%Z "clerk_dora")
         demoDb)) = 4.
Proof.
  split; [|by vm_compute].
  apply resolveUser_keeps_constraints, demoDb_usersIntegrity.
Defined.

(** ** The webhook handlers: what an upsert may change *)

Lemma upserts_refl c db : usersIntegrity db → upserts c db db.
Proof. intros Hok. by split; [|split]. Qed.

Lemma filter_fmap_fixed {A} (P : A → Prop) `{∀ x, Decision (P x)}
    (f : A → A) (l : list A) :
  (∀ x, P (f x) ↔ P x) → (∀ x, P x → f x = x) →
  filter P (f <$> l) = filter P l.
Proof.
  intros HP Hf. induction l as [|x l IH]; [done|].
  rewrite fmap_cons, !filter_cons, IH.
  destruct (decide (P (f x))) as [Hfx|Hfx], (decide (P x)) as [Hx|Hx].
  - by rewrite (Hf x Hx).
  - exfalso. apply Hx. by apply HP.
  - exfalso. apply Hfx. by apply HP.
  - done.
Qed.

Lemma insertOnConflictDoUpdate_upserts newId now now' v db :
  usersIntegrity db →
  upserts (UsersTable.v_clerkUserId v) db
    (store (UsersTable.insertOnConflictDoUpdate newId now now' v) db)
  ∧ match result (UsersTable.insertOnConflictDoUpdate newId now now' v) db with
    | Ok _ =>
        ∃ u, u ∈ tbl_users
                   (store (UsersTable.insertOnConflictDoUpdate newId now now' v) db)
             ∧ users.clerkUserId u = UsersTable.v_clerkUserId v
             ∧ users.username u = UsersTable.v_username v
    | Throw e =>
        e = DatabaseError "23505"
        ∧ store (UsersTable.insertOnConflictDoUpdate newId now now' v) db = db
    end.
Proof.
  intros Hok. pose proof Hok as (Hpk & Hclerk & Hname).
  unfold store, result, UsersTable.insertOnConflictDoUpdate.
  case_bool_decide as Htaken; [split; [by apply upserts_refl|done]|].
  case_bool_decide as Hknown; [|case_bool_decide as Hid].
  - cbn [fst snd].
    set (f := λ u : users.row,
           if bool_decide (users.clerkUserId u = UsersTable.v_clerkUserId v)
           then users.mk (users.id u) (users.clerkUserId u)
                  (UsersTable.v_username v) (UsersTable.v_primaryEmail v)
                  (UsersTable.v_firstName v) (UsersTable.v_lastName v)
                  (users.createdAt u) now'
           else u).
    assert (∀ {B} (g : users.row → B),
              (∀ u, g (f u) = g u) →
              g <$> (f <$> tbl_users db) = g <$> tbl_users db) as Hcol.
    { intros B g Hg. rewrite <- list_fmap_compose. apply list_fmap_ext.
      intros ? u _. apply Hg. }
    assert (∀ u, users.id (f u) = users.id u) as Hfid
      by (intros u; unfold f; by case_bool_decide).
    assert (∀ u, users.clerkUserId (f u) = users.clerkUserId u) as Hfclerk
      by (intros u; unfold f; by case_bool_decide).
    assert (∀ u, stable (f u) = stable u) as Hfstable
      by (intros u; unfold f; by case_bool_decide).
    split.
    + unfold upserts, usersIntegrity, pk_users, unique_clerkUserId,
        unique_username. cbn [UsersTable.withUsers tbl_users tbl_threads
        tbl_threadParticipants tbl_messages].
      rewrite (Hcol _ users.id Hfid), (Hcol _ users.clerkUserId Hfclerk),
        (Hcol _ stable Hfstable).
      split; [split; [done|split; [done|]]|split; [done|split; [|done]]].
      * rewrite <- list_fmap_compose.
        apply NoDup_fmap_2_strong; [|by apply NoDup_fmap_1 in Hpk].
        intros x y Hx Hy Hxy. cbn [compose] in Hxy.
        apply (unique_key_inj users.clerkUserId (tbl_users db)); [done..|].
        unfold f in Hxy. do 2 case_bool_decide; cbn in Hxy.
        -- congruence.
        -- exfalso. apply Htaken. apply list_elem_of_fmap. exists y.
           split; [done|]. by apply list_elem_of_filter.
        -- exfalso. apply Htaken. apply list_elem_of_fmap. exists x.
           split; [done|]. by apply list_elem_of_filter.
        -- f_equal.
           by apply (unique_key_inj users.username (tbl_users db)).
      * apply filter_fmap_fixed.
        -- intros u. by rewrite Hfclerk.
        -- intros u Hu. unfold f. by rewrite bool_decide_eq_false_2.
    + apply list_elem_of_fmap in Hknown as (u & Hu & Hin).
      exists (f u). cbn [UsersTable.withUsers tbl_users].
      split; [apply list_elem_of_fmap; by exists u|].
      unfold f. by rewrite bool_decide_eq_true_2.
  - split; [by apply upserts_refl|done].
  - cbn [fst snd]. split.
    + assert (UsersTable.v_username v ∉ users.username <$> tbl_users db)
        as Hfree.
      { intros Hin. apply Htaken.
        apply list_elem_of_fmap in Hin as (x & Hx & Hin).
        apply list_elem_of_fmap. exists x. split; [done|].
        apply list_elem_of_filter. split; [|done].
        intros Hc. apply Hknown. apply list_elem_of_fmap. by exists x. }
      unfold upserts, usersIntegrity, pk_users, unique_clerkUserId,
        unique_username. cbn [UsersTable.withUsers tbl_users tbl_threads
        tbl_threadParticipants tbl_messages].
      rewrite !fmap_app, filter_app.
      repeat split; try done.
      1-3: apply NoDup_app; (split; [done|]);
        (split; [|apply NoDup_singleton]);
        intros x Hx Hin%list_elem_of_singleton; cbn in Hin; by subst.
      * by apply prefix_app_r.
      * rewrite filter_cons_False, filter_nil, app_nil_r; [done|].
        cbn. by intros Hne.
    + eexists. cbn [UsersTable.withUsers tbl_users]. split.
      * apply elem_of_app. right. by apply list_elem_of_singleton.
      * by cbn.
Qed.

(** X15: a user event of the identity provider, handled by [upsertUser],
    keeps the unique constraints of the users table; it changes no row of
    another identity, keeps the identifier, the external identifier and the
    creation time of every row in place, touches no other table, and, when
    it succeeds, leaves a row for the identity of the event. A failure is
    a unique violation and leaves the store as it was. *)
Theorem upsertUser_upserts
    lookup randomUUID newId newId' now now' user db
    (Hok : usersIntegrity db) :
  let call :=
    ClerkWebhooks.upsertUser lookup randomUUID newId newId' now now' user in
  upserts (ClerkWebhooks.id user) db (store call db)
  ∧ match result call db with
    | Ok _ => ClerkWebhooks.id user ∈ users.clerkUserId <$> tbl_users (store call db)
    | Throw e => e = DatabaseError "23505" ∧ store call db = db
    end.
Proof.
  intros call. subst call. unfold ClerkWebhooks.upsertUser.
  destruct (ClerkWebhooks.padUsername 4 randomUUID 0 _) as [username i].
  destruct (ClerkWebhooks.resolveUserDetails lookup user) as [[e f] l].
  unfold UsersTable.catchUniqueViolation, store at 1 2 3, result at 1.
  match goal with
  | |- context [UsersTable.insertOnConflictDoUpdate newId now now' ?v db] =>
      pose proof (insertOnConflictDoUpdate_upserts newId now now' v db Hok)
        as [Hfirst Hres];
      unfold store, result in Hfirst, Hres;
      destruct (UsersTable.insertOnConflictDoUpdate newId now now' v db)
        as [db1 [[]|err]]
  end; cbn [fst snd] in *.
  - split; [done|]. destruct Hres as (u & Hu & Hc & _).
    apply list_elem_of_fmap. by exists u.
  - destruct Hres as [-> ->]. rewrite bool_decide_eq_true_2 by done.
    match goal with
    | |- context [UsersTable.insertOnConflictDoUpdate newId' now now' ?v db] =>
        pose proof (insertOnConflictDoUpdate_upserts newId' now now' v db Hok)
          as [Hsecond Hres];
        unfold store, result in Hsecond, Hres;
        destruct (UsersTable.insertOnConflictDoUpdate newId' now now' v db)
          as [db2 [[]|err]]
    end; cbn [fst snd] in *.
    + split; [done|]. destruct Hres as (u & Hu & Hc & _).
      apply list_elem_of_fmap. by exists u.
    + done.
Qed.

Lemma upsertUser_upserts_witness :
  upserts (ClerkWebhooks.id renameEvent) demoDb
    (store (ClerkWebhooks.upsertUser clerkDirectory demoRandomUUID 4%Z 5%Z
              9%Z 9%Z renameEvent) demoDb)
  ∧ users.username
      <$> tbl_users (store (ClerkWebhooks.upsertUser clerkDirectory
                              demoRandomUUID 4%Z 5%Z 9%Z 9%Z renameEvent) demoDb)
    = ["alice"; "alice-3f2b8c"; "charlie"].
Proof.
  split.
  - exact (proj1 (upsertUser_upserts clerkDirectory demoRandomUUID 4%Z 5%Z
                    9%Z 9%Z renameEvent demoDb demoDb_usersIntegrity)).
  - by vm_compute.
Defined.

(** ** The webhook handlers: deletion *)

Lemma filter_all {A} (P : A → Prop) `{∀ x, Decision (P x)} (l : list A) :
  (∀ x, x ∈ l → P x) → filter P l = l.
Proof.
  induction l as [|x l IH]; [done|]. intros Hall.
  rewrite filter_cons_True by (apply Hall; left).
  f_equal. apply IH. intros y Hy. apply Hall. by right.
Qed.

Lemma filter_none {A} (P : A → Prop) `{∀ x, Decision (P x)} (l : list A) :
  (∀ x, x ∈ l → ¬ P x) → filter P l = [].
Proof.
  induction l as [|x l IH]; [done|]. intros Hall.
  rewrite filter_cons_False by (apply Hall; left).
  apply IH. intros y Hy. apply Hall. by right.
Qed.

(** A user whose identifier is not among the deleted ones is still there
    afterwards, to be referenced. *)
Lemma deleteUsersByClerkUserId_keeps_owner c db i :
  userExists db i →
  i ∉ users.id <$> filter (λ u, users.clerkUserId u = c) (tbl_users db) →
  userExists (ClerkWebhooks.deleteUsersByClerkUserId c db) i.
Proof.
  unfold userExists, ClerkWebhooks.deleteUsersByClerkUserId.
  cbn [tbl_users]. intros Hex Hkept.
  apply list_elem_of_fmap in Hex as (u & -> & Hu).
  apply list_elem_of_fmap. exists u. split; [done|].
  apply list_elem_of_filter. split; [|done].
  intros Hc. apply Hkept. apply list_elem_of_fmap. exists u.
  split; [done|]. by apply list_elem_of_filter.
Qed.

(** X16: a deletion event of the identity provider, handled by
    [handleUserDeleted], removes every row of the identity and, by the
    cascading references of the schema, its participant rows and messages:
    afterwards every message still has its sender and every participant
    row its user, threads are untouched, and the same event a second time
    changes nothing. Where user identifiers are unique, the messages of
    every other user are all kept. *)
Theorem handleUserDeleted_cascade user db
    (Hsender : fk_message_sender db) (Hmember : fk_participant_user db) :
  let db' := store (ClerkWebhooks.handleUserDeleted user) db in
  result (ClerkWebhooks.handleUserDeleted user) db = Ok ()
  ∧ (ClerkWebhooks.id user ∉ users.clerkUserId <$> tbl_users db')
  ∧ fk_message_sender db' ∧ fk_participant_user db'
  ∧ tbl_threads db' = tbl_threads db
  ∧ store (ClerkWebhooks.handleUserDeleted user) db' = db'
  ∧ (pk_users db →
     ∀ m u, m ∈ tbl_messages db → u ∈ tbl_users db →
            users.id u = messages.senderId m →
            users.clerkUserId u ≠ ClerkWebhooks.id user →
            m ∈ tbl_messages db').
Proof.
  intros db'. subst db'.
  unfold ClerkWebhooks.handleUserDeleted, store, result, execute.
  cbn [fst snd]. set (c := ClerkWebhooks.id user).
  split; [done|]. split; [|split; [|split; [|split; [done|split]]]].
  - unfold ClerkWebhooks.deleteUsersByClerkUserId. cbn [tbl_users].
    intros Hin. apply list_elem_of_fmap in Hin as (u & Hu & Hin).
    by apply list_elem_of_filter in Hin as [Hne _].
  - intros m Hm. unfold ClerkWebhooks.deleteUsersByClerkUserId in Hm.
    cbn [tbl_messages] in Hm. apply list_elem_of_filter in Hm as [Hkept Hm].
    apply deleteUsersByClerkUserId_keeps_owner; [by apply Hsender|done].
  - intros p Hp. unfold ClerkWebhooks.deleteUsersByClerkUserId in Hp.
    cbn [tbl_threadParticipants] in Hp.
    apply list_elem_of_filter in Hp as [Hkept Hp].
    apply deleteUsersByClerkUserId_keeps_owner; [by apply Hmember|done].
  - unfold ClerkWebhooks.deleteUsersByClerkUserId at 1.
    assert (filter (λ u, users.clerkUserId u = c)
              (tbl_users (ClerkWebhooks.deleteUsersByClerkUserId c db)) = [])
      as ->.
    { apply filter_none. intros u Hu.
      unfold ClerkWebhooks.deleteUsersByClerkUserId in Hu. cbn [tbl_users] in Hu.
      apply list_elem_of_filter in Hu as [Hne _]. done. }
    rewrite fmap_nil.
    rewrite !filter_all.
    + by destruct (ClerkWebhooks.deleteUsersByClerkUserId c db).
    + intros m _. apply not_elem_of_nil.
    + intros p _. apply not_elem_of_nil.
    + intros u Hu. unfold ClerkWebhooks.deleteUsersByClerkUserId in Hu.
      cbn [tbl_users] in Hu. by apply list_elem_of_filter in Hu as [Hne _].
  - intros Hpk m u Hm Hu Hid Hne.
    unfold ClerkWebhooks.deleteUsersByClerkUserId. cbn [tbl_messages].
    apply list_elem_of_filter. split; [|done].
    intros Hgone. apply list_elem_of_fmap in Hgone as (w & Hw & Hin).
    apply list_elem_of_filter in Hin as [Hc Hin].
    assert (w = u) as -> by (apply (unique_key_inj users.id (tbl_users db));
                             [done..|congruence]).
    done.
Qed.

Lemma handleUserDeleted_cascade_witness :
  result (ClerkWebhooks.handleUserDeleted aliceGone) demoDb = Ok ()
  ∧ messages.id <$> tbl_messages
      (store (ClerkWebhooks.handleUserDeleted aliceGone) demoDb) = [101; 103]%Z
  ∧ fk_message_sender (store (ClerkWebhooks.handleUserDeleted aliceGone) demoDb).
Proof.
  pose proof (handleUserDeleted_cascade aliceGone demoDb
                demoDb_fk_message_sender demoDb_fk_participant_user)
    as (Hres & _ & Hfk & _).
  split; [exact Hres|]. split; [by vm_compute|exact Hfk].
Defined.

(** ** The webhook route *)

Lemma upsertUser_throws lookup randomUUID newId newId' now now' user db e :
  result (ClerkWebhooks.upsertUser lookup randomUUID newId newId' now now' user)
    db = Throw e →
  store (ClerkWebhooks.upsertUser lookup randomUUID newId newId' now now' user)
    db = db.
Proof.
  unfold ClerkWebhooks.upsertUser.
  destruct (ClerkWebhooks.padUsername 4 randomUUID 0 _) as [username i].
  destruct (ClerkWebhooks.resolveUserDetails lookup user) as [[pe f] l].
  unfold UsersTable.catchUniqueViolation, store at 1, result at 1.
  match goal with
  | |- context [UsersTable.insertOnConflictDoUpdate newId now now' ?v db] =>
      pose proof (insertOnConflictDoUpdate_throws newId now now' v db) as Hfirst;
      unfold store, result in Hfirst;
      destruct (UsersTable.insertOnConflictDoUpdate newId now now' v db)
        as [db1 [[]|err]]
  end; cbn [fst snd] in *; [done|].
  rewrite (Hfirst err eq_refl).
  destruct err as [code|code]; [done|].
  case_bool_decide; [|done].
  match goal with
  | |- context [UsersTable.insertOnConflictDoUpdate newId' now now' ?v db] =>
      pose proof (insertOnConflictDoUpdate_throws newId' now now' v db) as Hsecond;
      unfold store, result in Hsecond;
      destruct (UsersTable.insertOnConflictDoUpdate newId' now now' v db)
        as [db2 [[]|err]]
  end; cbn [fst snd] in *; [done|].
  intros _. by apply (Hsecond err).
Qed.

Lemma upsertUser_usersIntegrity
    lookup randomUUID newId newId' now now' user db :
  usersIntegrity db →
  usersIntegrity
    (store (ClerkWebhooks.upsertUser lookup randomUUID newId newId' now now'
              user) db).
Proof.
  intros Hok. unfold ClerkWebhooks.upsertUser.
  destruct (ClerkWebhooks.padUsername 4 randomUUID 0 _) as [username i].
  destruct (ClerkWebhooks.resolveUserDetails lookup user) as [[pe f] l].
  unfold UsersTable.catchUniqueViolation, store at 1.
  match goal with
  | |- context [UsersTable.insertOnConflictDoUpdate newId now now' ?v db] =>
      pose proof (insertOnConflictDoUpdate_upserts newId now now' v db Hok)
        as [[Hfirst _] Hres];
      unfold store, result in Hfirst, Hres;
      destruct (UsersTable.insertOnConflictDoUpdate newId now now' v db)
        as [db1 [[]|err]]
  end; cbn [fst snd] in *; [done|].
  destruct Hres as [-> ->]. rewrite bool_decide_eq_true_2 by done.
  match goal with
  | |- context [UsersTable.insertOnConflictDoUpdate newId' now now' ?v db] =>
      by pose proof (insertOnConflictDoUpdate_upserts newId' now now' v db Hok)
        as [[Hsecond _] _]
  end.
Qed.

Lemma deleteUsersByClerkUserId_usersIntegrity c db :
  usersIntegrity db →
  usersIntegrity (ClerkWebhooks.deleteUsersByClerkUserId c db).
Proof.
  intros (Hpk & Hclerk & Hname).
  unfold usersIntegrity, pk_users, unique_clerkUserId, unique_username,
    ClerkWebhooks.deleteUsersByClerkUserId. cbn [tbl_users].
  repeat split; by apply NoDup_fmap_filter.
Qed.

(** X17: the webhook route writes, or answers that it received the event,
    only for a request that carries the three signature headers, each not
    empty, and passes the signature check, with the signing secret
    configured; the store changes only for the three user events. Whatever
    arrives, the unique constraints of the users table hold afterwards, and
    a request answered with an error has written nothing. *)
Theorem POST_verified_only
    secret verify env body svixId svixTimestamp svixSignature db :
  let r :=
    ClerkWebhooks.POST secret verify env body svixId svixTimestamp
      svixSignature db in
  (r.1 ≠ db ∨ r.2 = ClerkWebhooks.JsonReceived →
   secret = true
   ∧ ∃ i t g type data,
       svixId = Some i ∧ svixTimestamp = Some t ∧ svixSignature = Some g
       ∧ i ≠ "" ∧ t ≠ "" ∧ g ≠ ""
       ∧ verify body i t g = Some (type, data)
       ∧ (r.1 ≠ db →
          type ∈ ["user.created"; "user.updated"; "user.deleted"]))
  ∧ (usersIntegrity db → usersIntegrity r.1)
  ∧ (r.2 ≠ ClerkWebhooks.JsonReceived → r.1 = db).
Proof.
  intros r. subst r. unfold ClerkWebhooks.POST.
  destruct secret; cbn [negb]; [|POST_refused].
  destruct svixId as [i|], svixTimestamp as [t|], svixSignature as [g|];
    try POST_refused.
  unfold Js.truthy.
  destruct (decide (i = "")) as [->|Hi]; [POST_refused|].
  rewrite (bool_decide_eq_false_2 (i = "")) by done.
  destruct (decide (t = "")) as [->|Ht]; [POST_refused|].
  rewrite (bool_decide_eq_false_2 (t = "")) by done.
  destruct (decide (g = "")) as [->|Hg]; [POST_refused|].
  rewrite (bool_decide_eq_false_2 (g = "")) by done.
  cbn [negb andb].
  destruct (verify body i t g) as [[type data]|] eqn:Hverify; [|POST_refused].
  generalize (upsertUser_usersIntegrity (ClerkWebhooks.env_lookup env)
         (ClerkWebhooks.env_randomUUID env) (ClerkWebhooks.env_newId env)
         (ClerkWebhooks.env_newId' env) (ClerkWebhooks.env_now env)
         (ClerkWebhooks.env_now' env) data db)
     (upsertUser_throws (ClerkWebhooks.env_lookup env)
         (ClerkWebhooks.env_randomUUID env) (ClerkWebhooks.env_newId env)
         (ClerkWebhooks.env_newId' env) (ClerkWebhooks.env_now env)
         (ClerkWebhooks.env_now' env) data db).
  unfold store, result.
  generalize (ClerkWebhooks.upsertUser (ClerkWebhooks.env_lookup env)
         (ClerkWebhooks.env_randomUUID env) (ClerkWebhooks.env_newId env)
         (ClerkWebhooks.env_newId' env) (ClerkWebhooks.env_now env)
         (ClerkWebhooks.env_now' env) data db).
  intros [db' upserted] Hupsert Hthrows.
  cbn [fst snd] in Hupsert, Hthrows.
  split.
  - intros _. split; [reflexivity|]. exists i, t, g, type, data.
    do 7 (split; [assumption || reflexivity|]). intros Hchanged.
    case_bool_decide as H1; [subst; left|].
    case_bool_decide as H2; [subst; right; left|].
    case_bool_decide as H3; [subst; do 2 right; left|].
    by destruct Hchanged.
  - case_bool_decide as H1; [|case_bool_decide as H2;
                                [|case_bool_decide as H3]].
    + destruct upserted as [[]|e]; cbn [fst snd];
        (split; [assumption|]); [by intros|].
      intros _. by apply (Hthrows e).
    + destruct upserted as [[]|e]; cbn [fst snd];
        (split; [assumption|]); [by intros|].
      intros _. by apply (Hthrows e).
    + unfold ClerkWebhooks.handleUserDeleted, execute. cbn [fst snd].
      split; [apply deleteUsersByClerkUserId_usersIntegrity|by intros].
    + cbn [fst snd]. split; by intros.
Qed.

Lemma POST_verified_only_witness :
  true = true
  ∧ ∃ i t g type data,
      Some "msg_1" = Some i ∧ Some "1700000000" = Some t ∧ Some "v1,abc" = Some g
      ∧ i ≠ "" ∧ t ≠ "" ∧ g ≠ ""
      ∧ demoVerify "signed" i t g = Some (type, data)
      ∧ ((ClerkWebhooks.POST true demoVerify demoEnvironment "signed"
            (Some "msg_1") (Some "1700000000") (Some "v1,abc") demoDb).1 ≠ demoDb →
         type ∈ ["user.created"; "user.updated"; "user.deleted"]).
Proof.
  apply (proj1 (POST_verified_only true demoVerify demoEnvironment "signed"
                  (Some "msg_1") (Some "1700000000") (Some "v1,abc") demoDb)).
  right. by vm_compute.
Defined.

(** ** The webhook handlers: usernames *)

Lemma chars_str l : Js.chars (Js.str l) = l.
Proof. apply list_ascii_of_string_of_list_ascii. Qed.

Lemma str_chars s : Js.str (Js.chars s) = s.
Proof. apply string_of_list_ascii_of_string. Qed.

Lemma chars_app s1 s2 : Js.chars (s1 +:+ s2) = Js.chars s1 ++ Js.chars s2.
Proof. induction s1 as [|c s1 IH]; [done|]. cbn. by rewrite <- IH. Qed.

Lemma collapseDashes_elem c l : c ∈ Js.collapseDashes l → c ∈ l.
Proof.
  induction l as [|x l IH]; [done|]. cbn [Js.collapseDashes].
  destruct l as [|d l]; [done|]. case_bool_decide.
  - intros Hin. right. by apply IH.
  - intros [->|Hin]%elem_of_cons; [left|right; by apply IH].
Qed.

Lemma stripDashEnd_elem c l : c ∈ Js.stripDashEnd l → c ∈ l.
Proof.
  unfold Js.stripDashEnd. destruct (last l); [|done].
  case_bool_decide; [|done]. apply subseteq_take.
Qed.

Lemma stripDashes_elem c l : c ∈ Js.stripDashes l → c ∈ l.
Proof.
  unfold Js.stripDashes. destruct l as [|x l]; [done|].
  case_bool_decide.
  - intros Hin. right. by apply stripDashEnd_elem.
  - apply stripDashEnd_elem.
Qed.

(** X18: every character of the username that [normaliseUsername] makes is
    one of [a-z0-9_-] or a character of the identifier of the event. *)
Theorem normaliseUsername_charset user c
    (Hc : c ∈ Js.chars (ClerkWebhooks.normaliseUsername user)) :
  ClerkWebhooks.usernameChar c = true ∨ c ∈ Js.chars (ClerkWebhooks.id user).
Proof.
  unfold ClerkWebhooks.normaliseUsername in Hc. cbv zeta in Hc.
  set (initial := match ClerkWebhooks.username user with
                  | Some u => u
                  | None => _
                  end) in Hc.
  set (base := Js.str (Js.stripDashes _)) in Hc.
  assert (∀ x, x ∈ Js.chars base → ClerkWebhooks.usernameChar x = true)
    as Hbase.
  { intros x Hx. unfold base in Hx. rewrite chars_str in Hx.
    apply stripDashes_elem, collapseDashes_elem in Hx.
    unfold Js.replaceClass in Hx. rewrite chars_str in Hx.
    apply list_elem_of_fmap in Hx as (y & -> & _).
    destruct (negb (ClerkWebhooks.usernameChar y)) eqn:E; [done|].
    by apply negb_false_iff in E. }
  set (username1 := if bool_decide (base = "") then _ else base) in Hc.
  assert (∀ x, x ∈ Js.chars username1 →
               ClerkWebhooks.usernameChar x = true
               ∨ x ∈ Js.chars (ClerkWebhooks.id user)) as H1.
  { intros x Hx. unfold username1 in Hx. case_bool_decide.
    - rewrite chars_app in Hx. apply elem_of_app in Hx as [Hx|Hx].
      + left. cbn in Hx.
        repeat (apply elem_of_cons in Hx as [->|Hx]; [done|]).
        by apply not_elem_of_nil in Hx.
      + right. unfold Js.sliceLast in Hx. rewrite chars_str in Hx.
        by apply subseteq_drop in Hx.
    - left. by apply Hbase. }
  set (username2 := if bool_decide (String.length username1 < 4) then _
                    else username1) in Hc.
  assert (∀ x, x ∈ Js.chars username2 →
               ClerkWebhooks.usernameChar x = true
               ∨ x ∈ Js.chars (ClerkWebhooks.id user)) as H2.
  { intros x Hx. unfold username2 in Hx. case_bool_decide; [|by apply H1].
    rewrite chars_app in Hx. apply elem_of_app in Hx as [Hx|Hx];
      [by apply H1|].
    right. unfold Js.sliceTo, Js.removeClass in Hx. rewrite !chars_str in Hx.
    apply subseteq_take in Hx. by apply list_elem_of_filter in Hx as [_ ?]. }
  case_bool_decide; [|by apply H2].
  unfold Js.sliceTo in Hc. rewrite chars_str in Hc.
  apply subseteq_take in Hc. by apply H2.
Qed.

Lemma normaliseUsername_charset_witness :
  ClerkWebhooks.normaliseUsername mixedCaseEvent = "ann-lee"
  ∧ (ClerkWebhooks.usernameChar "l" = true
     ∨ "l"%char ∈ Js.chars (ClerkWebhooks.id mixedCaseEvent)).
Proof.
  split; [by vm_compute|].
  apply (normaliseUsername_charset mixedCaseEvent "l").
  apply (bool_decide_unpack _). by vm_compute.
Defined.

Lemma usernameChar_lower c :
  ClerkWebhooks.usernameChar c = true → Js.lowerChar c = c.
Proof.
  unfold Js.lowerChar. destruct (Js.isUpper c) eqn:E; [|done].
  intros Hc. exfalso. revert E Hc.
  destruct c as [[] [] [] [] [] [] [] []]; by vm_compute.
Qed.

Lemma collapseDashes_fixed l :
  (∀ i, l !! i = Some "-"%char → l !! S i ≠ Some "-"%char) →
  Js.collapseDashes l = l.
Proof.
  induction l as [|c l IH]; [done|]. intros Hno.
  cbn [Js.collapseDashes]. destruct l as [|d l]; [done|].
  rewrite bool_decide_eq_false_2.
  - f_equal. apply IH. intros i. apply (Hno (S i)).
  - intros [-> ->]. by apply (Hno 0).
Qed.

Lemma stripDashes_fixed l :
  head l ≠ Some "-"%char → last l ≠ Some "-"%char → Js.stripDashes l = l.
Proof.
  intros Hhead Hlast. unfold Js.stripDashes. destruct l as [|c l]; [done|].
  rewrite bool_decide_eq_false_2 by (intros ->; by apply Hhead).
  unfold Js.stripDashEnd. destruct (last (c :: l)) as [x|]; [|done].
  rewrite bool_decide_eq_false_2; [done|]. intros ->. by apply Hlast.
Qed.

(** X19: [normaliseUsername] leaves a username that is already a handle as
    it is: 4 to 64 characters of [a-z0-9_-] with no dash at either end and
    no two dashes in a row come back unchanged, whatever else the event
    holds. *)
Theorem normaliseUsername_fixes_handle user u
    (Hname : ClerkWebhooks.username user = Some u)
    (Hhandle : handle (Js.chars u)) :
  ClerkWebhooks.normaliseUsername user = u.
Proof.
  destruct Hhandle as (Hclass & Hhead & Hlast & Hno & Hlen).
  unfold ClerkWebhooks.normaliseUsername. rewrite Hname. cbv zeta.
  assert (Js.toLowerCase u = u) as ->.
  { unfold Js.toLowerCase. rewrite <- (str_chars u) at 2. f_equal.
    rewrite <- (list_fmap_id (Js.chars u)) at 2.
    apply list_fmap_ext. intros i c Hc. apply usernameChar_lower.
    rewrite Forall_lookup in Hclass. by apply (Hclass i). }
  assert (Js.replaceClass (λ c, negb (ClerkWebhooks.usernameChar c)) "-" u = u)
    as ->.
  { unfold Js.replaceClass. rewrite <- (str_chars u) at 2. f_equal.
    rewrite <- (list_fmap_id (Js.chars u)) at 2.
    apply list_fmap_ext. intros i c Hc.
    rewrite Forall_lookup in Hclass. by rewrite (Hclass i c Hc). }
  rewrite collapseDashes_fixed, stripDashes_fixed, str_chars by done.
  rewrite length_chars in Hlen.
  rewrite (bool_decide_eq_false_2 (u = ""))
    by (intros ->; cbn in Hlen; lia).
  cbv iota.
  rewrite (bool_decide_eq_false_2 (String.length u < 4)) by lia.
  by rewrite bool_decide_eq_false_2 by lia.
Qed.

Lemma normaliseUsername_fixes_handle_witness :
  ClerkWebhooks.normaliseUsername handleEvent = "ann-lee_7".
Proof.
  apply normaliseUsername_fixes_handle; [done|].
  unfold handle. split; [|split; [|split; [|split]]].
  - apply (bool_decide_unpack _). by vm_compute.
  - by vm_compute.
  - by vm_compute.
  - intros i Hi. do 9 (destruct i as [|i]; [by vm_compute in Hi|]).
    by vm_compute in Hi.
  - vm_compute. lia.
Defined.

(** ** The client: edit and delete events *)

Lemma handleMessageEdited_ids ev l :
  Client.id <$> Client.handleMessageEdited ev l = Client.id <$> l.
Proof.
  unfold Client.handleMessageEdited. rewrite <- list_fmap_compose.
  apply list_fmap_ext. intros i m _. cbn. by case_bool_decide.
Qed.

Lemma handleMessageDeleted_ids ev l :
  Client.id <$> Client.handleMessageDeleted ev l = Client.id <$> l.
Proof.
  unfold Client.handleMessageDeleted. rewrite <- list_fmap_compose.
  apply list_fmap_ext. intros i m _. cbn. by case_bool_decide.
Qed.

(** X20: an edit event and a delete event change the local list in place:
    the identifiers stay as they were, in their order, so no entry is added,
    dropped or moved; an event for an identifier the list does not hold
    changes nothing; an edit changes only content and edit time, a delete
    only the flag. *)
Theorem message_events_in_place editEvent deleteEvent l :
  Client.id <$> Client.handleMessageEdited editEvent l = Client.id <$> l
  ∧ Client.id <$> Client.handleMessageDeleted deleteEvent l = Client.id <$> l
  ∧ (Client.edited_id editEvent ∉ Client.id <$> l →
     Client.handleMessageEdited editEvent l = l)
  ∧ (Client.deleted_id deleteEvent ∉ Client.id <$> l →
     Client.handleMessageDeleted deleteEvent l = l)
  ∧ Forall2 (λ old new,
       Client.createdAt new = Client.createdAt old
       ∧ Client.updatedAt new = Client.updatedAt old
       ∧ Client.sender new = Client.sender old
       ∧ Client.isDeleted new = Client.isDeleted old)
      l (Client.handleMessageEdited editEvent l)
  ∧ Forall2 (λ old new,
       Client.content new = Client.content old
       ∧ Client.createdAt new = Client.createdAt old
       ∧ Client.updatedAt new = Client.updatedAt old
       ∧ Client.editedAt new = Client.editedAt old
       ∧ Client.sender new = Client.sender old)
      l (Client.handleMessageDeleted deleteEvent l).
Proof.
  split; [apply handleMessageEdited_ids|].
  split; [apply handleMessageDeleted_ids|].
  split; [|split; [|split]].
  - intros Hno. unfold Client.handleMessageEdited.
    rewrite <- (list_fmap_id l) at 2. apply list_fmap_ext. intros i m Hm.
    rewrite bool_decide_eq_false_2; [done|]. intros Hid. apply Hno.
    apply list_elem_of_fmap. exists m. split; [done|].
    by apply list_elem_of_lookup_2 in Hm.
  - intros Hno. unfold Client.handleMessageDeleted.
    rewrite <- (list_fmap_id l) at 2. apply list_fmap_ext. intros i m Hm.
    rewrite bool_decide_eq_false_2; [done|]. intros Hid. apply Hno.
    apply list_elem_of_fmap. exists m. split; [done|].
    by apply list_elem_of_lookup_2 in Hm.
  - unfold Client.handleMessageEdited. apply Forall2_fmap_self.
    intros m. by case_bool_decide.
  - unfold Client.handleMessageDeleted. apply Forall2_fmap_self.
    intros m. by case_bool_decide.
Qed.

(** X21: an edit event and a delete event may arrive in either order, and
    either may arrive twice: the local list ends the same. *)
Theorem message_events_commute editEvent deleteEvent l :
  Client.handleMessageDeleted deleteEvent
    (Client.handleMessageEdited editEvent l)
  = Client.handleMessageEdited editEvent
      (Client.handleMessageDeleted deleteEvent l)
  ∧ Client.handleMessageEdited editEvent
      (Client.handleMessageEdited editEvent l)
    = Client.handleMessageEdited editEvent l
  ∧ Client.handleMessageDeleted deleteEvent
      (Client.handleMessageDeleted deleteEvent l)
    = Client.handleMessageDeleted deleteEvent l.
Proof.
  unfold Client.handleMessageEdited, Client.handleMessageDeleted.
  rewrite <- !list_fmap_compose.
  repeat split; apply list_fmap_ext; intros i m _; cbn [compose];
    repeat (case_bool_decide; cbn [Client.id] in * ); done.
Qed.

(** ** The client: sending *)

Lemma optimisticId_startsWith stamp :
  Js.startsWith "optimistic-" (Client.optimisticId stamp) = true.
Proof. destruct stamp; by vm_compute. Qed.

Lemma list_find_none_filter {A} (P : A → Prop) `{∀ x, Decision (P x)}
    (l : list A) :
  filter P l = [] → list_find P l = None.
Proof.
  intros Hnone. apply list_find_None, Forall_forall. intros x Hx HP.
  by apply (filter_nil_not_elem_of P l x).
Qed.

(** X22: the entry [handleSubmit] shows at once leaves no trace. If the
    mutation fails, removing it gives the list back; if the message comes
    back from the server, with the content and the sender of the entry and
    an identifier of the server's, the list is what the event alone would
    have made of the list before: that list with the confirmed message at
    its end. The list before holds no entry with either identifier and no
    placeholder that matches the event. *)
Theorem optimistic_send_flow
    toISOString stamp now now' currentUser messageContent messageEvent prev
    (Hfresh : Client.optimisticId stamp ∉ Client.id <$> prev)
    (Hcontent : Client.ev_content messageEvent = messageContent)
    (Hsender : Client.sender_id (Client.ev_sender messageEvent)
               = Client.sender_id currentUser)
    (Hreal : Js.startsWith "optimistic-" (Client.ev_id messageEvent) = false)
    (Hnew : ¬ confirmed messageEvent prev)
    (Hnone : placeholders toISOString messageEvent prev = []) :
  let shown :=
    Client.showOptimistic
      (Client.optimisticMessage stamp now now' currentUser messageContent)
      prev in
  Client.removeOptimistic (Client.optimisticId stamp) shown = prev
  ∧ Client.handleNewMessage toISOString messageEvent shown
    = Client.handleNewMessage toISOString messageEvent prev
  ∧ Client.handleNewMessage toISOString messageEvent prev
    = prev ++ [Client.newMessageOf toISOString messageEvent].
Proof.
  intros shown. subst shown.
  set (opt := Client.optimisticMessage stamp now now' currentUser
                messageContent).
  set (new := Client.newMessageOf toISOString messageEvent).
  assert (Client.handleNewMessage toISOString messageEvent prev = prev ++ [new])
    as Hdirect.
  { rewrite handleNewMessage_unknown by done.
    by rewrite (list_find_none_filter _ prev Hnone). }
  split; [|split; [|done]].
  - unfold Client.removeOptimistic, Client.showOptimistic.
    rewrite filter_app, filter_all.
    + rewrite filter_cons_False, filter_nil, app_nil_r; [done|].
      intros Hne. by apply Hne.
    + intros m Hm Hid. apply Hfresh. apply list_elem_of_fmap. by exists m.
  - rewrite Hdirect. unfold Client.showOptimistic.
    rewrite handleNewMessage_unknown.
    + match goal with
      | |- context [list_find ?P (prev ++ [opt])] =>
          assert (list_find P (prev ++ [opt]) = Some (length prev, opt)) as ->
      end.
      { apply list_find_Some. split; [|split].
        - by rewrite lookup_app_r, Nat.sub_diag by lia.
        - unfold Client.isOptimisticFor, opt, new. cbn [Client.id Client.content
            Client.sender Client.sender_id Client.optimisticMessage
            Client.newMessageOf].
          rewrite optimisticId_startsWith.
          by rewrite !bool_decide_eq_true_2.
        - intros j m Hj Hlt. rewrite lookup_app_l in Hj by done.
          intros Hm. apply list_elem_of_lookup_2 in Hj.
          eapply (filter_nil_not_elem_of _ _ m Hnone); [exact Hm|done]. }
      rewrite insert_app_r_alt, Nat.sub_diag by lia. done.
    + intros (x & Hx & Hid). apply elem_of_app in Hx as [Hx|Hx].
      * apply Hnew. by exists x.
      * apply list_elem_of_singleton in Hx as ->.
        cbn [Client.id opt Client.optimisticMessage] in Hid.
        rewrite <- Hid, optimisticId_startsWith in Hreal. done.
Qed.

Lemma optimistic_send_flow_witness :
  Client.removeOptimistic (Client.optimisticId "1700000000000")
    (Client.showOptimistic
       (Client.optimisticMessage "1700000000000" "t3" "t3" demoSender "bye")
       demoMessages) = demoMessages
  ∧ Client.handleNewMessage (λ s, s)
      (Client.mkMessageEvent "m3" "bye" "t3" "t3" "thread" demoSender)
      (Client.showOptimistic
         (Client.optimisticMessage "1700000000000" "t3" "t3" demoSender "bye")
         demoMessages)
    = Client.handleNewMessage (λ s, s)
        (Client.mkMessageEvent "m3" "bye" "t3" "t3" "thread" demoSender)
        demoMessages
  ∧ Client.handleNewMessage (λ s, s)
      (Client.mkMessageEvent "m3" "bye" "t3" "t3" "thread" demoSender)
      demoMessages
    = demoMessages
      ++ [Client.newMessageOf (λ s, s)
            (Client.mkMessageEvent "m3" "bye" "t3" "t3" "thread" demoSender)].
Proof.
  apply (optimistic_send_flow (λ s, s) "1700000000000" "t3" "t3" demoSender
           "bye" (Client.mkMessageEvent "m3" "bye" "t3" "t3" "thread" demoSender)
           demoMessages).
  - apply (bool_decide_unpack _). by vm_compute.
  - done.
  - done.
  - by vm_compute.
  - intros (x & Hx & Hid). revert Hid.
    repeat (apply elem_of_cons in Hx as [->|Hx]; [by vm_compute|]).
    by apply not_elem_of_nil in Hx.
  - by vm_compute.
Defined.

(** ** The client: the thread list *)

Lemma insertByLastMessageAt_Permutation a l :
  ThreadsClient.insertByLastMessageAt a l ≡ₚ a :: l.
Proof.
  induction l as [|b l IH]; [done|]. cbn [ThreadsClient.insertByLastMessageAt].
  case_bool_decide; [done|]. rewrite IH. apply perm_swap.
Qed.

Lemma sortByLastMessageAt_Permutation l :
  ThreadsClient.sortByLastMessageAt l ≡ₚ l.
Proof.
  induction l as [|a l IH]; [done|]. cbn.
  fold (ThreadsClient.sortByLastMessageAt l).
  by rewrite insertByLastMessageAt_Permutation, IH.
Qed.

Lemma insertByLastMessageAt_sorted a l :
  StronglySorted latestFirst l →
  StronglySorted latestFirst (ThreadsClient.insertByLastMessageAt a l).
Proof.
  induction l as [|b l IH]; intros Hs; cbn [ThreadsClient.insertByLastMessageAt].
  - repeat constructor.
  - apply StronglySorted_inv in Hs as [Hl Hb]. case_bool_decide as Hle.
    + constructor; [by constructor|]. constructor; [unfold latestFirst; lia|].
      eapply Forall_impl; [exact Hb|]. unfold latestFirst. intros x Hx. lia.
    + constructor; [by apply IH|].
      rewrite insertByLastMessageAt_Permutation.
      constructor; [unfold latestFirst; lia|done].
Qed.

Lemma sortByLastMessageAt_sorted l :
  StronglySorted latestFirst (ThreadsClient.sortByLastMessageAt l).
Proof.
  induction l as [|a l IH]; [constructor|]. cbn.
  by apply insertByLastMessageAt_sorted.
Qed.

(** Putting [t] where the first entry with its identifier is, or at the end
    when there is none, gives [t] and the entries with another identifier,
    provided identifiers are not repeated. *)
Lemma upsertThread_Permutation (t : ThreadsClient.ThreadData) l :
  NoDup (ThreadsClient.id <$> l) →
  match list_find (λ thread, ThreadsClient.id thread = ThreadsClient.id t) l with
  | None => l ++ [t]
  | Some (i, _) => <[i := t]> l
  end ≡ₚ t :: filter (λ x, ThreadsClient.id x ≠ ThreadsClient.id t) l.
Proof.
  intros Hnd.
  destruct (list_find _ l) as [[i x]|] eqn:Hfind.
  - apply list_find_Some in Hfind as (Hi & Hid & _).
    assert (l = take i l ++ x :: drop (S i) l) as Hl
      by (by rewrite take_drop_middle).
    rewrite insert_take_drop by (by apply lookup_lt_Some in Hi).
    rewrite <- Permutation_middle. apply Permutation_skip.
    rewrite Hl at 3. rewrite filter_app, filter_cons_False by (by intros Hne).
    rewrite Hl in Hnd. rewrite fmap_app, fmap_cons in Hnd.
    apply NoDup_app in Hnd as (_ & Hdisj & Hnd').
    apply NoDup_cons in Hnd' as [Hx _].
    assert (filter (λ x, ThreadsClient.id x ≠ ThreadsClient.id t) (take i l)
            = take i l) as ->.
    { apply filter_all. intros y Hy Heq. apply (Hdisj (ThreadsClient.id y)).
      - apply list_elem_of_fmap. by exists y.
      - rewrite Heq, <- Hid. left. }
    assert (filter (λ x, ThreadsClient.id x ≠ ThreadsClient.id t)
              (drop (S i) l) = drop (S i) l) as ->; [|done].
    apply filter_all. intros y Hy Heq. apply Hx. rewrite Hid, <- Heq.
    apply list_elem_of_fmap. by exists y.
  - apply list_find_None in Hfind. rewrite filter_all.
    + symmetry. apply Permutation_cons_append.
    + intros y Hy. rewrite Forall_forall in Hfind. by apply Hfind.
Qed.

(** X23: a [thread-created] event puts its thread into the cached list in
    the place of the entry with the same identifier, or as a new entry, and
    sorts: the list that results is ordered latest activity first and holds
    the thread of the event and the entries with another identifier, each
    once. Identifiers in the cache are not repeated before, and are not
    after. *)
Theorem handleThreadCreated_sorted normalizedThread prev
    (Hids : NoDup (ThreadsClient.id <$> default [] prev)) :
  let next := ThreadsClient.handleThreadCreated normalizedThread prev in
  StronglySorted latestFirst next
  ∧ next ≡ₚ normalizedThread
            :: filter (λ x, ThreadsClient.id x ≠ ThreadsClient.id normalizedThread)
                 (default [] prev)
  ∧ NoDup (ThreadsClient.id <$> next).
Proof.
  intros next. subst next. unfold ThreadsClient.handleThreadCreated. cbv zeta.
  split; [apply sortByLastMessageAt_sorted|].
  assert (ThreadsClient.sortByLastMessageAt
            match list_find
                    (λ thread, ThreadsClient.id thread
                               = ThreadsClient.id normalizedThread)
                    (default [] prev) with
            | None => default [] prev ++ [normalizedThread]
            | Some (existingIndex, _) =>
                <[existingIndex := normalizedThread]> (default [] prev)
            end
          ≡ₚ normalizedThread
             :: filter (λ x, ThreadsClient.id x
                             ≠ ThreadsClient.id normalizedThread)
                  (default [] prev)) as Hperm.
  { rewrite sortByLastMessageAt_Permutation.
    by apply upsertThread_Permutation. }
  split; [exact Hperm|]. rewrite Hperm, fmap_cons. apply NoDup_cons. split.
  - intros Hin. apply list_elem_of_fmap in Hin as (y & Hy & Hin).
    by apply list_elem_of_filter in Hin as [Hne _].
  - by apply NoDup_fmap_filter.
Qed.

Lemma handleThreadCreated_sorted_witness :
  StronglySorted latestFirst
    (ThreadsClient.handleThreadCreated demoThread (Some demoThreads))
  ∧ ThreadsClient.id <$> ThreadsClient.handleThreadCreated demoThread
                           (Some demoThreads)
    = ["t1"; "t3"; "t2"].
Proof.
  split; [|by vm_compute].
  refine (proj1 (handleThreadCreated_sorted demoThread (Some demoThreads) _)).
  apply (bool_decide_unpack _). by vm_compute.
Defined.

(** X24: the thread a user creates reaches the cache twice, from the answer
    to the mutation and from the [thread-created] event. In either order
    the cache then holds the thread once: after the answer the event gives
    the entries the event alone gives, and after the event the answer
    changes nothing. *)
Theorem created_thread_cached_once newThreadEntry normalizedThread prev
    (Hsame : ThreadsClient.id newThreadEntry = ThreadsClient.id normalizedThread)
    (Hids : NoDup (ThreadsClient.id <$> default [] prev)) :
  ThreadsClient.handleThreadCreated normalizedThread
    (Some (ThreadsClient.addCreatedThread newThreadEntry prev))
  ≡ₚ ThreadsClient.handleThreadCreated normalizedThread prev
  ∧ ThreadsClient.addCreatedThread newThreadEntry
      (Some (ThreadsClient.handleThreadCreated normalizedThread prev))
    = ThreadsClient.handleThreadCreated normalizedThread prev
  ∧ NoDup (ThreadsClient.id
             <$> ThreadsClient.addCreatedThread newThreadEntry prev).
Proof.
  assert (NoDup (ThreadsClient.id
                   <$> ThreadsClient.addCreatedThread newThreadEntry prev)
          ∧ filter (λ x, ThreadsClient.id x ≠ ThreadsClient.id normalizedThread)
              (ThreadsClient.addCreatedThread newThreadEntry prev)
            = filter (λ x, ThreadsClient.id x ≠ ThreadsClient.id normalizedThread)
                (default [] prev)) as [Hnd Hfilter].
  { unfold ThreadsClient.addCreatedThread.
    destruct prev as [prev|]; cbn [default] in *.
    - destruct (existsb _ prev) eqn:E; [done|]. split.
      + apply NoDup_cons. split; [|done]. intros Hin.
        apply list_elem_of_fmap in Hin as (y & Hy & Hin).
        apply not_true_iff_false in E. apply E, existsb_exists.
        exists y. split; [by apply list_elem_of_In|].
        by apply bool_decide_eq_true.
      + by rewrite filter_cons_False by (by intros Hne).
    - split; [apply NoDup_singleton|].
      by rewrite filter_cons_False by (by intros Hne). }
  split; [|split; [|done]].
  - unfold ThreadsClient.handleThreadCreated. cbn [default from_option id].
    rewrite !sortByLastMessageAt_Permutation.
    rewrite !upsertThread_Permutation by done. by rewrite Hfilter.
  - unfold ThreadsClient.addCreatedThread.
    destruct (existsb _ _) eqn:E; [done|]. exfalso.
    apply not_true_iff_false in E. apply E, existsb_exists.
    exists normalizedThread. split; [|by apply bool_decide_eq_true].
    apply list_elem_of_In.
    unfold ThreadsClient.handleThreadCreated. cbv zeta.
    rewrite sortByLastMessageAt_Permutation, upsertThread_Permutation by done.
    left.
Qed.

Lemma created_thread_cached_once_witness :
  ThreadsClient.handleThreadCreated demoThread
    (Some (ThreadsClient.addCreatedThread demoThread (Some (take 2 demoThreads))))
  ≡ₚ ThreadsClient.handleThreadCreated demoThread (Some (take 2 demoThreads))
  ∧ ThreadsClient.id
      <$> ThreadsClient.handleThreadCreated demoThread
            (Some (ThreadsClient.addCreatedThread demoThread
                     (Some (take 2 demoThreads))))
    = ["t1"; "t3"; "t2"].
Proof.
  split; [|by vm_compute].
  refine (proj1 (created_thread_cached_once demoThread demoThread
                   (Some (take 2 demoThreads)) eq_refl _)).
  apply (bool_decide_unpack _). by vm_compute.
Defined.

(** X25: ticking and unticking a participant keeps the selection free of
    repetition; a ticked identifier is in the selection and an unticked
    one, or one in the third state of the box, is not; no other identifier
    comes or goes, and the same change a second time does nothing. *)
Theorem setParticipantSelection_selection id checked prev
    (Hprev : NoDup prev) :
  let next := ThreadsClient.setParticipantSelection id checked prev in
  NoDup next
  ∧ (id ∈ next ↔ checked = ThreadsClient.Checked)
  ∧ (∀ other, other ≠ id → other ∈ next ↔ other ∈ prev)
  ∧ ThreadsClient.setParticipantSelection id checked next = next.
Proof.
  intros next. subst next. unfold ThreadsClient.setParticipantSelection.
  assert (∀ l : list string, id ∉ filter (λ existingId, existingId ≠ id) l)
    as Hgone.
  { intros l Hin. by apply list_elem_of_filter in Hin as [Hne _]. }
  assert (∀ l : list string,
            filter (λ existingId, existingId ≠ id)
              (filter (λ existingId, existingId ≠ id) l)
            = filter (λ existingId, existingId ≠ id) l) as Hidem.
  { intros l. apply filter_all. intros x Hx.
    by apply list_elem_of_filter in Hx as [Hne _]. }
  destruct checked.
  - case_bool_decide as Hin.
    + rewrite bool_decide_eq_true_2 by done. repeat split; done.
    + rewrite bool_decide_eq_true_2
        by (apply elem_of_app; right; by apply list_elem_of_singleton).
      split; [|split; [|split; [|done]]].
      * apply NoDup_app. split; [done|]. split; [|apply NoDup_singleton].
        by intros x Hx ->%list_elem_of_singleton.
      * split; [done|]. intros _. apply elem_of_app. right.
        by apply list_elem_of_singleton.
      * intros other Hne. rewrite elem_of_app, list_elem_of_singleton.
        split; [by intros [?|?]|by left].
  - split; [by apply NoDup_filter|]. split; [split; [by intros ?%Hgone|done]|].
    split; [|apply Hidem]. intros other Hne. rewrite list_elem_of_filter.
    split; [by intros [_ ?]|done].
  - split; [by apply NoDup_filter|]. split; [split; [by intros ?%Hgone|done]|].
    split; [|apply Hidem]. intros other Hne. rewrite list_elem_of_filter.
    split; [by intros [_ ?]|done].
Qed.

Lemma setParticipantSelection_selection_witness :
  NoDup (ThreadsClient.setParticipantSelection "u2" ThreadsClient.Checked
           ["u1"; "u3"])
  ∧ ThreadsClient.setParticipantSelection "u2" ThreadsClient.Checked
      ["u1"; "u3"] = ["u1"; "u3"; "u2"]
  ∧ ThreadsClient.setParticipantSelection "u1" ThreadsClient.Indeterminate
      ["u1"; "u3"] = ["u3"].
Proof.
  split; [|by vm_compute].
  refine (proj1 (setParticipantSelection_selection "u2" ThreadsClient.Checked
                   ["u1"; "u3"] _)).
  apply (bool_decide_unpack _). by vm_compute.
Defined.

(** ** The request context *)

(** X26: the context of a request binds the caller to the session. Without
    a session identity the context has no user, nothing is written, and
    every protected procedure answers UNAUTHORIZED on it; with one, the
    user identifier of the context, when there is one, is that of a row of
    the store that carries the session's external identifier. *)
Theorem createTRPCContext_binds_caller
    lookup randomUUID newId newId' now clerkAuth customOrgId db :
  let call :=
    Trpc.createTRPCContext lookup randomUUID newId newId' now clerkAuth
      customOrgId in
  (Js.truthy clerkAuth = false →
   store call db = db
   ∧ (∃ ctx, result call db = Ok ctx ∧ Trpc.auth_userId ctx = None)
   ∧ ∀ (I O : Type) (schema : I → bool) (handler : uuid → I → Proc O) input,
       (ctx ← call; protectedProcedure schema handler (Trpc.auth_userId ctx)
                      input) db
       = (db, Throw (TRPCError UNAUTHORIZED)))
  ∧ ∀ ctx, result call db = Ok ctx →
      Trpc.auth_clerkUserId ctx = clerkAuth
      ∧ ∀ userId, Trpc.auth_userId ctx = Some userId →
          ∃ c u, clerkAuth = Some c ∧ u ∈ tbl_users (store call db)
                 ∧ users.id u = userId ∧ users.clerkUserId u = c.
Proof.
  intros call. subst call. unfold Trpc.createTRPCContext. cbv zeta. split.
  - intros Hanon.
    assert (match clerkAuth with
            | Some c =>
                if Js.truthy clerkAuth
                then Trpc.resolveUser lookup randomUUID newId newId' now c
                else mret None
            | None => mret None
            end = mret None) as ->
      by (destruct clerkAuth; [by rewrite Hanon|done]).
    split; [done|]. split; [by eexists|]. done.
  - intros ctx. destruct clerkAuth as [c|]; [|by intros [= <-]].
    destruct (Js.truthy (Some c)); [|by intros [= <-]].
    unfold result, store, mbind, proc_bind, mret, proc_ret.
    pose proof (resolveUser_some_owner lookup randomUUID newId newId' now c db)
      as Howner. unfold result, store in Howner.
    destruct (Trpc.resolveUser lookup randomUUID newId newId' now c db)
      as [db' [userId|e]]; cbn [fst snd] in *; [|done].
    intros [= <-]. split; [done|]. cbn [Trpc.auth_userId].
    intros i ->. destruct (Howner i eq_refl) as (u & Hu & Hid & Hc).
    by exists c, u.
Qed.

(** ** Sending and the thread list *)



